(* ===== verification/_CoqProject ===== *)
-Q . S2P
Prelude.v
Framework.v
Models.v
Registration.v
UserUpdate.v
ChangePassword.v
InvitationIssue.v
Threads.v
Concurrency.v
Requests.v
