(* ===== verification/Prelude.v ===== *)
(** * A verification development of the account serializers of server_monitor_api

    ** The program

    The repository's logic is one Python module, [src/users/serializers.py]:
    five Django REST Framework (DRF) serializers over three persisted
    entities (User, Profile, InvitationCode).
    - [ProfileSerializer] (lines 8-11): the four profile fields.
    - [UserSerializer.update] (lines 13-64): edits a user's names and its
      nested profile.  The profile is popped from the validated data,
      fetched with [get_or_create], validated again by a second
      [ProfileSerializer] and saved; then [ModelSerializer.update] sets the
      remaining fields and saves the whole instance.
    - [UserRegistrationSerializer] (lines 66-141):
      - [validate_email] checks uniqueness with [User.objects.filter].
      - [validate_role] checks membership in [User.Role.values].
      - [validate] checks the password confirmation and the optional
        invitation code ([objects.get], [is_valid], the code's role).
      - [create] calls [create_user] with
        [is_active = is_role_confirmed = bool(invitation)], then sets
        [invitation.used_by] and saves the invitation.
    - [ChangePasswordSerializer] (lines 144-165):
      [validate_old_password] ([check_password]), [validate] (the two new
      passwords agree), [save] ([set_password] then [user.save()]).
    - [InvitationCodeSerializer] (lines 167-182): [create] sets
      [created_by] to the request's user, draws a [uuid4] code and creates
      the row.
    The serializers interact only through the database, with no lock or
    transaction.  Registration reads users and invitations in [is_valid()]
    and writes both in [save()].  Issuance writes invitations.  The update
    and the password change write users and profiles.

    ** Files, and what they model
    - [Prelude] (this file): the error monad [result], the state monad
      [st] whose state survives an error (Django commits each [save]), the
      [read_only] predicate, the hint database [drf], and the tactics
      [inv_result], [inv_st], [solve_read_only] and [case_eqb].
    - [Framework]: what the serializers inherit from DRF and Django.
      - Request values ([jvalue]) and the error dictionary
        ([ValidationError], [Failure]).
      - [CharField], [ChoiceField] and [validate_empty_values], with
        Python's [str.strip] as [strip].
      - [Serializer.to_internal_value]: the errors collected per field.
      - The interfaces [PasswordHasher] (with its laws), [PasswordPolicy],
        [RoleChoices], [EmailPolicy], [UuidSource] (injective),
        [ProfileFields] (re-conversion idempotent) and [DateTimeParser],
        with one concrete instance each for the runs.
    - [Models]: the three entities as Records in Modules [User], [Profile]
      and [InvitationCode].
      - The database [Db]: three [gmap] tables, the id counters and the
        number of [uuid4] draws.
      - The ORM calls, as functions on [Db].
      - [InvitationCode.is_valid].
      - The invariant [db_wf]: keys and counters agree, e-mails and codes
        are unique, codes were drawn, references point at users.
      [models.py] is not under [src/]: these are modelled from the spec and
      from the fields the serializers name.
    - [Registration], Module [UserRegistrationSerializer]: [fields],
      [validate_email], [validate_role], [check_invitation], [validate] and
      [create].  [register] composes them as [is_valid(); save()] does.
    - [UserUpdate], Modules [ProfileSerializer] and [UserSerializer]:
      - [to_internal_value], [update] and [partial_update].
      - DRF's [raise_errors_on_nested_writes].
      - [update_manual]: the [setattr] loop the source's comment (lines
        50-53) gives as an alternative.
    - [ChangePassword], Module [ChangePasswordSerializer]: [fields],
      [validate_old_password], [validate], [save], and their composition
      [change_password].
    - [InvitationIssue], Module [InvitationCodeSerializer]: only [role]
      and [expires_at] are writable; then [create] and their composition
      [issue].
    - [Threads]: the views run concurrently, for any handler given as a
      [handler] record of its read phase ([is_valid()]) and its write
      phase ([save()]).
      - A state [Sys] of the database and one [phase] per request
        ([Pending], [Checked], [Finished]).
      - The Inductive [step] relation, whose runs are all the
        interleavings of the phases; the serial runs [serial_step]; the
        executable scheduler [next_phase] and [run_schedule].
      - Generic lemmas: termination ([step_sn]), progress
        ([all_answered]), a counting principle ([run_count_bound]) and a
        two-request interleaving ([interleave_run]).
    - [Concurrency], Module [RegistrationRace]: the registration view as
      a [handler] ([is_valid] then [create]), and the balance of active
      users against used codes.
    - [Requests], Module [Requests]: the four views as one [handler] over
      a [request] of each kind ([RRegister], [RChangePassword], [RUpdate],
      [RIssue]), so that any mix of requests runs on one database.  The
      views themselves are not under [src/]: the dispatch is modelled from
      the spec, each branch calling the serializer's own operations.

    ** What the theorems show (claims C1-C40)
    - Registration (C1-C3, C5-C12, C40):
      - [register] refines the contract [RegisterSpec] and is complete.
      - It raises no uncaught exception.
      - Every error branch answers as the code does and writes nothing.
      - A code admits one registration when requests run one after
        another.
      - [validate_role]'s error is dead code, and passwords are stripped.
      - The dict handed to [create] holds only the model's arguments.
    - Update (C13-C18, C39):
      - Read-only fields and the password never change; names are stored
        stripped; the profile is created or updated.
      - A failed update writes nothing, and [db_wf] is preserved.
      - Re-validating profile data is idempotent, and the two-serializer
        update is equivalent to the commented [setattr] loop.
    - Password change (C19-C24):
      - It succeeds exactly on accepted fields, and then only the new
        password checks.
      - Its errors are never server errors; it preserves [db_wf].
    - Issuance (C25-C30):
      - It succeeds exactly on a valid role and expiry; read-only fields
        are ignored; the code is fresh and unique.
      - It preserves [db_wf], and its errors write nothing.
      - A past expiry is accepted, creating a code that is never valid.
    - Registration requests interleaved (C31-C33):
      - Serial runs keep the balance of active users against used codes.
      - Interleaved runs let one code activate two users, and let two
        users register with one e-mail address, which breaks [db_wf];
        these are findings.
    - All the views together (C4, C34-C38):
      - [n] requests of any views create at most [n] user rows, however
        they interleave (C34).
      - Served one after another, any mix of the four views keeps [db_wf]
        while each request's user is a stored row (C4).
      - Each request's two phases are the view's whole handler.
      - Every run terminates, and every request can be answered.
      - A PATCH validated before a password change commits writes the old
        password hash back: the change is lost, a finding.

    ** Bounds and fuel
    No definition uses fuel.  The Fixpoints ([drop_spaces],
    [digits_value], [run_schedule]) are structural.  The step relation
    terminates because each step lowers [work], two units per request not
    started and one per validated request.  Identifiers are [nat] counters
    (Django's auto-increment keys); time is a [Z] timestamp; no value of
    the program has a machine width.

    ** Not modelled
    - HTTP views, URL routing, permissions and authentication: not in
      [src/].  The request's user is a parameter.
    - E-mail delivery, a TODO in [create].
    - [to_representation] and the two read-only e-mail fields of
      [InvitationCodeSerializer]: they only shape responses.
    - The ImageField's file handling: an avatar is an opaque value.
    - Django's validators, hashers and datetime parsing, except through
      their interfaces.
    - Unicode whitespace beyond ASCII in [strip].
    - Database transactions and row locks: the code takes none, so a
      phase of one request sees every commit of another.  Each [save()]
      is one atomic step; a finer interleaving inside one [save()] (its
      two writes in [create]) is not modelled. *)

From stdpp Require Export base gmap strings list fin_maps.
From Stdlib Require Export String Ascii ZArith.

Declare Scope drf_scope.
Delimit Scope drf_scope with drf.

(** ** The error monad of the handlers *)

Inductive result (E A : Type) : Type :=
| Ok (a : A)
| Err (e : E).
Arguments Ok {E A} a.
Arguments Err {E A} e.

#[export] Instance result_ret E : MRet (result E) := λ A a, Ok a.
#[export] Instance result_bind E : MBind (result E) :=
  λ A B f r, match r with Ok a => f a | Err e => Err e end.

(** Python's truthiness of an optional string: [None] and [''] are false. *)
Definition truthy (o : option string) : bool :=
  match o with
  | Some s => negb (String.eqb s "")
  | None => false
  end.

Create HintDb drf.
Create Rewrite HintDb drf.

Section ResultLemmas.
Context {E A B : Type}.

Lemma bind_Ok_inv (c : result E A) (f : A → result E B) (b : B) :
  (x ← c; f x) = Ok b → ∃ a, c = Ok a ∧ f a = Ok b.
Proof. destruct c; simpl; [eauto | discriminate]. Qed.

Lemma bind_Err_inv (c : result E A) (f : A → result E B) (e : E) :
  (x ← c; f x) = Err e → c = Err e ∨ ∃ a, c = Ok a ∧ f a = Err e.
Proof. destruct c; simpl; eauto; intros [= ->]; auto. Qed.

Lemma bind_Ok_l (a : A) (f : A → result E B) : (x ← Ok a; f x) = f a.
Proof. reflexivity. Qed.

Lemma bind_Err_l (e : E) (f : A → result E B) : (x ← Err e; f x) = Err e.
Proof. reflexivity. Qed.
End ResultLemmas.

#[export] Hint Rewrite @bind_Ok_l @bind_Err_l : drf.

Lemma truthy_Some s : truthy (Some s) = true ↔ s ≠ ""%string.
Proof.
  unfold truthy. rewrite negb_true_iff.
  split; intros H.
  - intros ->. discriminate.
  - destruct (String.eqb_spec s "") ; congruence.
Qed.

Lemma truthy_empty : truthy (Some ""%string) = false.
Proof. reflexivity. Qed.

(** Destruct a successful or failed bind chain into its steps. *)
Ltac inv_result :=
  repeat match goal with
  | H : (_ ← ?c; _) = Ok _ |- _ =>
      let a := fresh "a" in let Ha := fresh "Ha" in
      apply bind_Ok_inv in H as (a & Ha & H)
  | H : Ok _ = Ok _ |- _ => injection H as H
  | H : Ok _ = Err _ |- _ => discriminate H
  | H : Err _ = Ok _ |- _ => discriminate H
  end.

(** ** State threaded through a handler

    A handler runs on the database and may fail; what it wrote before an
    exception stays written (Django commits each [save()] at once when no
    transaction is open), so the state is returned on both outcomes. *)

Definition st (S E A : Type) : Type := S → S * result E A.

#[export] Instance st_ret S E : MRet (st S E) := λ A a s, (s, Ok a).
#[export] Instance st_bind S E : MBind (st S E) := λ A B f c s,
  match c s with
  | (s', Ok a) => f a s'
  | (s', Err e) => (s', Err e)
  end.

Definition get_state {S E} : st S E S := λ s, (s, Ok s).
Definition throw {S E A} (e : E) : st S E A := λ s, (s, Err e).
Definition lift {S E A} (r : result E A) : st S E A := λ s, (s, r).
(** Run a total state update that returns a value ([f s = (s', a)]). *)
Definition update {S E A} (f : S → S * A) : st S E A :=
  λ s, let '(s', a) := f s in (s', Ok a).

Section StLemmas.
Context {S E A B : Type}.

Lemma st_bind_Ok_inv (c : st S E A) (f : A → st S E B) s s' b :
  (x ← c; f x) s = (s', Ok b) →
  ∃ a s1, c s = (s1, Ok a) ∧ f a s1 = (s', Ok b).
Proof.
  unfold mbind, st_bind. destruct (c s) as [s1 [a|e]]; [eauto | discriminate].
Qed.

Lemma st_bind_Err_inv (c : st S E A) (f : A → st S E B) s s' e :
  (x ← c; f x) s = (s', Err e) →
  c s = (s', Err e) ∨ ∃ a s1, c s = (s1, Ok a) ∧ f a s1 = (s', Err e).
Proof.
  unfold mbind, st_bind. destruct (c s) as [s1 [a|e']]; [eauto|].
  intros [= -> ->]. auto.
Qed.

Lemma st_bind_run (c : st S E A) (f : A → st S E B) s s1 a :
  c s = (s1, Ok a) → (x ← c; f x) s = f a s1.
Proof. intros H. unfold mbind, st_bind. by rewrite H. Qed.

Lemma st_bind_stop (c : st S E A) (f : A → st S E B) s s1 e :
  c s = (s1, Err e) → (x ← c; f x) s = (s1, Err e).
Proof. intros H. unfold mbind, st_bind. by rewrite H. Qed.
End StLemmas.

(** Peel the binds of a successful run into its steps. *)
Ltac inv_st :=
  repeat match goal with
  | H : (_ ← _; _) _ = (_, Ok _) |- _ =>
      let a := fresh "a" in let s := fresh "s" in let Ha := fresh "Hst" in
      apply st_bind_Ok_inv in H as (a & s & Ha & H)
  | H : (_, _) = (_, _) |- _ => injection H as H
  end.

(** ** Handlers that only read the state *)

Definition read_only {S E A} (c : st S E A) : Prop := ∀ s, (c s).1 = s.

Section ReadOnly.
Context {S E : Type}.

Lemma read_only_ret {A} (a : A) : read_only (mret a : st S E A).
Proof. done. Qed.
Lemma read_only_lift {A} (r : result E A) : read_only (lift r : st S E A).
Proof. done. Qed.
Lemma read_only_get : read_only (get_state : st S E S).
Proof. done. Qed.
Lemma read_only_throw {A} (e : E) : read_only (throw e : st S E A).
Proof. done. Qed.
Lemma read_only_bind {A B} (c : st S E A) (f : A → st S E B) :
  read_only c → (∀ a, read_only (f a)) → read_only (x ← c; f x).
Proof.
  intros Hc Hf s. unfold mbind, st_bind. specialize (Hc s).
  destruct (c s) as [s1 [a|e]]; simpl in *; subst; [apply Hf | done].
Qed.
Lemma read_only_run {A} (c : st S E A) s s' r :
  read_only c → c s = (s', r) → s' = s.
Proof. intros Hc Hs. specialize (Hc s). by rewrite Hs in Hc. Qed.
End ReadOnly.

#[export] Hint Resolve read_only_ret read_only_lift read_only_get read_only_throw : drf.

(** Case on the first string comparison [String.eqb a b] of the goal. *)
Ltac case_eqb :=
  match goal with |- context [String.eqb ?a ?b] => destruct (String.eqb_spec a b) end.

(** Prove [read_only] of a handler built from binds, ifs and matches. *)
Ltac solve_read_only :=
  repeat first
    [ apply read_only_bind; [| intros ?]
    | progress (eauto with drf)
    | case_match ].

Lemma truthy_default (o : option string) : truthy o = true → o = Some (default "" o).
Proof. by destruct o. Qed.

Lemma not_ne_refl {A} (x : A) : ¬ (x ≠ x).
Proof. intros H. by apply H. Qed.

#[export] Instance result_eq_dec {E A} `{EqDecision E} `{EqDecision A} :
  EqDecision (result E A).
Proof. solve_decision. Defined.

(** ** Generic lemmas on lists, maps and the state monad *)

(** Overwriting one entry of a list changes a weighted sum by the
    difference of the weights. *)
Lemma sum_list_with_insert {A} (f : A → nat) l t x y :
  l !! t = Some y → sum_list_with f (<[t:=x]> l) + f y = sum_list_with f l + f x.
Proof.
  revert t. induction l as [|z l IH]; intros [|t] Ht; simplify_eq/=; [lia|].
  specialize (IH t Ht). lia.
Qed.

Lemma size_insert_le {V} (m : gmap nat V) k x : size (<[k:=x]> m) ≤ S (size m).
Proof.
  destruct (m !! k) eqn:E; [rewrite map_size_insert_Some by eauto | rewrite map_size_insert_None by done]; lia.
Qed.

Lemma st_bind_assoc {S E A B C} (c : st S E A) (f : A → st S E B) (g : B → st S E C) s :
  (y ← (x ← c; f x); g y) s = (x ← c; y ← f x; g y) s.
Proof.
  unfold mbind, st_bind. destruct (c s) as [s1 [a|e]]; [|done].
  by destruct (f a s1) as [s2 [b|e]].
Qed.

(** A computation whose result is only wrapped leaves the state the
    computation leaves. *)
Lemma st_bind_ret_inv {S E A B} (c : st S E A) (f : A → B) s s' r :
  (x ← c; mret (f x)) s = (s', r) → ∃ r', c s = (s', r').
Proof. unfold mbind, st_bind, mret, st_ret. destruct (c s) as [s1 [a|e]]; intros [= <- _]; eauto. Qed.

(** Two threads, each overwritten twice. *)
Lemma interleave_lookups {A} (l : list A) t1 t2 (a1 a2 b1 b2 : A) :
  t1 ≠ t2 → t1 < List.length l → t2 < List.length l →
  <[t2 := b2]> (<[t1 := b1]> (<[t2 := a2]> (<[t1 := a1]> l))) !! t1 = Some b1 ∧
  <[t2 := b2]> (<[t1 := b1]> (<[t2 := a2]> (<[t1 := a1]> l))) !! t2 = Some b2.
Proof.
  intros Hne H1 H2. rewrite list_lookup_insert_ne by done.
  rewrite !list_lookup_insert_eq by (rewrite ?length_insert; done). done.
Qed.
