(* ===== verification/Framework.v ===== *)
(** * What the serializers inherit from DRF and Django

    The request payload, DRF's error dictionary, the validation of one
    [CharField] / [EmailField] / [ChoiceField] ([Field.run_validation] with
    [validate_empty_values], [CharField.run_validation]'s blank test and
    [to_internal_value]'s [str.strip]) and the interfaces of the Django
    services the serializers call: the password hasher, the password
    validators, the role choices and [uuid.uuid4].  None of this is code of
    the repository; it is the library the sources call, modelled so that
    the serializers' own definitions can be stated faithfully. *)

From S2P Require Import Prelude.
From stdpp Require Import pretty.

(** ** Payloads and errors *)

(** A value of the parsed JSON body, as a field sees it.  [JOther] stands
    for numbers, booleans, lists and objects, which a [CharField] of this
    module never accepts as a string without conversion. *)
Inductive jvalue : Type :=
| JNull
| JStr (s : string)
| JOther.

(** The messages the serializers and their fields raise.  The
    repository's messages are in Russian; each constructor names one. *)
Inductive ErrorCode : Type :=
| Required                (** "This field is required." *)
| Null                    (** "This field may not be null." *)
| Blank                   (** "This field may not be blank." *)
| NotAString              (** "Not a valid string." *)
| InvalidChoice (s : string)  (** "... is not a valid choice." *)
| InvalidEmail            (** [EmailValidator] *)
| PasswordRejected (why : string)  (** a message of [validate_password] *)
| EmailTaken              (** "Пользователь с таким email уже существует." *)
| RoleNotAllowed          (** "Недопустимая роль пользователя." *)
| PasswordsDiffer         (** "Пароли не совпадают." *)
| InviteUnusable          (** "Недействительный или уже использованный код приглашения." *)
| InviteRoleMismatch (code_role asked : option string)
                          (** "Код приглашения предназначен для роли ..." *)
| InviteNotFound          (** "Код приглашения не найден." *)
| OldPasswordWrong        (** "Старый пароль неверен." *)
| NewPasswordsDiffer      (** "Новые пароли не совпадают." *)
| InvalidDateTime.        (** "Datetime has wrong format." *)

#[export] Instance ErrorCode_eq_dec : EqDecision ErrorCode.
Proof. solve_decision. Defined.

(** DRF's [ValidationError] detail: field name to its messages. *)
Definition ValidationError := list (string * list ErrorCode).

(** How a request fails: a [ValidationError] (HTTP 400), or an exception
    the serializer does not catch (an [AssertionError], an ORM exception:
    HTTP 500). *)
Inductive Failure : Type :=
| Invalid (errs : ValidationError)
| ServerError (what : string).

Abbreviation drf := (result Failure).

(** [raise serializers.ValidationError({field: message})] *)
Definition field_error {A} (field : string) (c : ErrorCode) : drf A :=
  Err (Invalid [(field, [c])]).

(** ** Python's [str.strip] *)

(** [str.isspace] on the ASCII range: \t \n \v \f \r, the separators
    \x1c-\x1f and the space. *)
Definition is_space (c : ascii) : bool :=
  let n := nat_of_ascii c in
  ((9 <=? n) && (n <=? 13)) || ((28 <=? n) && (n <=? 32)).

(** [str.lstrip()] on the characters of a string. *)
Fixpoint drop_spaces (l : list ascii) : list ascii :=
  match l with
  | [] => []
  | c :: r => if is_space c then drop_spaces r else l
  end.

(** [str.strip()]: leading spaces dropped, then trailing ones. *)
Definition strip (s : string) : string :=
  string_of_list_ascii (rev (drop_spaces (rev (drop_spaces (list_ascii_of_string s))))).

(** No leading space. *)
Definition no_lead (l : list ascii) : Prop :=
  match l with [] => True | c :: _ => is_space c = false end.

Lemma drop_spaces_no_lead l : no_lead (drop_spaces l).
Proof. induction l as [|c l IH]; simpl; [done|]. destruct (is_space c) eqn:E; done. Qed.

Lemma drop_spaces_id l : no_lead l → drop_spaces l = l.
Proof. destruct l as [|c l]; simpl; [done|]. by intros ->. Qed.

Lemma drop_spaces_split l : ∃ p, l = p ++ drop_spaces l.
Proof.
  induction l as [|c l [p Hp]]; simpl; [by exists []|].
  destruct (is_space c); [exists (c :: p); simpl; by f_equal | by exists []].
Qed.

(** Dropping the trailing spaces of a string without leading space leaves
    it without leading space. *)
Lemma drop_trailing_no_lead l : no_lead l → no_lead (rev (drop_spaces (rev l))).
Proof.
  intros Hl. destruct (drop_spaces_split (rev l)) as [p Hp].
  assert (l = rev (drop_spaces (rev l)) ++ rev p) as Hl'.
  { rewrite <-rev_app_distr, <-Hp. by rewrite rev_involutive. }
  destruct (rev (drop_spaces (rev l))) as [|c r]; [done|]. by rewrite Hl' in Hl.
Qed.

(** [strip] is idempotent: a stripped value strips to itself. *)
Lemma strip_idempotent s : strip (strip s) = strip s.
Proof.
  unfold strip. rewrite list_ascii_of_string_of_list_ascii. f_equal.
  set (X := drop_spaces (list_ascii_of_string s)).
  assert (no_lead (rev (drop_spaces (rev X)))) as HY
    by (apply drop_trailing_no_lead, drop_spaces_no_lead).
  rewrite (drop_spaces_id _ HY), rev_involutive.
  destruct (drop_spaces_split (rev X)) as [p Hp].
  rewrite (drop_spaces_id (drop_spaces (rev X))) by apply drop_spaces_no_lead. done.
Qed.

(** What the client sent in a text field, as a trimming [CharField] reads
    it. *)
Definition sent (o : option jvalue) : option string :=
  match o with
  | Some (JStr s) => Some (strip s)
  | _ => None
  end.

(** ** Field validation *)

(** The options of a DRF [CharField] that matter to [run_validation]. *)
Record CharOpts : Type := {
  required : bool;
  allow_null : bool;
  allow_blank : bool;
  trim_whitespace : bool
}.

(** What [run_validation] gives back to [Serializer.to_internal_value]:
    [None] when the field raised [SkipField] (absent, not required, or a
    partial update), [Some v] for the validated value ([v = None] for an
    accepted JSON null). *)
Definition FieldResult := result (list ErrorCode) (option (option string)).

(** [Field.validate_empty_values] for an absent key and for JSON null. *)
Definition validate_empty_values (partial : bool) (o : CharOpts)
    (d : option jvalue) : option FieldResult :=
  match d with
  | None =>
      if partial then Some (Ok None)
      else if required o then Some (Err [Required]) else Some (Ok None)
  | Some JNull => if allow_null o then Some (Ok (Some None)) else Some (Err [Null])
  | Some _ => None
  end.

(** [CharField.run_validation] followed by [to_internal_value] and
    [run_validators]; [validators] returns the messages of the field's
    validators on the converted value ([[]] when they all pass). *)
Definition char_run_validation (partial : bool) (o : CharOpts)
    (validators : string → list ErrorCode) (d : option jvalue) : FieldResult :=
  match d with
  | Some (JStr s) =>
      if String.eqb s "" || (trim_whitespace o && String.eqb (strip s) "") then
        if allow_blank o then Ok (Some (Some "")) else Err [Blank]
      else
        let v := if trim_whitespace o then strip s else s in
        match validators v with
        | [] => Ok (Some (Some v))
        | errs => Err errs
        end
  | Some JOther => Err [NotAString]
  | _ => default (Err [Required]) (validate_empty_values partial o d)
  end.

(** [ChoiceField.run_validation]: no blank test and no trimming; the value
    must be one of the choices. *)
Definition choice_run_validation (partial : bool) (o : CharOpts)
    (choices : list string) (d : option jvalue) : FieldResult :=
  match d with
  | Some (JStr s) =>
      if String.eqb s "" && allow_blank o then Ok (Some (Some ""))
      else if bool_decide (s ∈ choices) then Ok (Some (Some s))
      else Err [InvalidChoice s]
  | Some JOther => Err [InvalidChoice ""]
  | _ => default (Err [Required]) (validate_empty_values partial o d)
  end.

(** ** Interfaces of the Django services the serializers call *)

(** [make_password] / [User.check_password]: checking a password against
    the hash of itself succeeds, and against the hash of another fails. *)
Class PasswordHasher : Type := {
  make_password : string → string;
  check_password : string → string → bool;  (** raw, stored *)
  check_make_password p : check_password p (make_password p) = true;
  check_make_password_inv p q :
    check_password q (make_password p) = true → q = p
}.

(** [django.contrib.auth.password_validation.validate_password]: the
    messages of the configured validators, [[]] when the password passes. *)
Class PasswordPolicy : Type := {
  validate_password : string → list string
}.

(** [User.Role.values]. *)
Class RoleChoices : Type := {
  role_values : list string
}.

(** Django's [EmailValidator]. *)
Class EmailPolicy : Type := {
  email_valid : string → bool
}.

(** [uuid.uuid4()], drawn from a counter kept in the database model; two
    draws never collide. *)
Class UuidSource : Type := {
  uuid4 : nat → string;
  uuid4_inj :: Inj (=) (=) uuid4
}.

(** The conversion of the profile's model fields ([ImageField],
    [CharField], [DateField]) from a request string to the stored value,
    by field name.  Re-validating a converted value gives it back: DRF
    relies on this when [UserSerializer.update] hands the validated
    profile data to a second [ProfileSerializer]. *)
Class ProfileFields : Type := {
  profile_to_internal : string → string → result (list ErrorCode) string;
  profile_to_internal_idem n s v :
    profile_to_internal n s = Ok v → profile_to_internal n v = Ok v
}.

(** [DateTimeField.to_internal_value] on a string: the parsed instant, as
    seconds, or [None] when the string is not a datetime. *)
Class DateTimeParser : Type := {
  parse_datetime : string → option Z
}.

Definition password_validators `{PasswordPolicy} (v : string) : list ErrorCode :=
  PasswordRejected <$> validate_password v.

Definition email_validators `{EmailPolicy} (v : string) : list ErrorCode :=
  if email_valid v then [] else [InvalidEmail].

(** ** Instances used by the concrete runs of the development *)

(** A hasher that tags the raw password (Django's [UnsaltedSHA1]-style
    scheme with the identity as digest); it satisfies the laws. *)
#[export] Program Instance plain_hasher : PasswordHasher := {
  make_password p := ("plain$" +:+ p)%string;
  check_password q h := String.eqb h ("plain$" +:+ q)%string
}.
Next Obligation. intros p. apply String.eqb_refl. Qed.
Next Obligation.
  intros p q H. apply String.eqb_eq in H. by injection H.
Qed.

(** Django's [MinimumLengthValidator] (8) and [NumericPasswordValidator]. *)
#[export] Instance default_policy : PasswordPolicy := {
  validate_password p :=
    (if String.length p <? 8 then ["too_short"%string] else []) ++
    (if bool_decide (p ≠ ""%string) && forallb (λ c, bool_decide (c ∈ ["0";"1";"2";"3";"4";"5";"6";"7";"8";"9"]%char)) (list_ascii_of_string p)
     then ["entirely_numeric"%string] else [])
}.

#[export] Instance counter_uuid : UuidSource := {
  uuid4 n := ("uuid-" +:+ pretty n)%string
}.

(** A role enumeration and an address check for concrete runs; the
    development's theorems hold for every instance. *)
Definition sample_roles : RoleChoices := {| role_values := ["admin"; "engineer"]%string |}.
#[export] Existing Instance sample_roles.

(** An address has one '@' with text on both sides. *)
#[export] Instance at_sign_email : EmailPolicy := {
  email_valid e :=
    match String.index 0 "@" e with
    | Some i => (0 <? i) && (i + 1 <? String.length e) &&
                negb (bool_decide (String.index (i + 1) "@" e ≠ None))
    | None => false
    end
}.

(** Datetimes written as a decimal count of seconds. *)
Fixpoint digits_value (l : list ascii) (acc : Z) : option Z :=
  match l with
  | [] => Some acc
  | c :: l =>
      let n := nat_of_ascii c in
      if (48 <=? n) && (n <=? 57) then digits_value l (acc * 10 + Z.of_nat (n - 48))%Z
      else None
  end.

#[export] Instance epoch_datetime : DateTimeParser := {
  parse_datetime s :=
    match list_ascii_of_string s with [] => None | l => digits_value l 0 end
}.

(** Text fields: the value is the stripped string. *)
#[export] Program Instance text_profile_fields : ProfileFields := {
  profile_to_internal _ s := Ok (strip s)
}.
Next Obligation. intros n s v [= <-]. by rewrite strip_idempotent. Qed.

(** ** Lemmas on field validation *)

Lemma char_run_validation_absent o vs :
  required o = true →
  char_run_validation false o vs None = Err [Required].
Proof. intros H. simpl. rewrite H. reflexivity. Qed.

Lemma char_run_validation_value partial o vs s v :
  char_run_validation partial o vs (Some (JStr s)) = Ok (Some (Some v)) →
  (v = ""%string ∧ allow_blank o = true) ∨
  (v = (if trim_whitespace o then strip s else s) ∧ vs v = []).
Proof.
  simpl. destruct (_ || _).
  - destruct (allow_blank o); intros [=]; auto.
  - destruct (vs _) eqn:E; intros [=]; subst; auto.
Qed.

(** ** [Serializer.to_internal_value] *)

(** The errors of the fields, in declaration order. *)
Definition field_errors (fs : list (string * FieldResult)) : ValidationError :=
  omap (λ f : string * FieldResult,
          match f.2 with Err es => Some (f.1, es) | Ok _ => None end) fs.

(** The validated values of the fields that were not skipped. *)
Definition field_values (fs : list (string * FieldResult)) : gmap string (option string) :=
  list_to_map (omap (λ f : string * FieldResult,
                       match f.2 with Ok (Some v) => Some (f.1, v) | _ => None end) fs).

(** Every field is run (its [validate_<field>] too), the errors collected
    by field name; [ValidationError(errors)] if any, else the dict. *)
Definition to_internal_value (fs : list (string * FieldResult))
    : result Failure (gmap string (option string)) :=
  match field_errors fs with
  | [] => Ok (field_values fs)
  | errs => Err (Invalid errs)
  end.

(** A [validate_<field>] method, called on the field's validated value
    when the field was not skipped. *)
Definition then_validate (r : FieldResult)
    (m : string → result (list ErrorCode) string) : FieldResult :=
  match r with
  | Ok (Some (Some v)) => v' ← m v; Ok (Some (Some v'))
  | _ => r
  end.

(** [raise serializers.ValidationError({field: message})] inside a
    handler. *)
Definition raise_field {S A} (field : string) (c : ErrorCode) : st S Failure A :=
  throw (Invalid [(field, [c])]).

Lemma to_internal_value_Ok fs ret :
  to_internal_value fs = Ok ret →
  ret = field_values fs ∧ ∀ n r, (n, r) ∈ fs → ∃ v, r = Ok v.
Proof.
  unfold to_internal_value. destruct (field_errors fs) eqn:E; [|discriminate].
  intros [= <-]. split; [done|]. intros n r Hin.
  destruct r as [v|es]; [eauto|]. exfalso.
  assert ((n, es) ∈ field_errors fs) as Hin'.
  { apply list_elem_of_omap. exists (n, Err es). done. }
  rewrite E in Hin'. set_solver.
Qed.

Lemma to_internal_value_Err fs e :
  to_internal_value fs = Err e → e = Invalid (field_errors fs) ∧ field_errors fs ≠ [].
Proof.
  unfold to_internal_value. destruct (field_errors fs); [discriminate|].
  intros [= <-]. done.
Qed.

Lemma field_errors_elem fs n es :
  (n, Err es) ∈ fs → (n, es) ∈ field_errors fs.
Proof. intros Hin. apply list_elem_of_omap. by exists (n, Err es). Qed.

Lemma omap_fst_sublist (fs : list (string * FieldResult)) :
  (omap (λ f : string * FieldResult,
           match f.2 with Ok (Some v) => Some (f.1, v) | _ => None end) fs).*1
    `sublist_of` fs.*1.
Proof.
  induction fs as [|[n [[v|]|es]] fs IH]; simpl;
    [constructor | by apply sublist_skip, IH | by apply sublist_cons, IH | by apply sublist_cons, IH ].
Qed.

Lemma field_values_lookup fs n v :
  NoDup fs.*1 → (n, Ok (Some v)) ∈ fs → field_values fs !! n = Some v.
Proof.
  intros Hnd Hin. apply elem_of_list_to_map_1.
  - eapply sublist_NoDup; [done | apply omap_fst_sublist].
  - apply list_elem_of_omap. by exists (n, Ok (Some v)).
Qed.

Lemma field_values_lookup_None fs n :
  NoDup fs.*1 → (n, Ok None) ∈ fs → field_values fs !! n = None.
Proof.
  intros Hnd Hin. apply not_elem_of_list_to_map_1. intros Hn.
  apply list_elem_of_fmap in Hn as ([n' v] & Heq & Hin'). simpl in Heq. subst n'.
  apply list_elem_of_omap in Hin' as ([m [[w|]|es]] & Hm & Hw); simplify_eq/=.
  assert ((list_to_map fs : gmap string FieldResult) !! n = Some (Ok None))
    as H1 by (by apply elem_of_list_to_map_1).
  assert ((list_to_map fs : gmap string FieldResult) !! n = Some (Ok (Some v)))
    as H2 by (by apply elem_of_list_to_map_1).
  congruence.
Qed.

(** A required, non-nullable field that validated has a string value. *)
Lemma char_run_validation_required o vs d r :
  required o = true → allow_null o = false →
  char_run_validation false o vs d = Ok r → ∃ s, r = Some (Some s).
Proof.
  intros Hr Hn. destruct d as [[|s|]|]; simpl; rewrite ?Hr, ?Hn; try discriminate.
  destruct (_ || _); [destruct (allow_blank o)|destruct (vs _)]; intros [=]; eauto.
Qed.

Lemma choice_run_validation_required o cs d r :
  required o = true → allow_null o = false →
  choice_run_validation false o cs d = Ok r → ∃ s, r = Some (Some s).
Proof.
  intros Hr Hn. destruct d as [[|s|]|]; simpl; rewrite ?Hr, ?Hn; try discriminate.
  destruct (_ && _); [|case_bool_decide]; intros [=]; eauto.
Qed.

Lemma then_validate_Ok r m r' :
  then_validate r m = Ok r' →
  (∃ v v', r = Ok (Some (Some v)) ∧ m v = Ok v' ∧ r' = Some (Some v')) ∨
  (r = Ok r' ∧ ∀ v, r' ≠ Some (Some v)).
Proof.
  destruct r as [[[v|]|]|es]; simpl; try (intros [= <-]; right; split; congruence).
  destruct (m v) eqn:E; simpl; intros [= <-]; left; eauto.
Qed.

(** The dict built by [to_internal_value] holds, for each field, exactly
    the value that field validated to (absent when it was skipped). *)
Lemma to_internal_value_lookup fs ret n r :
  NoDup fs.*1 → to_internal_value fs = Ok ret → (n, r) ∈ fs → r = Ok (ret !! n).
Proof.
  intros Hnd Hok Hin.
  destruct (to_internal_value_Ok fs ret Hok) as [-> Hall].
  destruct (Hall n r Hin) as [[[v|]|] ->]; f_equal; symmetry.
  - by apply field_values_lookup.
  - (* a field whose JSON null was accepted *)
    apply field_values_lookup. done. done.
  - by apply field_values_lookup_None.
Qed.

Lemma strip_empty : strip "" = ""%string.
Proof. reflexivity. Qed.



(** With [trim_whitespace], a validated value is the stripped input, and
    it passed the validators unless it is a blank accepted as [''].  *)
Lemma char_run_validation_trim p o vs d v :
  trim_whitespace o = true →
  char_run_validation p o vs d = Ok (Some (Some v)) →
  ∃ s, d = Some (JStr s) ∧ v = strip s ∧ (vs v = [] ∨ (allow_blank o = true ∧ v = ""%string)).
Proof.
  intros Ht. destruct d as [[|s|]|]; simpl; rewrite ?Ht.
  - destruct (allow_null o); intros [=].
  - intros H. exists s. split; [done|]. revert H.
    destruct (String.eqb_spec s "") as [->|Hs]; simpl.
    + destruct (allow_blank o); intros [= <-]; auto.
    + destruct (String.eqb_spec (strip s) "") as [Hst|Hst].
      * destruct (allow_blank o); intros [= <-]; auto.
      * destruct (vs (strip s)) eqn:E; intros [= <-]; auto.
  - intros [=].
  - destruct p; [intros [=]|]. destruct (required o); intros [=].
Qed.

(** A validated choice comes from a string that is one of the choices. *)
Lemma choice_run_validation_value o cs d v :
  allow_blank o = false →
  choice_run_validation false o cs d = Ok (Some (Some v)) →
  d = Some (JStr v) ∧ v ∈ cs.
Proof.
  intros Hb. destruct d as [[|s|]|]; simpl; rewrite ?Hb.
  - destruct (allow_null o); intros [=].
  - rewrite andb_false_r. case_bool_decide; intros [= <-]; done.
  - intros [=].
  - destruct (required o); intros [=].
Qed.

(** The optional, nullable, blank-allowing field: skipped, null, or the
    stripped string. *)
Lemma optional_char_value o vs d r :
  required o = false → allow_null o = true → allow_blank o = true →
  trim_whitespace o = true →
  char_run_validation false o vs d = Ok r →
  (d = None ∧ r = None) ∨ (d = Some JNull ∧ r = Some None) ∨
  ∃ s, d = Some (JStr s) ∧ r = Some (Some (strip s)).
Proof.
  intros Hr Hn Hb Ht Hok.
  destruct d as [[|s|]|]; simpl in Hok; rewrite ?Hn, ?Hr, ?Hb, ?Ht in Hok; simpl in Hok.
  - injection Hok as <-. auto.
  - right; right. exists s. split; [done|]. revert Hok.
    destruct (String.eqb_spec s "") as [->|]; simpl; [intros [= <-]; done|].
    destruct (String.eqb_spec (strip s) "") as [Hst|]; simpl.
    + rewrite Hst. intros [= <-]. done.
    + destruct (vs _); intros [= <-]; done.
  - discriminate.
  - injection Hok as <-. auto.
Qed.

Lemma field_values_dom fs n v : field_values fs !! n = Some v → n ∈ fs.*1.
Proof.
  intros Hn%elem_of_list_to_map_2. apply list_elem_of_omap in Hn as ([m r] & Hin & Hm).
  destruct r as [[w|]|]; simplify_eq/=. apply list_elem_of_fmap. by exists (n, Ok (Some v)).
Qed.

(** A required, non-nullable, trimming field that validated. *)
Lemma required_trim_value o vs d r :
  required o = true → allow_null o = false → trim_whitespace o = true →
  char_run_validation false o vs d = Ok r →
  ∃ s, d = Some (JStr s) ∧ r = Some (Some (strip s)) ∧
       (vs (strip s) = [] ∨ (allow_blank o = true ∧ strip s = ""%string)).
Proof.
  intros Hr Hn Ht Hok.
  destruct (char_run_validation_required o vs d r Hr Hn Hok) as [v ->].
  apply char_run_validation_trim in Hok as (s & -> & -> & Hv); [|done].
  eauto.
Qed.

(** Fields that each validated to the value a dict holds for their name,
    and cover its keys, rebuild that dict. *)
Lemma field_values_self (l : list (string * FieldResult)) (pd : gmap string (option string)) :
  NoDup l.*1 → (∀ k r, (k, r) ∈ l → r = Ok (pd !! k)) →
  (∀ k v, pd !! k = Some v → k ∈ l.*1) → field_values l = pd.
Proof.
  intros Hnd Hl Hdom. apply map_eq. intros k.
  destruct (decide (k ∈ l.*1)) as [Hin|Hnin].
  - apply list_elem_of_fmap in Hin as ([k' r] & Hk & Hin). simpl in Hk. subst k'.
    pose proof (Hl _ _ Hin) as ->.
    destruct (pd !! k) eqn:E; [by apply field_values_lookup | by apply field_values_lookup_None].
  - destruct (field_values l !! k) as [v|] eqn:E.
    + by apply field_values_dom in E.
    + destruct (pd !! k) as [v|] eqn:E'; [|done]. by apply Hdom in E'.
Qed.

(** A field that fails makes [to_internal_value] raise, with the field's
    messages under its name. *)
Lemma to_internal_value_field_Err fs n es :
  (n, Err es) ∈ fs → ∃ errs, to_internal_value fs = Err (Invalid errs) ∧ (n, es) ∈ errs.
Proof.
  intros Hin%field_errors_elem. unfold to_internal_value.
  destruct (field_errors fs) as [|x l]; [set_solver | eauto].
Qed.

(** A required, non-null, non-blank trimming field accepts exactly the
    strings whose stripped form is not blank and passes the validators. *)
Lemma required_nonblank_value o vs d r :
  required o = true → allow_null o = false → allow_blank o = false →
  trim_whitespace o = true →
  char_run_validation false o vs d = Ok r →
  ∃ s, d = Some (JStr s) ∧ r = Some (Some (strip s)) ∧ strip s ≠ ""%string ∧ vs (strip s) = [].
Proof.
  intros Hr Hn Hb Ht Hok. pose proof Hok as Hok'.
  destruct (required_trim_value o vs d r Hr Hn Ht Hok) as (s & -> & -> & [Hv|[? _]]);
    [|congruence].
  exists s. repeat split; [|done]. intros Hs. revert Hok'. simpl.
  rewrite Ht, Hs, Hb, orb_true_r. discriminate.
Qed.

Lemma char_run_validation_accept p o vs s :
  trim_whitespace o = true → strip s ≠ ""%string → vs (strip s) = [] →
  char_run_validation p o vs (Some (JStr s)) = Ok (Some (Some (strip s))).
Proof.
  intros Ht Hs Hv. assert (s ≠ ""%string) by (intros ->; done). simpl.
  rewrite Ht, (proj2 (String.eqb_neq s "") H), (proj2 (String.eqb_neq (strip s) "") Hs), Hv.
  reflexivity.
Qed.

Lemma choice_run_validation_accept p o cs s :
  allow_blank o = false → s ∈ cs →
  choice_run_validation p o cs (Some (JStr s)) = Ok (Some (Some s)).
Proof. intros Hb Hs. simpl. rewrite Hb, andb_false_r. by rewrite bool_decide_eq_true_2. Qed.
