(* ===== verification/Models.v ===== *)
(** * The persisted entities and the ORM operations the serializers call

    [User], [Profile] and [InvitationCode] with the fields the serializers
    name, the database as three stdpp [gmap] tables keyed by primary key
    (the profile table by its one-to-one user), the ORM calls of
    [src/users/serializers.py] as functions on that record, the model
    method [InvitationCode.is_valid], and the well-formedness invariant
    [db_wf].  [users/models.py] is not under [src/]: these definitions are
    modelled from the spec (a profile is the one-to-one auxiliary record of
    a user; an invitation code is a single-use token gating registration
    into a pre-assigned role) and from the fields the serializers read. *)

From S2P Require Import Prelude Framework.

Module User.
Record t : Type := mk {
  id : nat;
  email : string;
  password : string;            (** the stored hash *)
  first_name : string;
  last_name : string;
  patronymic : string;
  role : string;
  is_active : bool;
  is_role_confirmed : bool;
  date_joined : Z
}.
End User.

Module Profile.
(** Field values as the serializer hands them over (an uploaded file's
    name, a phone number, a text, an ISO date); [None] is SQL NULL. *)
Record t : Type := mk {
  user : nat;
  avatar : option string;
  phone_number : option string;
  bio : option string;
  date_of_birth : option string
}.
End Profile.

Module InvitationCode.
Record t : Type := mk {
  id : nat;
  code : string;
  role : string;
  created_by : nat;
  used_by : option nat;
  created_at : Z;
  expires_at : option Z
}.

(** [InvitationCode.is_valid()]: not used yet and not expired. *)
Definition is_valid (now : Z) (i : t) : bool :=
  match used_by i, expires_at i with
  | None, None => true
  | None, Some e => Z.ltb now e
  | Some _, _ => false
  end.

Definition set_used_by (u : nat) (i : t) : t :=
  mk (id i) (code i) (role i) (created_by i) (Some u) (created_at i) (expires_at i).
End InvitationCode.

#[export] Instance User_eq_dec : EqDecision User.t.
Proof. solve_decision. Defined.
#[export] Instance Profile_eq_dec : EqDecision Profile.t.
Proof. solve_decision. Defined.
#[export] Instance InvitationCode_eq_dec : EqDecision InvitationCode.t.
Proof. solve_decision. Defined.

(** The database: the three tables, the auto-increment counters, and the
    number of [uuid4] values drawn so far. *)
Record Db : Type := mkDb {
  users : gmap nat User.t;
  profiles : gmap nat Profile.t;
  invitations : gmap nat InvitationCode.t;
  next_user_id : nat;
  next_invite_id : nat;
  uuid_seq : nat
}.

Definition set_users (us : gmap nat User.t) (db : Db) : Db :=
  mkDb us (profiles db) (invitations db) (next_user_id db) (next_invite_id db) (uuid_seq db).
Definition set_profiles (ps : gmap nat Profile.t) (db : Db) : Db :=
  mkDb (users db) ps (invitations db) (next_user_id db) (next_invite_id db) (uuid_seq db).
Definition set_invitations (invs : gmap nat InvitationCode.t) (db : Db) : Db :=
  mkDb (users db) (profiles db) invs (next_user_id db) (next_invite_id db) (uuid_seq db).

(** ** ORM operations *)

(** [User.objects.filter(email=value).exists()] *)
Definition email_exists (db : Db) (e : string) : bool :=
  bool_decide (map_Exists (λ _ u, User.email u = e) (users db)).

(** [User.objects.create_user(...)]: a fresh primary key, the password
    stored as [make_password(raw)], [date_joined] the current time. *)
Definition create_user `{PasswordHasher} (db : Db) (now : Z)
    (email first last patr role : string) (raw : string) (active confirmed : bool)
    : Db * User.t :=
  let u := User.mk (next_user_id db) email (make_password raw) first last patr role
             active confirmed now in
  (mkDb (<[User.id u := u]> (users db)) (profiles db) (invitations db)
        (S (next_user_id db)) (next_invite_id db) (uuid_seq db), u).

(** [instance.save()] on a user: the row is overwritten with the object. *)
Definition user_save (db : Db) (u : User.t) : Db :=
  set_users (<[User.id u := u]> (users db)) db.

(** What [InvitationCode.objects.get] raises besides returning a row. *)
Inductive GetError : Type := DoesNotExist | MultipleObjectsReturned.

(** [InvitationCode.objects.get(code=c)]. *)
Definition invitation_get (db : Db) (c : string) : result GetError InvitationCode.t :=
  match map_to_list (filter (λ kv, InvitationCode.code kv.2 = c) (invitations db)) with
  | [] => Err DoesNotExist
  | [(_, i)] => Ok i
  | _ => Err MultipleObjectsReturned
  end.

(** [invitation.save()]: the in-memory object overwrites its row. *)
Definition invitation_save (db : Db) (i : InvitationCode.t) : Db :=
  set_invitations (<[InvitationCode.id i := i]> (invitations db)) db.

(** [InvitationCode.objects.create] on the validated data, with a fresh
    primary key, [used_by] NULL and [created_at] now. *)
Definition invitation_create (db : Db) (now : Z) (code role : string)
    (creator : nat) (expires : option Z) : Db * InvitationCode.t :=
  let i := InvitationCode.mk (next_invite_id db) code role creator None now expires in
  (mkDb (users db) (profiles db) (<[InvitationCode.id i := i]> (invitations db))
        (next_user_id db) (S (next_invite_id db)) (uuid_seq db), i).

(** [uuid.uuid4()]: the next value of the source. *)
Definition draw_uuid `{UuidSource} (db : Db) : Db * string :=
  (mkDb (users db) (profiles db) (invitations db) (next_user_id db)
        (next_invite_id db) (S (uuid_seq db)), uuid4 (uuid_seq db)).

(** [Profile.objects.get_or_create(user=instance)]: the row, and whether
    it was created (with every field NULL). *)
Definition profile_get_or_create (db : Db) (uid : nat) : Db * Profile.t * bool :=
  match profiles db !! uid with
  | Some p => (db, p, false)
  | None =>
      let p := Profile.mk uid None None None None in
      (set_profiles (<[uid := p]> (profiles db)) db, p, true)
  end.

(** [profile_instance.save()] *)
Definition profile_save (db : Db) (p : Profile.t) : Db :=
  set_profiles (<[Profile.user p := p]> (profiles db)) db.

(** ** The well-formedness invariant *)

Section Wf.
Context `{UuidSource}.

Record db_wf (db : Db) : Prop := {
  wf_user_keys : ∀ k u, users db !! k = Some u → User.id u = k ∧ k < next_user_id db;
  wf_email_unique : ∀ k1 k2 u1 u2, users db !! k1 = Some u1 → users db !! k2 = Some u2 →
    User.email u1 = User.email u2 → k1 = k2;
  wf_profile_keys : ∀ k p, profiles db !! k = Some p →
    Profile.user p = k ∧ is_Some (users db !! k);
  wf_invite_keys : ∀ k i, invitations db !! k = Some i →
    InvitationCode.id i = k ∧ k < next_invite_id db;
  wf_code_unique : ∀ k1 k2 i1 i2, invitations db !! k1 = Some i1 →
    invitations db !! k2 = Some i2 →
    InvitationCode.code i1 = InvitationCode.code i2 → k1 = k2;
  wf_code_drawn : ∀ k i, invitations db !! k = Some i →
    ∃ n, n < uuid_seq db ∧ InvitationCode.code i = uuid4 n;
  wf_invite_refs : ∀ k i, invitations db !! k = Some i →
    is_Some (users db !! InvitationCode.created_by i) ∧
    ∀ u, InvitationCode.used_by i = Some u → is_Some (users db !! u)
}.
End Wf.

(** The empty database. *)
Definition empty_db : Db := mkDb ∅ ∅ ∅ 0 0 0.

(** ** Lemmas on the ORM operations *)

Lemma wf_empty_db `{UuidSource} : db_wf empty_db.
Proof. split; simpl; intros *; rewrite ?lookup_empty; done. Qed.

Lemma email_exists_false db e :
  email_exists db e = false ↔ ∀ k u, users db !! k = Some u → User.email u ≠ e.
Proof.
  unfold email_exists. rewrite bool_decide_eq_false, map_Exists_lookup. naive_solver.
Qed.

Lemma email_exists_true db e :
  email_exists db e = true ↔ ∃ k u, users db !! k = Some u ∧ User.email u = e.
Proof. unfold email_exists. by rewrite bool_decide_eq_true. Qed.

Lemma invitation_get_Ok db c i :
  invitation_get db c = Ok i →
  ∃ k, invitations db !! k = Some i ∧ InvitationCode.code i = c.
Proof.
  unfold invitation_get.
  destruct (map_to_list _) as [|[k i'] [|? ?]] eqn:E; intros Hg; try discriminate.
  injection Hg as <-. exists k.
  assert ((k, i') ∈ map_to_list (filter (λ kv, InvitationCode.code kv.2 = c)
                                       (invitations db))) as Hin
    by (rewrite E; left).
  by apply elem_of_map_to_list, map_lookup_filter_Some in Hin.
Qed.

Lemma invitation_get_DoesNotExist db c :
  invitation_get db c = Err DoesNotExist ↔
  ∀ k i, invitations db !! k = Some i → InvitationCode.code i ≠ c.
Proof.
  unfold invitation_get. split.
  - destruct (map_to_list _) as [|[k i'] [|? ?]] eqn:E; intros Hg; try discriminate.
    apply map_to_list_empty_iff in E. intros k i Hk Hc.
    assert (filter (λ kv, InvitationCode.code kv.2 = c) (invitations db) !! k = Some i)
      as Hf by (by apply map_lookup_filter_Some).
    by rewrite E, lookup_empty in Hf.
  - intros Hno.
    assert (filter (λ kv, InvitationCode.code kv.2 = c) (invitations db) = ∅) as ->.
    { apply map_empty. intros k. apply map_lookup_filter_None.
      destruct (invitations db !! k) eqn:Hk; [right | by left].
      intros i [= <-]. by apply (Hno k). }
    by rewrite map_to_list_empty.
Qed.

Section WfLemmas.
Context `{UuidSource}.

(** Codes are unique, so [objects.get(code=...)] finds the one row. *)
Lemma invitation_get_unique db k i :
  db_wf db → invitations db !! k = Some i →
  invitation_get db (InvitationCode.code i) = Ok i.
Proof.
  intros Hwf Hk. unfold invitation_get.
  assert (filter (λ kv, InvitationCode.code kv.2 = InvitationCode.code i)
            (invitations db) = {[k := i]}) as ->.
  { apply map_eq. intros j. destruct (decide (j = k)) as [->|Hne].
    - rewrite lookup_singleton_eq. by apply map_lookup_filter_Some.
    - rewrite lookup_singleton_ne by done. apply map_lookup_filter_None.
      destruct (invitations db !! j) eqn:Hj; [right | by left].
      intros i' [= <-] Hc. apply Hne. by eapply (wf_code_unique db Hwf). }
  by rewrite map_to_list_singleton.
Qed.

Lemma invitation_get_not_multiple db c :
  db_wf db → invitation_get db c ≠ Err MultipleObjectsReturned.
Proof.
  intros Hwf Hg.
  assert (∃ k i, invitations db !! k = Some i ∧ InvitationCode.code i = c)
    as (k & i & Hk & <-).
  { unfold invitation_get in Hg.
    destruct (map_to_list _) as [|[k i] l] eqn:E; [discriminate|].
    assert ((k, i) ∈ map_to_list (filter (λ kv, InvitationCode.code kv.2 = c)
                                        (invitations db))) as Hin
      by (rewrite E; left).
    apply elem_of_map_to_list, map_lookup_filter_Some in Hin. eauto. }
  by rewrite (invitation_get_unique db k i Hwf Hk) in Hg.
Qed.
End WfLemmas.

(** Split a lookup in an updated table into the new row and the old ones. *)
Ltac lookup_insert_cases :=
  repeat match goal with
  | H : <[_ := _]> _ !! _ = Some _ |- _ =>
      apply lookup_insert_Some in H as [[? ?]|[? H]]; simplify_eq
  end.

Section WfPreservation.
Context `{UuidSource} `{PasswordHasher}.

Lemma wf_create_user db now e f l p r raw a c :
  db_wf db → email_exists db e = false →
  db_wf (create_user db now e f l p r raw a c).1.
Proof.
  intros [Hu Hem Hp Hik Hcu Hcd Hir] Hfresh. rewrite email_exists_false in Hfresh.
  split; simpl; intros *; try rewrite lookup_insert_is_Some'; eauto.
  - intros Hk. lookup_insert_cases; [simpl; lia|]. apply Hu in Hk. lia.
  - intros H1 H2 He. lookup_insert_cases; eauto; try by exfalso; eapply Hfresh; eauto.
  - intros Hk. destruct (Hp _ _ Hk). auto.
  - intros Hk. destruct (Hir _ _ Hk) as [Hc Hused].
    split; [by right|].
    intros u' Hu'. rewrite lookup_insert_is_Some'. eauto.
Qed.

(** Saving an invitation object whose immutable fields agree with its
    row (it may be a stale copy with another [used_by]). *)
Lemma wf_invitation_save db j i :
  db_wf db → invitations db !! InvitationCode.id j = Some i →
  InvitationCode.code j = InvitationCode.code i →
  is_Some (users db !! InvitationCode.created_by j) →
  (∀ u, InvitationCode.used_by j = Some u → is_Some (users db !! u)) →
  db_wf (invitation_save db j).
Proof.
  intros [Hu Hem Hp Hik Hcu Hcd Hir] Hi Hcode Hcr Hused.
  pose proof (Hik _ _ Hi) as [_ Hlt].
  split; simpl; intros *; eauto.
  - intros Hk. lookup_insert_cases; eauto.
  - intros H1 H2 Hc. lookup_insert_cases; eauto;
      eapply Hcu; eauto; congruence.
  - intros Hk. lookup_insert_cases; eauto. rewrite Hcode. eauto.
  - intros Hk. lookup_insert_cases; eauto.
Qed.

Lemma wf_user_save db u u0 :
  db_wf db → users db !! User.id u = Some u0 → User.email u = User.email u0 →
  db_wf (user_save db u).
Proof.
  intros [Hu Hem Hp Hik Hcu Hcd Hir] Hk0 He.
  assert (∀ k, is_Some (users db !! k) → is_Some (<[User.id u := u]> (users db) !! k))
    as Hsome by (intros k; rewrite lookup_insert_is_Some'; auto).
  split; simpl; intros *; eauto.
  - intros Hk. lookup_insert_cases; eauto. split; [done|].
    by destruct (Hu _ _ Hk0).
  - intros H1 H2 Hc. lookup_insert_cases; eauto;
      eapply Hem; eauto; congruence.
  - intros Hk. destruct (Hp _ _ Hk). auto.
  - intros Hk. destruct (Hir _ _ Hk) as [? Hused]. auto.
Qed.

Lemma wf_profile_save db p :
  db_wf db → is_Some (users db !! Profile.user p) → db_wf (profile_save db p).
Proof.
  intros [Hu Hem Hp Hik Hcu Hcd Hir] Hs.
  split; simpl; intros *; eauto.
  intros Hk. lookup_insert_cases; eauto.
Qed.

Lemma wf_profile_get_or_create db uid :
  db_wf db → is_Some (users db !! uid) →
  db_wf (profile_get_or_create db uid).1.1 ∧
  Profile.user (profile_get_or_create db uid).1.2 = uid.
Proof.
  intros Hwf Hs. unfold profile_get_or_create.
  destruct (profiles db !! uid) as [p|] eqn:Hp; simpl.
  - split; [done|]. by destruct (wf_profile_keys db Hwf _ _ Hp).
  - split; [|done]. by apply (wf_profile_save db (Profile.mk uid None None None None)).
Qed.

Lemma wf_draw_uuid db :
  db_wf db → db_wf (draw_uuid db).1 ∧
  ∀ k i, invitations db !! k = Some i → InvitationCode.code i ≠ (draw_uuid db).2.
Proof.
  intros [Hu Hem Hp Hik Hcu Hcd Hir]. split.
  - split; simpl; eauto.
    intros k i Hk. destruct (Hcd _ _ Hk) as (n & ? & ?). exists n. split; [lia|done].
  - intros k i Hk Hc. destruct (Hcd _ _ Hk) as (n & Hn & Hcn). simpl in Hc.
    rewrite Hcn in Hc. apply (inj uuid4) in Hc. lia.
Qed.

Lemma wf_invitation_create db now c r creator exp :
  db_wf db → is_Some (users db !! creator) →
  (∀ k i, invitations db !! k = Some i → InvitationCode.code i ≠ c) →
  (∃ n, n < uuid_seq db ∧ c = uuid4 n) →
  db_wf (invitation_create db now c r creator exp).1.
Proof.
  intros [Hu Hem Hp Hik Hcu Hcd Hir] Hcr Hfresh Hdrawn.
  split; simpl; intros *; eauto.
  - intros Hk. lookup_insert_cases; [simpl; lia|]. apply Hik in Hk. lia.
  - intros H1 H2 Hc. lookup_insert_cases; eauto;
      by exfalso; eapply Hfresh; eauto.
  - intros Hk. lookup_insert_cases; eauto.
  - intros Hk. lookup_insert_cases; [split; [done|discriminate] | eauto].
Qed.
End WfPreservation.

(** ** A database for concrete runs

    An administrator (id 0) who issued one invitation, for the role
    "engineer", valid until time 100; its invariant follows from the
    preservation lemmas. *)
Definition demo_admin_db `{PasswordHasher} : Db :=
  (create_user empty_db 1 "admin@example.org" "Ann" "Lee" "" "admin" "secret123" true true).1.

Definition demo_db `{PasswordHasher} `{UuidSource} : Db :=
  let '(db, c) := draw_uuid demo_admin_db in
  (invitation_create db 2 c "engineer" 0 (Some 100%Z)).1.

Definition demo_invitation `{UuidSource} : InvitationCode.t :=
  InvitationCode.mk 0 (uuid4 0) "engineer" 0 None 2 (Some 100%Z).

Lemma demo_db_wf `{PasswordHasher} `{UuidSource} : db_wf demo_db.
Proof.
  assert (db_wf demo_admin_db) as Hadm.
  { apply wf_create_user; [apply wf_empty_db | reflexivity]. }
  destruct (wf_draw_uuid demo_admin_db Hadm) as [Hd Hfresh].
  unfold demo_db. destruct (draw_uuid demo_admin_db) as [db c] eqn:E.
  simpl in Hd, Hfresh.
  apply wf_invitation_create; [done | | | ].
  - injection E as <- _. simpl. rewrite lookup_insert_is_Some'. by left.
  - injection E as <- <-. intros k i Hk. simpl in Hk. by rewrite lookup_empty in Hk.
  - injection E as <- <-. exists 0. simpl. split; [lia | done].
Qed.
