(* ===== verification/Registration.v ===== *)
(** * [UserRegistrationSerializer] (src/users/serializers.py, lines 66-141)

    The serializer's declared fields with the options DRF derives for them,
    [validate_email], [validate_role], [validate], [create], and their
    composition [register] ([serializer.is_valid(raise_exception=True)]
    then [serializer.save()]).  The validated data is a Python dict: a
    [gmap] from keys to [attr], which holds a field's value or, under
    ["invitation_instance"], the [InvitationCode] object that [validate]
    hands to [create]. *)

From S2P Require Import Prelude Framework Models.

Module UserRegistrationSerializer.

(** A value of the validated-data dict. *)
Inductive attr : Type :=
| AStr (v : option string)
| AInvitation (i : InvitationCode.t).

#[export] Instance attr_eq_dec : EqDecision attr.
Proof. solve_decision. Defined.

Abbreviation Attrs := (gmap string attr).

(** The request body: one entry per key of [Meta.fields], [None] when the
    key is absent. *)
Record Payload : Type := mkPayload {
  p_email : option jvalue;
  p_password : option jvalue;
  p_password2 : option jvalue;
  p_first_name : option jvalue;
  p_last_name : option jvalue;
  p_patronymic : option jvalue;
  p_role : option jvalue;
  p_invite_code : option jvalue
}.

(** ** The fields

    [email] is the model's [EmailField] (required); [password] and
    [password2] are declared [CharField(required=True)]; [first_name],
    [last_name] and [role] are required through [extra_kwargs];
    [patronymic] is optional ([create] reads it with [.get(.., '')]);
    [role] is the model's choice field over [User.Role]; [invite_code] is
    declared [CharField(required=False, allow_blank=True,
    allow_null=True)].  Every [CharField] trims whitespace (DRF's default
    [trim_whitespace=True]). *)

Definition email_opts : CharOpts :=
  {| required := true; allow_null := false; allow_blank := false; trim_whitespace := true |}.
Definition password_opts : CharOpts :=
  {| required := true; allow_null := false; allow_blank := false; trim_whitespace := true |}.
Definition name_opts : CharOpts :=
  {| required := true; allow_null := false; allow_blank := true; trim_whitespace := true |}.
Definition patronymic_opts : CharOpts :=
  {| required := false; allow_null := false; allow_blank := true; trim_whitespace := true |}.
Definition role_opts : CharOpts :=
  {| required := true; allow_null := false; allow_blank := false; trim_whitespace := false |}.
Definition invite_code_opts : CharOpts :=
  {| required := false; allow_null := true; allow_blank := true; trim_whitespace := true |}.

Section Serializer.
Context `{PasswordHasher} `{PasswordPolicy} `{RoleChoices} `{EmailPolicy}.

(** [validate_email]: the address must not be taken. *)
Definition validate_email (db : Db) (value : string) : result (list ErrorCode) string :=
  if email_exists db value then Err [EmailTaken] else Ok value.

(** [validate_role]: the role must be one of [User.Role.values]. *)
Definition validate_role (value : string) : result (list ErrorCode) string :=
  if bool_decide (value ∈ role_values) then Ok value else Err [RoleNotAllowed].

(** The fields in declaration order, each run on its key of the body,
    followed by its [validate_<field>] method. *)
Definition fields (db : Db) (d : Payload) : list (string * FieldResult) :=
  [("email", then_validate
               (char_run_validation false email_opts email_validators (p_email d))
               (validate_email db));
   ("password", char_run_validation false password_opts password_validators (p_password d));
   ("password2", char_run_validation false password_opts (λ _, []) (p_password2 d));
   ("first_name", char_run_validation false name_opts (λ _, []) (p_first_name d));
   ("last_name", char_run_validation false name_opts (λ _, []) (p_last_name d));
   ("patronymic", char_run_validation false patronymic_opts (λ _, []) (p_patronymic d));
   ("role", then_validate (choice_run_validation false role_opts role_values (p_role d))
                          validate_role);
   ("invite_code", char_run_validation false invite_code_opts (λ _, []) (p_invite_code d))]%string.

(** [attrs[key]]: a [KeyError] when the key is absent. *)
Definition getitem (a : Attrs) (k : string) : result Failure attr :=
  match a !! k with
  | Some v => Ok v
  | None => Err (ServerError ("KeyError: " +:+ k))
  end.

(** [attrs.pop(key)] without a default. *)
Definition pop (a : Attrs) (k : string) : result Failure (attr * Attrs) :=
  v ← getitem a k; Ok (v, delete k a).

(** The string an [attr] holds, as [create_user] receives it. *)
Definition as_str (v : attr) : result Failure string :=
  match v with
  | AStr (Some s) => Ok s
  | _ => Err (ServerError "not a string")
  end.

Definition getstr (a : Attrs) (k : string) : result Failure string :=
  v ← getitem a k; as_str v.

(** [attrs.get(key)] seen as an optional string. *)
Definition get_str (a : Attrs) (k : string) : option string :=
  match a !! k with
  | Some (AStr v) => v
  | _ => None
  end.

(** Python's [bool(x)] on [validated_data.pop('invitation_instance', None)]:
    a model instance is true. *)
Definition attr_bool (v : option attr) : bool :=
  match v with
  | Some (AInvitation _) => true
  | Some (AStr s) => truthy s
  | None => false
  end.

(** The [try] block of [validate] (lines 100-109). *)
Definition check_invitation (now : Z) (attrs : Attrs) (invite_code_str : string)
    : st Db Failure Attrs :=
  db ← get_state;
  match invitation_get db invite_code_str with
  | Ok invitation =>
      if negb (InvitationCode.is_valid now invitation) then
        raise_field "invite_code" InviteUnusable
      else if bool_decide (Some (AStr (Some (InvitationCode.role invitation)))
                           ≠ attrs !! "role"%string) then
        raise_field "role"
          (InviteRoleMismatch (Some (InvitationCode.role invitation)) (get_str attrs "role"))
      else mret (<["invitation_instance" := AInvitation invitation]> attrs)
  | Err DoesNotExist => raise_field "invite_code" InviteNotFound
  | Err MultipleObjectsReturned => throw (ServerError "MultipleObjectsReturned")
  end%string.

(** [validate(attrs)] (lines 93-113). *)
Definition validate (now : Z) (attrs : Attrs) : st Db Failure Attrs :=
  pw ← lift (getitem attrs "password");
  pw2 ← lift (getitem attrs "password2");
  if bool_decide (pw ≠ pw2) then raise_field "password2" PasswordsDiffer else
  let invite_code_str := get_str attrs "invite_code" in
  attrs ← (if truthy invite_code_str
           then check_invitation now attrs (default "" invite_code_str)
           else mret attrs);
  '(_, attrs) ← lift (pop attrs "password2");
  mret (delete "invite_code" attrs).

(** [create(validated_data)] (lines 115-141). *)
Definition create (now : Z) (validated_data : Attrs) : st Db Failure User.t :=
  let invitation := validated_data !! "invitation_instance" in
  let validated_data := delete "invitation_instance" validated_data in
  email ← lift (getstr validated_data "email");
  password ← lift (getstr validated_data "password");
  first_name ← lift (getstr validated_data "first_name");
  last_name ← lift (getstr validated_data "last_name");
  patronymic ← lift (match validated_data !! "patronymic" with
                     | Some v => as_str v
                     | None => Ok ""
                     end);
  role ← lift (getstr validated_data "role");
  user ← update (λ db, create_user db now email first_name last_name patronymic role
                         password (attr_bool invitation) (attr_bool invitation));
  _ ← (if attr_bool invitation then
         match invitation with
         | Some (AInvitation inv) =>
             update (λ db, (invitation_save db (InvitationCode.set_used_by (User.id user) inv), ()))
         | _ => throw (ServerError "AttributeError")
         end
       else mret ());
  mret user.

(** [serializer.is_valid(raise_exception=True); serializer.save()]:
    the fields, then [validate], then [create]. *)
Definition register (now : Z) (d : Payload) : st Db Failure User.t :=
  db ← get_state;
  attrs ← lift (to_internal_value (fields db d));
  validated_data ← validate now (AStr <$> attrs);
  create now validated_data.
End Serializer.



(** Python's [attrs.get(key)] on the fields' dict, as an optional string. *)
Definition field_str (ret : gmap string (option string)) (k : string) : option string :=
  mjoin (ret !! k).

Section FieldFacts.
Context `{PasswordHasher} `{PasswordPolicy} `{RoleChoices} `{EmailPolicy}.
Local Open Scope string_scope.

Lemma registration_fields_NoDup db d : NoDup (fields db d).*1.
Proof. apply (bool_decide_unpack _). by vm_compute. Qed.

Lemma fields_field db d ret n r :
  to_internal_value (fields db d) = Ok ret → (n, r) ∈ fields db d → r = Ok (ret !! n).
Proof. intros. eapply to_internal_value_lookup; eauto using registration_fields_NoDup. Qed.

(** What the dict holds after the fields validated. *)
Record fields_facts (db : Db) (d : Payload) (ret : gmap string (option string)) : Prop := {
  ff_email : ∃ e, sent (p_email d) = Some e ∧ ret !! "email" = Some (Some e) ∧
                  email_valid e = true ∧ email_exists db e = false;
  ff_password : ∃ p, sent (p_password d) = Some p ∧ ret !! "password" = Some (Some p) ∧
                     validate_password p = [];
  ff_password2 : ∃ p, sent (p_password2 d) = Some p ∧ ret !! "password2" = Some (Some p);
  ff_first_name : ∃ f, sent (p_first_name d) = Some f ∧ ret !! "first_name" = Some (Some f);
  ff_last_name : ∃ l, sent (p_last_name d) = Some l ∧ ret !! "last_name" = Some (Some l);
  ff_patronymic : (p_patronymic d = None ∧ ret !! "patronymic" = None) ∨
                  ∃ p, sent (p_patronymic d) = Some p ∧ ret !! "patronymic" = Some (Some p);
  ff_role : ∃ r, p_role d = Some (JStr r) ∧ ret !! "role" = Some (Some r) ∧ r ∈ role_values;
  ff_invite_code : field_str ret "invite_code" = sent (p_invite_code d);
  ff_no_instance : ret !! "invitation_instance" = None
}.

Local Ltac in_fields := unfold fields; solve [repeat econstructor].

Lemma fields_Ok_facts db d ret :
  to_internal_value (fields db d) = Ok ret → fields_facts db d ret.
Proof.
  intros Hok.
  pose proof (λ n r Hin, fields_field db d ret n r Hok Hin) as F.
  split.
  - assert (Hr := F "email"%string _ ltac:(in_fields)).
    apply then_validate_Ok in Hr as [(v & v' & Hv & Hm & Hret) | [Hv Hno]].
    + unfold validate_email in Hm. destruct (email_exists db v) eqn:Ex; [discriminate|].
      injection Hm as <-.
      apply char_run_validation_trim in Hv as (s & Hs & -> & [Hval | [[=] _]]); [|done].
      unfold email_validators in Hval. destruct (email_valid _) eqn:Ev; [|discriminate].
      exists (strip s). by rewrite Hs.
    + apply char_run_validation_required in Hv as [v Hv]; [|done..].
      by destruct (Hno v).
  - assert (Hr := F "password"%string _ ltac:(in_fields)).
    apply required_trim_value in Hr as (s & Hs & Hv & [Hval | [[=] _]]); [|done..].
    exists (strip s). rewrite Hs. split_and!; [done..|].
    by apply fmap_nil_inv in Hval.
  - assert (Hr := F "password2"%string _ ltac:(in_fields)).
    apply required_trim_value in Hr as (s & Hs & Hv & _); [|done..].
    exists (strip s). by rewrite Hs.
  - assert (Hr := F "first_name"%string _ ltac:(in_fields)).
    apply required_trim_value in Hr as (s & Hs & Hv & _); [|done..].
    exists (strip s). by rewrite Hs.
  - assert (Hr := F "last_name"%string _ ltac:(in_fields)).
    apply required_trim_value in Hr as (s & Hs & Hv & _); [|done..].
    exists (strip s). by rewrite Hs.
  - assert (Hr := F "patronymic"%string _ ltac:(in_fields)).
    destruct (ret !! "patronymic"%string) as [[v|]|] eqn:Hp.
    + apply char_run_validation_trim in Hr as (s & Hs & -> & _); [|done].
      right. exists (strip s). by rewrite Hs.
    + destruct (p_patronymic d) as [[|s|]|]; simpl in Hr; try discriminate.
      revert Hr. destruct (_ || _); [intros [=]|]. intros [=].
    + left. split; [|done].
      destruct (p_patronymic d) as [[|s|]|]; simpl in Hr; try discriminate; [|done].
      revert Hr. destruct (_ || _); [intros [=]|]. intros [=].
  - assert (Hr := F "role"%string _ ltac:(in_fields)).
    apply then_validate_Ok in Hr as [(v & v' & Hv & Hm & Hret) | [Hv Hno]].
    + apply choice_run_validation_value in Hv as [Hd Hin]; [|done].
      unfold validate_role in Hm. rewrite bool_decide_eq_true_2 in Hm by done.
      injection Hm as <-. eauto.
    + apply choice_run_validation_required in Hv as [v Hv]; [|done..].
      by destruct (Hno v).
  - assert (Hr := F "invite_code"%string _ ltac:(in_fields)).
    unfold field_str.
    apply optional_char_value in Hr as [[-> ->]|[[-> ->]|(s & -> & ->)]]; done.
  - destruct (ret !! "invitation_instance"%string) eqn:Hi; [|done].
    apply to_internal_value_Ok in Hok as [-> _].
    apply field_values_dom in Hi. revert Hi.
    apply (bool_decide_unpack _). by vm_compute.
Qed.
End FieldFacts.

Section ValidateFacts.
Context `{PasswordHasher} `{PasswordPolicy} `{RoleChoices} `{EmailPolicy}.
Local Open Scope string_scope.

Lemma check_invitation_read_only now attrs c : read_only (check_invitation now attrs c).
Proof. unfold check_invitation, raise_field. solve_read_only. Qed.

Lemma validate_read_only now attrs : read_only (validate now attrs).
Proof.
  unfold validate, raise_field. solve_read_only; auto using check_invitation_read_only.
Qed.

(** The successful runs of [validate]: the passwords agreed, and either
    no code was sent, or the code named a usable invitation of the
    requested role, which is now in the dict. *)
Lemma validate_Ok now attrs db db' vd :
  validate now attrs db = (db', Ok vd) →
  db' = db ∧ (∃ pw, attrs !! "password" = Some pw ∧ attrs !! "password2" = Some pw) ∧
  ((truthy (get_str attrs "invite_code") = false ∧
    vd = delete "invite_code" (delete "password2" attrs)) ∨
   (∃ i, truthy (get_str attrs "invite_code") = true ∧
      invitation_get db (default "" (get_str attrs "invite_code")) = Ok i ∧
      InvitationCode.is_valid now i = true ∧
      attrs !! "role" = Some (AStr (Some (InvitationCode.role i))) ∧
      vd = delete "invite_code" (delete "password2"
             (<["invitation_instance" := AInvitation i]> attrs)))).
Proof.
  intros Hrun. pose proof (read_only_run _ _ _ _ (validate_read_only now attrs) Hrun) as ->.
  split; [done|].
  unfold validate, getitem, lift, mbind, st_bind in Hrun.
  destruct (attrs !! "password") as [pw|] eqn:Hpw; [|discriminate].
  destruct (attrs !! "password2") as [pw2|] eqn:Hpw2; [|discriminate].
  case_bool_decide as Hne; [discriminate|]. subst pw2.
  split; [eauto|].
  destruct (truthy (get_str attrs "invite_code")) eqn:Ht.
  - right. unfold check_invitation, get_state, mbind, st_bind in Hrun. simpl in Hrun.
    destruct (invitation_get db _) as [i|[]] eqn:Hg; try discriminate.
    destruct (InvitationCode.is_valid now i) eqn:Hv; [|discriminate].
    case_bool_decide as Hr; [discriminate|].
    unfold pop, getitem in Hrun. simpl in Hrun.
    rewrite lookup_insert_ne in Hrun by discriminate.
    rewrite Hpw2 in Hrun. injection Hrun as <-. eauto 10.
  - left. simpl in Hrun. unfold pop, getitem in Hrun. simpl in Hrun.
    rewrite Hpw2 in Hrun. injection Hrun as <-. done.
Qed.
End ValidateFacts.

(** Rewrite lookups in the validated-data dict by key. *)
Ltac attrs_lookup :=
  repeat first
    [ rewrite lookup_delete_eq
    | rewrite lookup_insert_eq
    | rewrite lookup_delete_ne; [|discriminate]
    | rewrite lookup_insert_ne; [|discriminate]
    | rewrite lookup_fmap ].

Section CreateFacts.
Context `{PasswordHasher} `{PasswordPolicy} `{RoleChoices} `{EmailPolicy}.
Local Open Scope string_scope.

(** The dict [validate] hands to [create]: the fields' values, the
    invitation object when a code was checked, without [password2] and
    [invite_code]. *)
Definition validated (ret : gmap string (option string)) (inv : option InvitationCode.t) : Attrs :=
  delete "invite_code" (delete "password2"
    (match inv with
     | Some i => <["invitation_instance" := AInvitation i]> (AStr <$> ret)
     | None => AStr <$> ret
     end)).

(** [create] on such a dict creates the user, active and confirmed
    exactly when an invitation came along, and marks the invitation as
    used by the new user. *)
Lemma create_run now ret inv db e p f l pa r :
  ret !! "email" = Some (Some e) → ret !! "password" = Some (Some p) →
  ret !! "first_name" = Some (Some f) → ret !! "last_name" = Some (Some l) →
  (ret !! "patronymic" = None ∧ pa = "" ∨ ret !! "patronymic" = Some (Some pa)) →
  ret !! "role" = Some (Some r) → ret !! "invitation_instance" = None →
  create now (validated ret inv) db =
    (let '(db1, u) := create_user db now e f l pa r p (bool_decide (is_Some inv)) (bool_decide (is_Some inv)) in
     (match inv with
      | Some i => invitation_save db1 (InvitationCode.set_used_by (User.id u) i)
      | None => db1
      end, Ok u)).
Proof.
  intros He Hp Hf Hl Hpa Hr Hi.
  unfold create, validated, getstr, getitem, lift, update, mbind, st_bind.
  destruct inv as [i|]; attrs_lookup;
    rewrite ?He, ?Hp, ?Hf, ?Hl, ?Hr, ?Hi; simpl;
    (destruct Hpa as [[-> ->] | ->]; simpl); reflexivity.
Qed.
End CreateFacts.

Section Register.
Context `{UuidSource} `{PasswordHasher} `{PasswordPolicy} `{RoleChoices} `{EmailPolicy}.
Local Open Scope string_scope.

Lemma get_str_fmap ret k : get_str (AStr <$> ret) k = field_str ret k.
Proof. unfold get_str, field_str. rewrite lookup_fmap. by destruct (ret !! k). Qed.

(** What a code check that passed hands to [create]. *)
Definition code_checked (db : Db) (now : Z) (ret : gmap string (option string))
    (inv : option InvitationCode.t) : Prop :=
  match inv with
  | None => truthy (field_str ret "invite_code") = false
  | Some i =>
      truthy (field_str ret "invite_code") = true ∧
      invitation_get db (default "" (field_str ret "invite_code")) = Ok i ∧
      InvitationCode.is_valid now i = true ∧
      ret !! "role" = Some (Some (InvitationCode.role i))
  end.

(** A successful registration, step by step. *)
(** What a successful [validate] on the fields' dict established. *)
Lemma validate_Ok_validated now db db1 ret vd :
  validate now (AStr <$> ret) db = (db1, Ok vd) →
  db1 = db ∧ ret !! "password" = ret !! "password2" ∧
  ∃ inv, code_checked db now ret inv ∧ vd = validated ret inv.
Proof.
  intros Hv. apply validate_Ok in Hv as (-> & (pw & Hpw & Hpw2) & Hcase).
  rewrite !lookup_fmap in Hpw, Hpw2. split; [done|].
  split; [destruct (ret !! "password"), (ret !! "password2"); simplify_eq/=; congruence|].
  rewrite get_str_fmap in Hcase.
  destruct Hcase as [[Ht ->] | (i & Ht & Hg & Hvalid & Hrole & ->)].
  - by exists None.
  - exists (Some i). rewrite lookup_fmap in Hrole.
    assert (ret !! "role" = Some (Some (InvitationCode.role i))).
    { destruct (ret !! "role") as [[r|]|]; simplify_eq/=; done. }
    by split_and!.
Qed.

Lemma register_Ok_inv now d db db' u :
  register now d db = (db', Ok u) →
  ∃ ret inv, to_internal_value (fields db d) = Ok ret ∧
    ret !! "password" = ret !! "password2" ∧ code_checked db now ret inv ∧
    create now (validated ret inv) db = (db', Ok u).
Proof.
  unfold register, get_state, lift, mbind, st_bind. simpl.
  destruct (to_internal_value (fields db d)) as [ret|] eqn:Htiv; [|discriminate].
  destruct (validate now (AStr <$> ret) db) as [db1 [vd|]] eqn:Hv; [|discriminate].
  apply validate_Ok_validated in Hv as (-> & Heq & inv & Hcode & ->).
  intros Hc. by exists ret, inv.
Qed.

(** [validate] run forward: agreeing passwords and a passed code check
    give the dict [create] expects. *)
Lemma validate_run now db ret inv :
  is_Some (ret !! "password") → ret !! "password" = ret !! "password2" →
  code_checked db now ret inv →
  validate now (AStr <$> ret) db = (db, Ok (validated ret inv)).
Proof.
  intros [pw Hpw] Heq Hcode.
  unfold validate, getitem, lift, mbind, st_bind. rewrite !lookup_fmap, <-Heq, Hpw.
  simpl. rewrite bool_decide_eq_false_2 by apply not_ne_refl. rewrite get_str_fmap.
  destruct inv as [i|]; simpl in Hcode.
  - destruct Hcode as (Ht & Hg & Hv & Hr). rewrite Ht.
    unfold check_invitation, get_state, mbind, st_bind. simpl. rewrite Hg, Hv. simpl.
    rewrite bool_decide_eq_false_2; [|rewrite lookup_fmap, Hr; apply not_ne_refl].
    unfold pop, getitem. simpl. attrs_lookup. by rewrite <-Heq, Hpw.
  - rewrite Hcode. unfold pop, getitem. simpl. attrs_lookup. by rewrite <-Heq, Hpw.
Qed.

Lemma patronymic_value d (ret : gmap string (option string)) :
  (p_patronymic d = None ∧ ret !! "patronymic" = None) ∨
  (∃ q, sent (p_patronymic d) = Some q ∧ ret !! "patronymic" = Some (Some q)) →
  let pa := default "" (sent (p_patronymic d)) in
  ret !! "patronymic" = None ∧ pa = "" ∨ ret !! "patronymic" = Some (Some pa).
Proof. intros [[-> ->] | (q & -> & ->)]; simpl; auto. Qed.

(** The outcome of [create] on a validated dict. *)
Definition create_result (now : Z) (db : Db) (ret : gmap string (option string))
    (inv : option InvitationCode.t) : Db * User.t :=
  let pa := match ret !! "patronymic" with Some (Some q) => q | _ => "" end in
  let '(db1, u) := create_user db now (default "" (field_str ret "email"))
                     (default "" (field_str ret "first_name"))
                     (default "" (field_str ret "last_name")) pa
                     (default "" (field_str ret "role"))
                     (default "" (field_str ret "password"))
                     (bool_decide (is_Some inv)) (bool_decide (is_Some inv)) in
  (match inv with
   | Some i => invitation_save db1 (InvitationCode.set_used_by (User.id u) i)
   | None => db1
   end, u).

Lemma create_run_facts now db d ret inv {db0} :
  fields_facts db0 d ret →
  create now (validated ret inv) db =
    ((create_result now db ret inv).1, Ok (create_result now db ret inv).2).
Proof.
  intros [(e & _ & He & _) (p & _ & Hp & _) _ (f & _ & Hf) (l & _ & Hl) Hpat
          (r & _ & Hr & _) _ Hinst].
  apply patronymic_value in Hpat.
  rewrite (create_run now ret inv db e p f l _ r He Hp Hf Hl Hpat Hr Hinst).
  unfold create_result, field_str. rewrite He, Hp, Hf, Hl, Hr. simpl.
  destruct Hpat as [[Hn Hpa] | Hs]; [rewrite Hn, Hpa | rewrite Hs]; by destruct inv.
Qed.

(** A failing registration leaves the database as it was. *)
Lemma register_Err_unchanged now d db db' e :
  register now d db = (db', Err e) → db' = db.
Proof.
  unfold register, get_state, lift, mbind, st_bind. simpl.
  destruct (to_internal_value (fields db d)) as [ret|] eqn:Htiv; [|by intros [= ->]].
  destruct (validate now (AStr <$> ret) db) as [db1 [vd|e']] eqn:Hv.
  - pose proof Hv as Hv'. apply validate_Ok in Hv' as (-> & _ & Hcase).
    assert (∃ inv, vd = validated ret inv) as [inv ->].
    { destruct Hcase as [[_ ->] | (i & _ & _ & _ & _ & ->)]; [by exists None | by exists (Some i)]. }
    rewrite (create_run_facts now db d ret inv (fields_Ok_facts _ _ _ Htiv)). discriminate.
  - intros [= -> _]. exact (read_only_run _ _ _ _ (validate_read_only _ _) Hv).
Qed.

(** ** The contract of registration *)

(** What a successful [register] promises, in terms of the request and
    the database before and after. *)
Record RegisterSpec (now : Z) (d : Payload) (db db' : Db) (u : User.t) : Prop := {
  spec_id : User.id u = next_user_id db;
  spec_users : users db' = <[User.id u := u]> (users db);
  spec_email : sent (p_email d) = Some (User.email u) ∧
               email_valid (User.email u) = true ∧ email_exists db (User.email u) = false;
  spec_password : ∃ pw, sent (p_password d) = Some pw ∧ sent (p_password2 d) = Some pw ∧
                        validate_password pw = [] ∧ User.password u = make_password pw;
  spec_names : sent (p_first_name d) = Some (User.first_name u) ∧
               sent (p_last_name d) = Some (User.last_name u) ∧
               User.patronymic u = default "" (sent (p_patronymic d));
  spec_role : p_role d = Some (JStr (User.role u)) ∧ User.role u ∈ role_values;
  spec_joined : User.date_joined u = now;
  spec_invite :
    if truthy (sent (p_invite_code d)) then
      ∃ k i, invitations db !! k = Some i ∧
        Some (InvitationCode.code i) = sent (p_invite_code d) ∧
        InvitationCode.is_valid now i = true ∧ InvitationCode.role i = User.role u ∧
        User.is_active u = true ∧ User.is_role_confirmed u = true ∧
        invitations db' = <[k := InvitationCode.set_used_by (User.id u) i]> (invitations db)
    else
      User.is_active u = false ∧ User.is_role_confirmed u = false ∧
      invitations db' = invitations db;
  spec_frame : profiles db' = profiles db ∧ next_user_id db' = S (next_user_id db) ∧
               next_invite_id db' = next_invite_id db ∧ uuid_seq db' = uuid_seq db
}.


Lemma register_Ok_spec now d db db' u :
  db_wf db → register now d db = (db', Ok u) → RegisterSpec now d db db' u.
Proof.
  intros Hwf Hrun.
  destruct (register_Ok_inv _ _ _ _ _ Hrun) as (ret & inv & Htiv & Hpw & Hcode & Hc).
  destruct (fields_Ok_facts _ _ _ Htiv) as [(e & Hse & He & Hev & Hex) (p & Hsp & Hp & Hpv)
    (p2 & Hsp2 & Hp2) (f & Hsf & Hf) (l & Hsl & Hl) Hpat%patronymic_value
    (r & Hsr & Hr & Hrin) Hcodeq Hinst].
  rewrite (create_run now ret inv db e p f l _ r He Hp Hf Hl Hpat Hr Hinst) in Hc.
  rewrite Hp, Hp2 in Hpw. injection Hpw as <-.
  unfold code_checked in Hcode. rewrite Hcodeq in Hcode.
  destruct inv as [i|]; simpl in Hc; injection Hc as <- <-.
  - destruct Hcode as (Ht & Hg & Hvalid & Hrole). rewrite Hr in Hrole. injection Hrole as ->.
    destruct (invitation_get_Ok _ _ _ Hg) as (k & Hk & Hci).
    destruct (wf_invite_keys db Hwf _ _ Hk) as [Hid _].
    split; simpl; eauto 10.
    rewrite Ht. exists k, i. rewrite Hci, <-truthy_default by done. by rewrite Hid.
  - split; simpl; eauto 10. by rewrite Hcode.
Qed.

(** [validate]'s failures are validation errors: the keys it reads are
    there, and codes are unique so [objects.get] never finds two rows. *)
Lemma validate_Err_invalid now attrs db db' e :
  db_wf db → is_Some (attrs !! "password") → is_Some (attrs !! "password2") →
  validate now attrs db = (db', Err e) → ∃ errs, e = Invalid errs.
Proof.
  intros Hwf [pw Hpw] [pw2 Hpw2].
  unfold validate, getitem, lift, mbind, st_bind. rewrite Hpw, Hpw2. simpl.
  case_bool_decide; [intros [= _ <-]; eauto|].
  destruct (truthy _); simpl.
  - unfold check_invitation, get_state, mbind, st_bind. simpl.
    destruct (invitation_get db _) as [i|[]] eqn:Hg.
    + destruct (InvitationCode.is_valid now i); simpl; [|intros [= _ <-]; eauto].
      case_bool_decide; [intros [= _ <-]; eauto|].
      unfold pop, getitem. simpl. attrs_lookup. rewrite Hpw2. discriminate.
    + intros [= _ <-]; eauto.
    + by apply invitation_get_not_multiple in Hg.
  - unfold pop, getitem. simpl. rewrite Hpw2. discriminate.
Qed.

Lemma create_result_wf now db d ret inv :
  db_wf db → fields_facts db d ret → code_checked db now ret inv →
  db_wf (create_result now db ret inv).1.
Proof.
  intros Hwf [(e & _ & He & _ & Hex) _ _ _ _ _ _ _ _] Hcode.
  unfold create_result, field_str. rewrite He. simpl.
  destruct inv as [i|]; simpl in *; [|by apply wf_create_user].
  destruct Hcode as (_ & Hg & _). destruct (invitation_get_Ok _ _ _ Hg) as (k & Hk & _).
  destruct (wf_invite_keys db Hwf _ _ Hk) as [Hid _].
  destruct (wf_invite_refs db Hwf _ _ Hk) as [Hcr _].
  apply wf_invitation_save with i; simpl; [by apply wf_create_user | by rewrite Hid | done | | ].
  - rewrite lookup_insert_is_Some'. by right.
  - intros u' [= <-]. rewrite lookup_insert_is_Some'. by left.
Qed.

(** C2: completeness: when every field validates, the passwords agree and
    any code sent passed its check, [register] returns the user
    [create] builds, with no exception on the way. *)
Theorem register_complete now d db ret inv :
  to_internal_value (fields db d) = Ok ret →
  ret !! "password" = ret !! "password2" →
  code_checked db now ret inv →
  register now d db =
    ((create_result now db ret inv).1, Ok (create_result now db ret inv).2).
Proof.
  intros Htiv Heq Hcode. pose proof (fields_Ok_facts _ _ _ Htiv) as Hf.
  unfold register, get_state, lift, mbind, st_bind. simpl. rewrite Htiv.
  destruct (ff_password _ _ _ Hf) as (p & _ & Hp & _).
  rewrite (validate_run now db ret inv); [|by rewrite Hp | done | done].
  cbv beta iota. exact (create_run_facts now db d ret inv Hf).
Qed.

(** C3: on a well-formed database a registration never raises an
    uncaught exception: every failure is a [ValidationError]. *)
Theorem register_no_server_error now d db db' e :
  db_wf db → register now d db = (db', Err e) → ∃ errs, e = Invalid errs.
Proof.
  intros Hwf. unfold register, get_state, lift, mbind, st_bind. simpl.
  destruct (to_internal_value (fields db d)) as [ret|e'] eqn:Htiv.
  - pose proof (fields_Ok_facts _ _ _ Htiv) as Hf.
    destruct (ff_password _ _ _ Hf) as (p & _ & Hp & _).
    destruct (ff_password2 _ _ _ Hf) as (p2 & _ & Hp2).
    destruct (validate now (AStr <$> ret) db) as [db1 [vd|e']] eqn:Hv.
    + apply validate_Ok in Hv as (-> & _ & Hcase).
      assert (∃ inv, vd = validated ret inv) as [inv ->].
      { destruct Hcase as [[_ ->] | (i & _ & _ & _ & _ & ->)];
          [by exists None | by exists (Some i)]. }
      rewrite (create_run_facts now db d ret inv Hf). discriminate.
    + intros [= _ <-]. eapply validate_Err_invalid; [done | | | exact Hv];
        rewrite lookup_fmap; by rewrite ?Hp, ?Hp2.
  - intros [= _ <-]. apply to_internal_value_Err in Htiv as [-> _]. eauto.
Qed.

Lemma register_wf now d db db' r :
  db_wf db → register now d db = (db', r) → db_wf db'.
Proof.
  intros Hwf Hrun. destruct r as [u|e].
  - destruct (register_Ok_inv _ _ _ _ _ Hrun) as (ret & inv & Htiv & _ & Hcode & Hc).
    pose proof (fields_Ok_facts _ _ _ Htiv) as Hf.
    rewrite (create_run_facts now db d ret inv Hf) in Hc. injection Hc as <- _.
    by eapply create_result_wf.
  - by rewrite (register_Err_unchanged _ _ _ _ _ Hrun).
Qed.

(** C5: an invitation code admits one registration: once a registration
    with a code succeeded, no later registration sending the same code
    succeeds, whatever else it sends. *)
Theorem register_code_single_use now d db db1 u now' d' :
  db_wf db → register now d db = (db1, Ok u) →
  truthy (sent (p_invite_code d)) = true →
  sent (p_invite_code d') = sent (p_invite_code d) →
  ∀ db2 u', register now' d' db1 ≠ (db2, Ok u').
Proof.
  intros Hwf Hrun Ht Hsame db2 u' Hrun'.
  pose proof (register_wf _ _ _ _ _ Hwf Hrun) as Hwf1.
  pose proof (spec_invite _ _ _ _ _ (register_Ok_spec _ _ _ _ _ Hwf Hrun)) as Hspec.
  rewrite Ht in Hspec. destruct Hspec as (k & i & Hk & Hc & _ & _ & _ & _ & Hinv).
  pose proof (spec_invite _ _ _ _ _ (register_Ok_spec _ _ _ _ _ Hwf1 Hrun')) as Hspec'.
  rewrite Hsame, Ht in Hspec'.
  destruct Hspec' as (k' & i' & Hk' & Hc' & Hv' & _).
  assert (invitations db1 !! k = Some (InvitationCode.set_used_by (User.id u) i)) as Hk1
    by (rewrite Hinv; apply lookup_insert_eq).
  assert (k' = k) as ->.
  { eapply (wf_code_unique db1 Hwf1); [exact Hk' | exact Hk1 |]. simpl. congruence. }
  rewrite Hk1 in Hk'. injection Hk' as <-. discriminate.
Qed.

(** ** The error branches *)

(** A field that fails is reported under its name, and nothing runs
    after the field validation. *)
Lemma register_field_error now d db n es :
  (n, Err es) ∈ fields db d →
  ∃ errs, register now d db = (db, Err (Invalid errs)) ∧ (n, es) ∈ errs.
Proof.
  intros Hin. apply field_errors_elem in Hin.
  unfold register, get_state, lift, mbind, st_bind. simpl.
  unfold to_internal_value. destruct (field_errors (fields db d)) as [|x l] eqn:E.
  - set_solver.
  - eexists. split; [reflexivity | done].
Qed.

Lemma register_after_fields now d db ret :
  to_internal_value (fields db d) = Ok ret →
  register now d db =
    match validate now (AStr <$> ret) db with
    | (db1, Ok vd) => create now vd db1
    | (db1, Err e) => (db1, Err e)
    end.
Proof. intros Htiv. unfold register, get_state, lift, mbind, st_bind. simpl. by rewrite Htiv. Qed.

(** [validate] when the passwords agree and a code was sent. *)
Lemma validate_with_code now db ret p c :
  ret !! "password" = Some (Some p) → ret !! "password2" = Some (Some p) →
  field_str ret "invite_code" = Some c → c ≠ "" →
  validate now (AStr <$> ret) db =
    (db, match invitation_get db c with
         | Ok i =>
             if negb (InvitationCode.is_valid now i) then
               Err (Invalid [("invite_code", [InviteUnusable])])
             else if bool_decide (Some (Some (InvitationCode.role i)) ≠ ret !! "role") then
               Err (Invalid [("role", [InviteRoleMismatch (Some (InvitationCode.role i))
                                                          (field_str ret "role")])])
             else Ok (validated ret (Some i))
         | Err DoesNotExist => Err (Invalid [("invite_code", [InviteNotFound])])
         | Err MultipleObjectsReturned => Err (ServerError "MultipleObjectsReturned")
         end).
Proof.
  intros Hp Hp2 Hc Hne.
  unfold validate, getitem, lift, mbind, st_bind. rewrite !lookup_fmap, Hp, Hp2. simpl.
  rewrite bool_decide_eq_false_2 by apply not_ne_refl.
  rewrite get_str_fmap, Hc, (proj2 (truthy_Some c) Hne). simpl.
  unfold check_invitation, get_state, mbind, st_bind. simpl.
  destruct (invitation_get db c) as [i|[]]; [|done..].
  destruct (InvitationCode.is_valid now i); simpl; [|done].
  rewrite lookup_fmap. unfold get_str, field_str. rewrite lookup_fmap.
  destruct (ret !! "role") as [[r|]|]; simpl.
  - destruct (decide (InvitationCode.role i = r)) as [<-|Hrne].
    + rewrite !bool_decide_eq_false_2 by apply not_ne_refl.
      unfold pop, getitem. simpl. attrs_lookup. by rewrite Hp2.
    + by rewrite !bool_decide_eq_true_2 by congruence.
  - by rewrite ?bool_decide_eq_true_2 by congruence.
  - by rewrite ?bool_decide_eq_true_2 by congruence.
Qed.

(** C6: a request whose address is already registered is refused with
    "a user with this email already exists" on [email], and nothing is
    written. *)
Theorem register_email_taken now d db s :
  p_email d = Some (JStr s) → strip s ≠ "" → email_valid (strip s) = true →
  email_exists db (strip s) = true →
  ∃ errs, register now d db = (db, Err (Invalid errs)) ∧ ("email", [EmailTaken]) ∈ errs.
Proof.
  intros Hd Hne Hv Hex. apply register_field_error.
  assert (s ≠ "") as Hs by (intros ->; done).
  unfold fields. rewrite Hd. simpl.
  rewrite (proj2 (String.eqb_neq s "") Hs), (proj2 (String.eqb_neq (strip s) "") Hne).
  unfold email_validators. rewrite Hv. simpl. unfold validate_email. rewrite Hex.
  left.
Qed.

(** C7: when the fields validate but the two passwords differ, the
    request is refused on [password2] and nothing is written. *)
Theorem register_password_mismatch now d db ret :
  to_internal_value (fields db d) = Ok ret →
  sent (p_password d) ≠ sent (p_password2 d) →
  register now d db = (db, Err (Invalid [("password2", [PasswordsDiffer])])).
Proof.
  intros Htiv Hne. rewrite (register_after_fields _ _ _ _ Htiv).
  pose proof (fields_Ok_facts _ _ _ Htiv) as Hf.
  destruct (ff_password _ _ _ Hf) as (p & Hsp & Hp & _).
  destruct (ff_password2 _ _ _ Hf) as (p2 & Hsp2 & Hp2).
  unfold validate, getitem, lift, mbind, st_bind. rewrite !lookup_fmap, Hp, Hp2. simpl.
  rewrite bool_decide_eq_true_2; [done|]. congruence.
Qed.

(** C8: a code that names no invitation is refused with "invitation code
    not found" on [invite_code]. *)
Theorem register_invite_not_found now d db ret c :
  to_internal_value (fields db d) = Ok ret →
  sent (p_password d) = sent (p_password2 d) →
  sent (p_invite_code d) = Some c → c ≠ "" →
  (∀ k i, invitations db !! k = Some i → InvitationCode.code i ≠ c) →
  register now d db = (db, Err (Invalid [("invite_code", [InviteNotFound])])).
Proof.
  intros Htiv Heq Hc Hne Hnone. rewrite (register_after_fields _ _ _ _ Htiv).
  pose proof (fields_Ok_facts _ _ _ Htiv) as Hf.
  destruct (ff_password _ _ _ Hf) as (p & Hsp & Hp & _).
  destruct (ff_password2 _ _ _ Hf) as (p2 & Hsp2 & Hp2).
  assert (p2 = p) as -> by congruence.
  rewrite (validate_with_code now db ret p c Hp Hp2) by (rewrite ?(ff_invite_code _ _ _ Hf); done).
  by rewrite (proj2 (invitation_get_DoesNotExist db c) Hnone).
Qed.

(** C9: a code whose invitation is used or expired is refused with
    "invalid or already used invitation code" on [invite_code]. *)
Theorem register_invite_unusable now d db ret k i :
  db_wf db → to_internal_value (fields db d) = Ok ret →
  sent (p_password d) = sent (p_password2 d) →
  sent (p_invite_code d) = Some (InvitationCode.code i) → InvitationCode.code i ≠ "" →
  invitations db !! k = Some i → InvitationCode.is_valid now i = false →
  register now d db = (db, Err (Invalid [("invite_code", [InviteUnusable])])).
Proof.
  intros Hwf Htiv Heq Hc Hne Hk Hv. rewrite (register_after_fields _ _ _ _ Htiv).
  pose proof (fields_Ok_facts _ _ _ Htiv) as Hf.
  destruct (ff_password _ _ _ Hf) as (p & Hsp & Hp & _).
  destruct (ff_password2 _ _ _ Hf) as (p2 & Hsp2 & Hp2).
  assert (p2 = p) as -> by congruence.
  rewrite (validate_with_code now db ret p _ Hp Hp2) by (rewrite ?(ff_invite_code _ _ _ Hf); done).
  by rewrite (invitation_get_unique db k i Hwf Hk), Hv.
Qed.

(** C10: a usable code issued for another role than the one requested is
    refused on [role], naming both roles. *)
Theorem register_invite_role_mismatch now d db ret k i r :
  db_wf db → to_internal_value (fields db d) = Ok ret →
  sent (p_password d) = sent (p_password2 d) →
  sent (p_invite_code d) = Some (InvitationCode.code i) → InvitationCode.code i ≠ "" →
  invitations db !! k = Some i → InvitationCode.is_valid now i = true →
  p_role d = Some (JStr r) → r ≠ InvitationCode.role i →
  register now d db =
    (db, Err (Invalid [("role", [InviteRoleMismatch (Some (InvitationCode.role i)) (Some r)])])).
Proof.
  intros Hwf Htiv Heq Hc Hne Hk Hv Hr Hrne. rewrite (register_after_fields _ _ _ _ Htiv).
  pose proof (fields_Ok_facts _ _ _ Htiv) as Hf.
  destruct (ff_password _ _ _ Hf) as (p & Hsp & Hp & _).
  destruct (ff_password2 _ _ _ Hf) as (p2 & Hsp2 & Hp2).
  destruct (ff_role _ _ _ Hf) as (r' & Hr' & Hret & _). rewrite Hr in Hr'. injection Hr' as <-.
  assert (p2 = p) as -> by congruence.
  rewrite (validate_with_code now db ret p _ Hp Hp2) by (rewrite ?(ff_invite_code _ _ _ Hf); done).
  rewrite (invitation_get_unique db k i Hwf Hk), Hv. simpl.
  rewrite bool_decide_eq_true_2 by (rewrite Hret; congruence).
  unfold field_str. by rewrite Hret.
Qed.

(** C1: [register] implements its contract: a registration that
    succeeds created exactly the user the request describes, with a fresh
    id and a fresh address, activated and role-confirmed exactly when a
    usable invitation code of the requested role was sent, and that
    invitation then records the new user. *)
Theorem register_refines now d db db' u :
  db_wf db → register now d db = (db', Ok u) → RegisterSpec now d db db' u.
Proof. apply register_Ok_spec. Qed.

(** C11: [validate_role]'s error is dead code: the role field is the
    model's choice field, which rejects a value outside [User.Role]
    before [validate_role] runs, so the role field never reports
    "invalid user role". *)
Theorem validate_role_unreachable db d es :
  ("role", Err es) ∈ fields db d → RoleNotAllowed ∉ es.
Proof.
  intros Hin. unfold fields in Hin.
  repeat (apply elem_of_cons in Hin as [Hin|Hin]; [simplify_eq|]); [|set_solver].
  symmetry in Hin.
  destruct (choice_run_validation false role_opts role_values (p_role d)) as [[[v|]|]|es'] eqn:Hc;
    simpl in Hin; try discriminate.
  - apply choice_run_validation_value in Hc as [_ Hv]; [|done].
    unfold validate_role in Hin. rewrite bool_decide_eq_true_2 in Hin by done. discriminate.
  - injection Hin as ->. revert Hc.
    destruct (p_role d) as [[|s|]|]; simpl; rewrite ?andb_false_r;
      [| case_bool_decide | |]; intros [= <-]; set_solver.
Qed.

(** C12: [CharField]'s default [trim_whitespace=True] applies to the
    password: the stored hash is that of the password with its leading
    and trailing whitespace removed, not of the password as typed. *)
Theorem register_strips_password now d db db' u s :
  register now d db = (db', Ok u) → p_password d = Some (JStr s) →
  User.password u = make_password (strip s).
Proof.
  intros Hrun Hd.
  destruct (register_Ok_inv _ _ _ _ _ Hrun) as (ret & inv & Htiv & _ & _ & Hc).
  pose proof (fields_Ok_facts _ _ _ Htiv) as Hf.
  rewrite (create_run_facts now db d ret inv Hf) in Hc. injection Hc as _ <-.
  destruct (ff_password _ _ _ Hf) as (p & Hsp & Hp & _).
  rewrite Hd in Hsp. injection Hsp as <-.
  unfold create_result, field_str. rewrite Hp. simpl. by destruct (ret !! "patronymic") as [[]|].
Qed.

(** The keys the fields' dict can hold, each with a string but for the
    nullable [invite_code]. *)
Lemma fields_values_shape db d ret k v :
  to_internal_value (fields db d) = Ok ret → ret !! k = Some v →
  k ∈ ["email"; "password"; "password2"; "first_name"; "last_name"; "patronymic"; "role";
       "invite_code"] ∧ (k = "invite_code" ∨ ∃ s, v = Some s).
Proof.
  intros Htiv Hk. pose proof (fields_Ok_facts _ _ _ Htiv) as Hf.
  destruct (to_internal_value_Ok _ _ Htiv) as [Hret _].
  assert (k ∈ (fields db d).*1) as Hin by (rewrite Hret in Hk; by eapply field_values_dom).
  split; [exact Hin|]. simpl in Hin.
  destruct Hf as [(e & _ & He & _) (p & _ & Hp & _) (p2 & _ & Hp2) (f & _ & Hfn) (l & _ & Hl)
                  Hpat (r & _ & Hr & _) _ _].
  destruct Hpat as [[_ Hn]|(q & _ & Hq)];
    repeat (apply elem_of_cons in Hin as [->|Hin]);
    first [ by left | congruence | by apply elem_of_nil in Hin
          | right; match goal with
                   | H : ret !! ?n = Some (Some ?x), H' : ret !! ?n = Some v |- _ =>
                       exists x; congruence
                   end ].
Qed.

(** C40: the dict [validate] hands to [create] holds exactly the model's
    arguments: [password2] and [invite_code] are gone, every other key is
    one of the model's fields and holds a string, and the only other key
    is ["invitation_instance"], holding the code row; so [create]'s
    [validated_data[...]] reads are all well-typed. *)
Theorem validated_data_shape now d db db' ret vd :
  to_internal_value (fields db d) = Ok ret → validate now (AStr <$> ret) db = (db', Ok vd) →
  ∀ k a, vd !! k = Some a →
    (k ∈ ["email"; "password"; "first_name"; "last_name"; "patronymic"; "role"] ∧
     ∃ s, a = AStr (Some s)) ∨
    (k = "invitation_instance" ∧ ∃ i, a = AInvitation i).
Proof.
  intros Htiv Hv k a Hk.
  apply validate_Ok_validated in Hv as (_ & _ & inv & _ & ->).
  pose proof (ff_no_instance _ _ _ (fields_Ok_facts _ _ _ Htiv)) as Hni.
  unfold validated in Hk.
  apply lookup_delete_Some in Hk as [Hk1 Hk]. apply lookup_delete_Some in Hk as [Hk2 Hk].
  assert ((k = "invitation_instance" ∧ ∃ i, a = AInvitation i) ∨ (AStr <$> ret) !! k = Some a)
    as [Hi|Hs] by (destruct inv as [i|]; [apply lookup_insert_Some in Hk as [[<- <-]|[_ Hk]]|]; eauto).
  - by right.
  - left. apply lookup_fmap_Some in Hs as (v & <- & Hs).
    destruct (fields_values_shape _ _ _ _ _ Htiv Hs) as [Hin [->|[s ->]]]; [done|].
    split; [|by eexists]. repeat (apply elem_of_cons in Hin as [->|Hin]); try done;
      [by repeat constructor..|by apply elem_of_nil in Hin].
Qed.
End Register.


(** ** Concrete runs on [demo_db] *)

Section Witnesses.
Local Open Scope string_scope.

Definition js (s : string) : option jvalue := Some (JStr s).

(** Bob registers with the administrator's invitation; his password is
    typed with surrounding spaces. *)
Definition demo_request : Payload :=
  mkPayload (js "bob@example.org") (js " pw123456 ") (js "pw123456") (js "Bob") (js "Lee")
            (js "Ivanovich") (js "engineer") (js "uuid-0").

Definition demo_user : User.t :=
  User.mk 1 "bob@example.org" (make_password "pw123456") "Bob" "Lee" "Ivanovich"
          "engineer" true true 7.

(** A request every field of which is wrong. *)
Definition demo_bad : Payload :=
  mkPayload (js "nope") (js "1234") None (Some JNull) (js "x") None (js "boss") (Some JNull).

Definition demo_bad_errors : ValidationError :=
  [("email", [InvalidEmail]);
   ("password", [PasswordRejected "too_short"; PasswordRejected "entirely_numeric"]);
   ("password2", [Required]); ("first_name", [Null]); ("role", [InvalidChoice "boss"])].

(** The same code again, from Carol. *)
Definition demo_request2 : Payload :=
  mkPayload (js "carol@example.org") (js "pw123456") (js "pw123456") (js "Carol") (js "Kim")
            None (js "engineer") (js "uuid-0").

Lemma register_refines_witness :
  RegisterSpec 7 demo_request demo_db (register 7 demo_request demo_db).1 demo_user.
Proof. apply register_refines; [apply demo_db_wf | vm_compute; reflexivity]. Defined.

Lemma register_complete_witness :
  register 7 demo_request demo_db =
    ((create_result 7 demo_db (field_values (fields demo_db demo_request)) (Some demo_invitation)).1,
     Ok (create_result 7 demo_db (field_values (fields demo_db demo_request)) (Some demo_invitation)).2).
Proof.
  apply register_complete; [vm_compute; reflexivity | vm_compute; reflexivity |].
  repeat split; vm_compute; reflexivity.
Defined.

Lemma register_no_server_error_witness :
  register 7 demo_bad demo_db = (demo_db, Err (Invalid demo_bad_errors)) ∧
  ∃ errs, Invalid demo_bad_errors = Invalid errs.
Proof.
  assert (register 7 demo_bad demo_db = (demo_db, Err (Invalid demo_bad_errors))) as H
    by (vm_compute; reflexivity).
  split; [exact H | exact (register_no_server_error 7 demo_bad demo_db _ _ demo_db_wf H)].
Defined.

Lemma register_code_single_use_witness :
  match register 8 demo_request2 (register 7 demo_request demo_db).1 with
  | (_, Ok _) => False
  | (_, Err _) => True
  end.
Proof.
  destruct (register 8 demo_request2 (register 7 demo_request demo_db).1) as [db2 [u'|e]] eqn:E;
    [|exact I].
  refine (register_code_single_use 7 demo_request demo_db (register 7 demo_request demo_db).1
            demo_user 8 demo_request2 _ _ _ _ db2 u' E);
    [apply demo_db_wf | vm_compute; reflexivity ..].
Defined.

Lemma register_email_taken_witness :
  ∃ errs, register 7 (mkPayload (js "admin@example.org") (js "pw123456") (js "pw123456")
                                (js "A") (js "B") None (js "admin") None) demo_db
            = (demo_db, Err (Invalid errs)) ∧ ("email", [EmailTaken]) ∈ errs.
Proof.
  apply (register_email_taken _ _ _ "admin@example.org"); vm_compute; try reflexivity; discriminate.
Defined.

Lemma register_password_mismatch_witness :
  let d := mkPayload (js "dan@example.org") (js "pw123456") (js "pw1234567") (js "Dan")
                     (js "Ray") None (js "admin") None in
  register 7 d demo_db = (demo_db, Err (Invalid [("password2", [PasswordsDiffer])])).
Proof.
  intros d. apply (register_password_mismatch _ _ _ (field_values (fields demo_db d)));
    vm_compute; [reflexivity | discriminate].
Defined.

Lemma register_invite_not_found_witness :
  let d := mkPayload (js "eve@example.org") (js "pw123456") (js "pw123456") (js "Eve")
                     (js "Ray") None (js "engineer") (js "uuid-9") in
  register 7 d demo_db = (demo_db, Err (Invalid [("invite_code", [InviteNotFound])])).
Proof.
  intros d. apply (register_invite_not_found _ _ _ (field_values (fields demo_db d)) "uuid-9");
    [vm_compute; reflexivity | reflexivity | reflexivity | discriminate |].
  intros k i Hk. unfold demo_db in Hk. simpl in Hk.
  apply lookup_insert_Some in Hk as [[_ <-] | [_ Hk]]; [discriminate | by rewrite lookup_empty in Hk].
Defined.

Lemma register_invite_unusable_witness :
  register 200 demo_request demo_db = (demo_db, Err (Invalid [("invite_code", [InviteUnusable])])).
Proof.
  apply (register_invite_unusable _ _ _ (field_values (fields demo_db demo_request)) 0 demo_invitation);
    [apply demo_db_wf | vm_compute; reflexivity | reflexivity | reflexivity | discriminate
    | reflexivity | reflexivity].
Defined.

Lemma register_invite_role_mismatch_witness :
  let d := mkPayload (js "fay@example.org") (js "pw123456") (js "pw123456") (js "Fay")
                     (js "Ray") None (js "admin") (js "uuid-0") in
  register 7 d demo_db =
    (demo_db, Err (Invalid [("role", [InviteRoleMismatch (Some "engineer") (Some "admin")])])).
Proof.
  intros d.
  apply (register_invite_role_mismatch _ _ _ (field_values (fields demo_db d)) 0 demo_invitation "admin");
    [apply demo_db_wf | vm_compute; reflexivity | reflexivity | reflexivity | discriminate
    | reflexivity | reflexivity | reflexivity | discriminate].
Defined.

Lemma validate_role_unreachable_witness : RoleNotAllowed ∉ [InvalidChoice "boss"].
Proof.
  apply (validate_role_unreachable demo_db demo_bad).
  apply (bool_decide_unpack _). vm_compute. reflexivity.
Defined.

Lemma register_strips_password_witness :
  User.password demo_user = make_password (strip " pw123456 ").
Proof.
  apply (register_strips_password 7 demo_request demo_db (register 7 demo_request demo_db).1);
    vm_compute; reflexivity.
Defined.
Lemma validated_data_shape_witness :
  match to_internal_value (fields demo_db demo_request) with
  | Ok ret =>
      match validate 7 (AStr <$> ret) demo_db with
      | (db', Ok vd) =>
          ∀ k a, vd !! k = Some a →
            (k ∈ ["email"; "password"; "first_name"; "last_name"; "patronymic"; "role"] ∧
             ∃ s, a = AStr (Some s)) ∨
            (k = "invitation_instance" ∧ ∃ i, a = AInvitation i)
      | _ => False
      end
  | Err _ => False
  end.
Proof.
  destruct (to_internal_value (fields demo_db demo_request)) as [ret|e] eqn:E1;
    [|vm_compute in E1; discriminate].
  destruct (validate 7 (AStr <$> ret) demo_db) as [db' [vd|e]] eqn:E2.
  - exact (validated_data_shape 7 demo_request demo_db db' ret vd E1 E2).
  - vm_compute in E1. injection E1 as <-. vm_compute in E2. discriminate.
Defined.
End Witnesses.

End UserRegistrationSerializer.
