(* ===== verification/UserUpdate.v ===== *)
(** * [ProfileSerializer] and [UserSerializer.update]
      (src/users/serializers.py, lines 8-64)

    The profile's four fields and their partial update; the user
    serializer's writable fields (the read-only ones are not run), its
    nested profile, and [update]: [validated_data.pop('profile', None)],
    [Profile.objects.get_or_create(user=instance)], a second
    [ProfileSerializer(instance=..., data=profile_data, partial=True)]
    validated with [raise_exception=True] and saved, then
    [ModelSerializer.update] on the rest, which first runs DRF's
    [raise_errors_on_nested_writes] check, sets every remaining attribute
    and saves the whole instance.  [update_manual] is the alternative the
    comment of lines 50-53 describes, a [setattr] loop over the profile
    data, proved equivalent. *)

From S2P Require Import Prelude Framework Models.

Module ProfileSerializer.

(** The nested profile object of a request: one entry per key of
    [Meta.fields], [None] when absent. *)
Record Payload : Type := mkPayload {
  p_avatar : option jvalue;
  p_phone_number : option jvalue;
  p_bio : option jvalue;
  p_date_of_birth : option jvalue
}.

Section Serializer.
Context `{ProfileFields}.

(** One model field of the profile: optional ([blank=True]), nullable
    ([null=True]), converted by the model field's type. *)
Definition field_run (n : string) (d : option jvalue) : FieldResult :=
  match d with
  | None => Ok None
  | Some JNull => Ok (Some None)
  | Some (JStr s) => v ← profile_to_internal n s; Ok (Some (Some v))
  | Some JOther => Err [NotAString]
  end.

(** [Meta.fields = ('avatar', 'phone_number', 'bio', 'date_of_birth')] *)
Definition fields (d : Payload) : list (string * FieldResult) :=
  [("avatar", field_run "avatar" (p_avatar d));
   ("phone_number", field_run "phone_number" (p_phone_number d));
   ("bio", field_run "bio" (p_bio d));
   ("date_of_birth", field_run "date_of_birth" (p_date_of_birth d))]%string.

(** [ModelSerializer.update]: [setattr] for every validated field. *)
Definition update_instance (p : Profile.t) (vd : gmap string (option string)) : Profile.t :=
  let pick k old := match vd !! k with Some v => v | None => old end in
  Profile.mk (Profile.user p) (pick "avatar" (Profile.avatar p))
             (pick "phone_number" (Profile.phone_number p)) (pick "bio" (Profile.bio p))
             (pick "date_of_birth" (Profile.date_of_birth p)).

(** [setattr(profile_instance, attr, value)] of the loop in the comment
    of lines 50-53: the column named [attr] takes [value]. *)
Definition setattr_profile (p : Profile.t) (attr : string) (value : option string) : Profile.t :=
  let set n old := if String.eqb attr n then value else old in
  Profile.mk (Profile.user p) (set "avatar" (Profile.avatar p))
             (set "phone_number" (Profile.phone_number p)) (set "bio" (Profile.bio p))
             (set "date_of_birth" (Profile.date_of_birth p)).

(** [serializer.save()] on an existing instance: update, then
    [instance.save()]. *)
Definition save (p : Profile.t) (vd : gmap string (option string)) : st Db Failure Profile.t :=
  let p' := update_instance p vd in
  update (λ db, (profile_save db p', p')).

(** The validated data handed back as request data, as [update] does with
    [data=profile_data]. *)
Definition as_data (vd : gmap string (option string)) : Payload :=
  let enc k := (λ v : option string, match v with Some s => JStr s | None => JNull end)
                 <$> vd !! k in
  mkPayload (enc "avatar") (enc "phone_number") (enc "bio") (enc "date_of_birth").
End Serializer.

Section Facts.
Context `{ProfileFields}.
Local Open Scope string_scope.

Lemma profile_fields_NoDup d : NoDup (fields d).*1.
Proof. apply (bool_decide_unpack _). by vm_compute. Qed.

(** The names a profile field's validated data can hold. *)
Lemma field_values_keys d k v :
  field_values (fields d) !! k = Some v →
  k = "avatar" ∨ k = "phone_number" ∨ k = "bio" ∨ k = "date_of_birth".
Proof.
  intros Hk%field_values_dom. unfold fields in Hk. simpl in Hk.
  repeat (apply elem_of_cons in Hk as [->|Hk]; [tauto|]). set_solver.
Qed.

(** A validated field value, sent again, validates to itself. *)
Lemma field_run_revalidate n d r :
  field_run n d = Ok r →
  field_run n ((λ v : option string, match v with Some s => JStr s | None => JNull end) <$> r) = Ok r.
Proof.
  destruct d as [[|s|]|]; simpl; try (intros [= <-]; done).
  destruct (profile_to_internal n s) as [v|] eqn:E; simpl; [|discriminate].
  intros [= <-]. simpl. by rewrite (profile_to_internal_idem n s v E).
Qed.

(** The nested data [update] passes back to a [ProfileSerializer]
    validates to itself. *)
Lemma revalidate d :
  field_errors (fields d) = [] →
  Framework.to_internal_value (fields (as_data (field_values (fields d)))) =
    Ok (field_values (fields d)).
Proof.
  intros Herr. set (pd := field_values (fields d)).
  assert (Framework.to_internal_value (fields d) = Ok pd) as Hok
    by (unfold Framework.to_internal_value; by rewrite Herr).
  assert (∀ k r, (k, r) ∈ fields d → r = Ok (pd !! k)) as Hk
    by (intros k r Hin; eapply to_internal_value_lookup; [apply profile_fields_NoDup | exact Hok | exact Hin]).
  assert (fields (as_data pd) =
          [("avatar", Ok (pd !! "avatar")); ("phone_number", Ok (pd !! "phone_number"));
           ("bio", Ok (pd !! "bio")); ("date_of_birth", Ok (pd !! "date_of_birth"))]) as ->.
  { unfold fields, as_data. simpl.
    rewrite (field_run_revalidate "avatar" (p_avatar d)),
      (field_run_revalidate "phone_number" (p_phone_number d)),
      (field_run_revalidate "bio" (p_bio d)),
      (field_run_revalidate "date_of_birth" (p_date_of_birth d)); [done | ..];
      apply Hk; unfold fields; by repeat econstructor. }
  unfold Framework.to_internal_value. simpl. f_equal.
  apply field_values_self.
  - apply (bool_decide_unpack _). by vm_compute.
  - intros k r Hin. repeat (apply elem_of_cons in Hin as [Hin|Hin]; [by simplify_eq|]). set_solver.
  - intros k v Hv. destruct (field_values_keys d k v Hv) as [-> | [-> | [-> | ->]]]; set_solver.
Qed.
(** Two [setattr]s on different attributes commute. *)
Lemma setattr_profile_comm p j1 j2 z1 z2 :
  j1 ≠ j2 →
  setattr_profile (setattr_profile p j2 z2) j1 z1 = setattr_profile (setattr_profile p j1 z1) j2 z2.
Proof.
  intros Hne. unfold setattr_profile. simpl.
  f_equal; repeat case_eqb; congruence.
Qed.

Lemma update_instance_insert p k v m :
  update_instance p (<[k:=v]> m) = setattr_profile (update_instance p m) k v.
Proof.
  unfold update_instance, setattr_profile. simpl.
  f_equal; case_eqb; subst; rewrite ?lookup_insert_eq, ?lookup_insert_ne by done; done.
Qed.

(** The [setattr] loop over the items of a dict, in any order, is
    [ModelSerializer.update]'s assignment of the validated fields. *)
Lemma fold_setattr_profile p pd :
  map_fold (λ attr value q, setattr_profile q attr value) p pd = update_instance p pd.
Proof.
  induction pd as [|k v m Hk IH] using map_ind.
  - rewrite map_fold_empty. by destruct p.
  - rewrite map_fold_insert_L by (done || intros; by apply setattr_profile_comm).
    by rewrite IH, update_instance_insert.
Qed.
End Facts.

End ProfileSerializer.

Module UserSerializer.

(** The value under the [profile] key of a request. *)
Inductive nested : Type :=
| NNull
| NObj (p : ProfileSerializer.Payload)
| NOther.

(** The request body: one entry per key of [Meta.fields]. *)
Record Payload : Type := mkPayload {
  u_id : option jvalue;
  u_email : option jvalue;
  u_first_name : option jvalue;
  u_last_name : option jvalue;
  u_patronymic : option jvalue;
  u_role : option jvalue;
  u_profile : option nested;
  u_is_active : option jvalue;
  u_is_role_confirmed : option jvalue;
  u_date_joined : option jvalue
}.

(** The validated data: the writable model fields that were sent, and the
    nested profile's validated data when it was sent. *)
Record Validated : Type := mkValidated {
  v_fields : gmap string (option string);
  v_profile : option (gmap string (option string))
}.

(** [first_name], [last_name], [patronymic]: optional model [CharField]s
    with [blank=True]. *)
Definition name_opts : CharOpts :=
  {| required := false; allow_null := false; allow_blank := true; trim_whitespace := true |}.

Section Serializer.
Context `{ProfileFields}.

(** The writable fields other than [profile], in [Meta.fields] order;
    [id], [email], [role], [is_active], [is_role_confirmed] and
    [date_joined] are in [read_only_fields] and never run. *)
Definition name_fields (partial : bool) (d : Payload) : list (string * FieldResult) :=
  [("first_name", char_run_validation partial name_opts (λ _, []) (u_first_name d));
   ("last_name", char_run_validation partial name_opts (λ _, []) (u_last_name d));
   ("patronymic", char_run_validation partial name_opts (λ _, []) (u_patronymic d))]%string.

(** [profile = ProfileSerializer(required=False)]: skipped when absent,
    [null] refused, an object validated field by field (its errors
    reported under ["profile." ^ field]). *)
Definition profile_run (p : option nested) : result ValidationError (option (gmap string (option string))) :=
  match p with
  | None => Ok None
  | Some NNull => Err [("profile", [Null])]
  | Some NOther => Err [("profile", [NotAString])]
  | Some (NObj q) =>
      match field_errors (ProfileSerializer.fields q) with
      | [] => Ok (Some (field_values (ProfileSerializer.fields q)))
      | errs => Err ((λ e : string * list ErrorCode, ("profile." +:+ e.1, e.2)%string) <$> errs)
      end
  end.

(** [UserSerializer.to_internal_value]: the errors of all writable fields,
    else the validated data. *)
Definition to_internal_value (partial : bool) (d : Payload) : drf Validated :=
  let fs := name_fields partial d in
  let pr := profile_run (u_profile d) in
  match field_errors fs ++ (match pr with Err es => es | Ok _ => [] end), pr with
  | [], Ok prof => Ok (mkValidated (field_values fs) prof)
  | errs, _ => Err (Invalid errs)
  end.

(** DRF's [raise_errors_on_nested_writes('update', ...)]: an
    [AssertionError] when nested data reaches [ModelSerializer.update]. *)
Definition raise_errors_on_nested_writes (vd : Validated) : drf () :=
  match v_profile vd with
  | Some _ => Err (ServerError "AssertionError: nested writes")
  | None => Ok ()
  end.

(** [setattr(instance, attr, value)] for the validated name fields. *)
Definition set_fields (u : User.t) (fs : gmap string (option string)) : User.t :=
  let pick k old := match fs !! k with Some (Some v) => v | _ => old end in
  User.mk (User.id u) (User.email u) (User.password u)
          (pick "first_name" (User.first_name u)) (pick "last_name" (User.last_name u))
          (pick "patronymic" (User.patronymic u)) (User.role u) (User.is_active u)
          (User.is_role_confirmed u) (User.date_joined u).

(** [ModelSerializer.update(instance, validated_data)]. *)
Definition model_update (instance : User.t) (vd : Validated) : st Db Failure User.t :=
  _ ← lift (raise_errors_on_nested_writes vd);
  let instance := set_fields instance (v_fields vd) in
  update (λ db, (user_save db instance, instance)).

(** [UserSerializer.update(instance, validated_data)] (lines 26-64). *)
Definition update (instance : User.t) (validated_data : Validated) : st Db Failure User.t :=
  let profile_data := v_profile validated_data in
  let validated_data := mkValidated (v_fields validated_data) None in
  _ ← (match profile_data with
       | Some pd =>
           '(profile_instance, _) ←
             Prelude.update (λ db, let '(db', p, created) := profile_get_or_create db (User.id instance)
                                   in (db', (p, created)));
           pd' ← lift (Framework.to_internal_value
                         (ProfileSerializer.fields (ProfileSerializer.as_data pd)));
           _ ← ProfileSerializer.save profile_instance pd';
           mret ()
       | None => mret ()
       end);
  model_update instance validated_data.

(** The alternative written in the comment of lines 50-53: the profile
    fields set by a [setattr] loop over [profile_data.items()], then
    [profile_instance.save()], instead of a second [ProfileSerializer]. *)
Definition update_manual (instance : User.t) (validated_data : Validated) : st Db Failure User.t :=
  let profile_data := v_profile validated_data in
  let validated_data := mkValidated (v_fields validated_data) None in
  _ ← (match profile_data with
       | Some pd =>
           '(profile_instance, _) ←
             Prelude.update (λ db, let '(db', p, created) := profile_get_or_create db (User.id instance)
                                   in (db', (p, created)));
           let p' := map_fold (λ attr value q, ProfileSerializer.setattr_profile q attr value)
                       profile_instance pd in
           Prelude.update (λ db, (profile_save db p', ()))
       | None => mret ()
       end);
  model_update instance validated_data.

(** The view's [serializer.is_valid(raise_exception=True)] then
    [serializer.save()] with [partial=True] for PATCH, [False] for PUT. *)
Definition partial_update (partial : bool) (instance : User.t) (d : Payload)
    : st Db Failure User.t :=
  vd ← lift (to_internal_value partial d);
  update instance vd.
End Serializer.

Section Facts.
Context `{ProfileFields}.
Local Open Scope string_scope.

Lemma user_to_internal_value_Ok partial d vd :
  to_internal_value partial d = Ok vd →
  field_errors (name_fields partial d) = [] ∧ profile_run (u_profile d) = Ok (v_profile vd) ∧
  v_fields vd = field_values (name_fields partial d).
Proof.
  unfold to_internal_value.
  destruct (field_errors _) eqn:E1, (profile_run _) as [prof|es] eqn:E2; simpl;
    try discriminate; [intros [= <-]; auto|destruct es; discriminate].
Qed.

Lemma profile_run_Some p pd :
  profile_run p = Ok (Some pd) →
  ∃ q, p = Some (NObj q) ∧ field_errors (ProfileSerializer.fields q) = [] ∧
       pd = field_values (ProfileSerializer.fields q).
Proof.
  destruct p as [[|q|]|]; intros Hp; cbn [profile_run] in Hp; try discriminate.
  destruct (field_errors (ProfileSerializer.fields q)) eqn:E; [|discriminate].
  injection Hp as <-. eauto.
Qed.

(** The database [update] leaves behind. *)
Definition update_db (instance : User.t) (vd : Validated) (db : Db) : Db :=
  let u' := set_fields instance (v_fields vd) in
  match v_profile vd with
  | Some pd =>
      let '(db1, p, _) := profile_get_or_create db (User.id instance) in
      user_save (profile_save db1 (ProfileSerializer.update_instance p pd)) u'
  | None => user_save db u'
  end.

(** [update] on data whose profile part re-validates to itself: it never
    raises, creates or updates the profile, and saves the user. *)
Lemma update_run instance vd db :
  (∀ pd, v_profile vd = Some pd →
     Framework.to_internal_value (ProfileSerializer.fields (ProfileSerializer.as_data pd)) = Ok pd) →
  update instance vd db = (update_db instance vd db, Ok (set_fields instance (v_fields vd))).
Proof.
  intros Hre. unfold update, update_db, model_update, lift, Prelude.update, mbind, st_bind.
  destruct (v_profile vd) as [pd|]; simpl; [|done].
  destruct (profile_get_or_create db (User.id instance)) as [[db1 p] c]. simpl.
  by rewrite (Hre pd eq_refl).
Qed.

(** The profile part of validated data re-validates to itself. *)
Lemma validated_profile_revalidates partial d vd pd :
  to_internal_value partial d = Ok vd → v_profile vd = Some pd →
  Framework.to_internal_value (ProfileSerializer.fields (ProfileSerializer.as_data pd)) = Ok pd.
Proof.
  intros Htiv Hpd.
  destruct (user_to_internal_value_Ok _ _ _ Htiv) as (_ & Hp & _). rewrite Hpd in Hp.
  destruct (profile_run_Some _ _ Hp) as (q & _ & Herr & ->).
  by apply ProfileSerializer.revalidate.
Qed.

Lemma partial_update_run partial instance d db vd :
  to_internal_value partial d = Ok vd →
  partial_update partial instance d db =
    (update_db instance vd db, Ok (set_fields instance (v_fields vd))).
Proof.
  intros Htiv. unfold partial_update, lift, mbind, st_bind. rewrite Htiv.
  apply update_run. intros pd. by eapply validated_profile_revalidates.
Qed.

(** The [setattr] alternative never raises and leaves the same database. *)
Lemma update_manual_run instance vd db :
  update_manual instance vd db = (update_db instance vd db, Ok (set_fields instance (v_fields vd))).
Proof.
  unfold update_manual, update_db, model_update, lift, Prelude.update, mbind, st_bind.
  destruct (v_profile vd) as [pd|]; simpl; [|done].
  destruct (profile_get_or_create db (User.id instance)) as [[db1 p] c]. simpl.
  by rewrite ProfileSerializer.fold_setattr_profile.
Qed.

Lemma partial_update_Ok_inv partial instance d db db' u' :
  partial_update partial instance d db = (db', Ok u') →
  ∃ vd, to_internal_value partial d = Ok vd ∧ db' = update_db instance vd db ∧
        u' = set_fields instance (v_fields vd).
Proof.
  destruct (to_internal_value partial d) as [vd|e] eqn:Htiv.
  - rewrite (partial_update_run _ _ _ _ _ Htiv). intros [= <- <-]. eauto.
  - unfold partial_update, lift, mbind, st_bind. by rewrite Htiv.
Qed.

(** A validated name field: skipped when absent, the stripped string
    otherwise. *)
Lemma name_field_value partial d r :
  char_run_validation partial name_opts (λ _, []) d = Ok r →
  (r = None ∧ d = None) ∨ ∃ v, r = Some (Some v) ∧ sent d = Some v.
Proof.
  intros Hr. destruct r as [[v|]|].
  - right. apply char_run_validation_trim in Hr as (s & -> & -> & _); [|done]. eauto.
  - exfalso. destruct d as [[|s|]|]; simpl in Hr; try discriminate.
    + revert Hr. destruct (_ || _); [intros [=]|]. intros [=].
    + destruct partial; discriminate.
  - left. split; [done|]. destruct d as [[|s|]|]; simpl in Hr; try discriminate; [|done].
    revert Hr. destruct (_ || _); [intros [=]|]. intros [=].
Qed.

Lemma set_fields_name partial d vd k dk old :
  to_internal_value partial d = Ok vd →
  (k, char_run_validation partial name_opts (λ _, []) dk) ∈ name_fields partial d →
  (match v_fields vd !! k with Some (Some v) => v | _ => old end) = default old (sent dk).
Proof.
  intros Htiv Hk. destruct (user_to_internal_value_Ok _ _ _ Htiv) as (Herr & _ & ->).
  assert (Hok : Framework.to_internal_value (name_fields partial d) =
                Ok (field_values (name_fields partial d)))
    by (unfold Framework.to_internal_value; by rewrite Herr).
  assert (NoDup (name_fields partial d).*1) as Hnd
    by (apply (bool_decide_unpack _); by vm_compute).
  pose proof (to_internal_value_lookup _ _ _ _ Hnd Hok Hk) as Hr.
  apply name_field_value in Hr as [[-> ->] | (v & -> & ->)]; done.
Qed.
End Facts.

End UserSerializer.

Module UserUpdateTheorems.
Import UserSerializer.

Section Theorems.
Context `{UuidSource} `{ProfileFields}.
Local Open Scope string_scope.

Lemma update_db_users instance vd db :
  users (update_db instance vd db) = <[User.id instance := set_fields instance (v_fields vd)]> (users db).
Proof.
  unfold update_db. destruct (v_profile vd) as [pd|]; [|done].
  unfold profile_get_or_create. by destruct (profiles db !! User.id instance).
Qed.

(** Saving validated data for a stored user (same primary key and
    address) keeps the database well-formed. *)
Lemma update_db_wf instance vd db u0 :
  db_wf db → users db !! User.id instance = Some u0 → User.email instance = User.email u0 →
  db_wf (update_db instance vd db).
Proof.
  intros Hwf Hu0 He. unfold update_db. destruct (v_profile vd) as [pd|].
  - destruct (wf_profile_get_or_create db (User.id instance) Hwf ltac:(by eexists)) as [Hwf1 Hp].
    unfold profile_get_or_create in *.
    destruct (profiles db !! User.id instance) as [p|]; simpl in *;
      (apply wf_user_save with u0; [apply wf_profile_save| |]; simpl; try done;
       rewrite ?Hp; by eexists).
  - by apply wf_user_save with u0.
Qed.


(** C14: each name field sent is stored stripped; a name field not sent
    keeps its value. *)
Theorem update_names partial instance d db db' u' :
  partial_update partial instance d db = (db', Ok u') →
  User.first_name u' = default (User.first_name instance) (sent (u_first_name d)) ∧
  User.last_name u' = default (User.last_name instance) (sent (u_last_name d)) ∧
  User.patronymic u' = default (User.patronymic instance) (sent (u_patronymic d)).
Proof.
  intros (vd & Htiv & _ & ->)%partial_update_Ok_inv. simpl.
  split_and!; apply (set_fields_name partial d vd); auto; unfold name_fields; by repeat econstructor.
Qed.

(** C15: a nested profile object updates the user's profile (creating it
    if missing): the fields sent take their validated values, the others
    keep theirs. *)
Theorem update_profile partial instance d db db' u' q :
  db_wf db → u_profile d = Some (NObj q) →
  partial_update partial instance d db = (db', Ok u') →
  profiles db' !! User.id instance =
    Some (ProfileSerializer.update_instance
            (default (Profile.mk (User.id instance) None None None None)
                     (profiles db !! User.id instance))
            (field_values (ProfileSerializer.fields q))).
Proof.
  intros Hwf Hq (vd & Htiv & -> & _)%partial_update_Ok_inv.
  destruct (user_to_internal_value_Ok _ _ _ Htiv) as (_ & Hp & _). rewrite Hq in Hp.
  cbn [profile_run] in Hp. destruct (field_errors _) eqn:E; [|discriminate].
  injection Hp as Hp. unfold update_db. rewrite <-Hp. unfold profile_get_or_create.
  destruct (profiles db !! User.id instance) as [p|] eqn:Ep; simpl.
  - destruct (wf_profile_keys db Hwf _ _ Ep) as [Hu _]. rewrite Hu. apply lookup_insert_eq.
  - apply lookup_insert_eq.
Qed.

(** A request without a [profile] key leaves every profile as it
    was. *)
Lemma update_keeps_profiles partial instance d db db' u' :
  u_profile d = None → partial_update partial instance d db = (db', Ok u') →
  profiles db' = profiles db.
Proof.
  intros Hq (vd & Htiv & -> & _)%partial_update_Ok_inv.
  destruct (user_to_internal_value_Ok _ _ _ Htiv) as (_ & Hp & _). rewrite Hq in Hp.
  injection Hp as Hp. unfold update_db. by rewrite <-Hp.
Qed.

(** C16: a failed update is a validation error and writes nothing. *)
Theorem update_failure_writes_nothing partial instance d db db' e :
  partial_update partial instance d db = (db', Err e) → db' = db ∧ ∃ errs, e = Invalid errs.
Proof.
  destruct (to_internal_value partial d) as [vd|e'] eqn:Htiv.
  - by rewrite (partial_update_run _ _ _ _ _ Htiv).
  - unfold partial_update, lift, mbind, st_bind. rewrite Htiv. intros [= -> <-].
    split; [done|]. unfold to_internal_value in Htiv.
    revert Htiv. repeat case_match; intros [= <-]; eauto.
Qed.



(** C39: on validated data, [update]'s second [ProfileSerializer] pass is
    equivalent to the [setattr] loop the comment of lines 50-53 offers as
    an alternative: same database, same result, in whatever order the
    loop visits the dict. *)
Theorem update_equiv_setattr_loop partial instance d vd db :
  to_internal_value partial d = Ok vd →
  update instance vd db = update_manual instance vd db.
Proof.
  intros Htiv. rewrite update_manual_run. apply update_run.
  intros pd. by apply (validated_profile_revalidates partial d).
Qed.
End Theorems.

End UserUpdateTheorems.

(** ** Concrete runs on [demo_db] *)

Module UserUpdateWitnesses.
Import UserSerializer UserUpdateTheorems.

Section Witnesses.
Local Open Scope string_scope.

Definition js (s : string) : option jvalue := Some (JStr s).

(** The administrator as stored in [demo_db]. *)
Definition demo_admin : User.t :=
  User.mk 0 "admin@example.org" (make_password "secret123") "Ann" "Lee" "" "admin" true true 1.

Definition demo_profile_patch : ProfileSerializer.Payload :=
  ProfileSerializer.mkPayload None (js "+7 900") (js " hi ") (Some JNull).

(** A PATCH that renames the administrator, fills the profile, and also
    sends new values for read-only fields. *)
Definition demo_patch : Payload :=
  mkPayload (js "99") (js "hacker@example.org") (js " Anna ") None None (js "boss")
            (Some (NObj demo_profile_patch)) (js "false") None None.

Definition demo_admin_patched : User.t :=
  User.mk 0 "admin@example.org" (make_password "secret123") "Anna" "Lee" "" "admin" true true 1.

(** A PATCH without profile. *)
Definition demo_patch_plain : Payload :=
  mkPayload None None None (js "Smith") None None None None None None.

(** A PATCH with a null name. *)
Definition demo_patch_bad : Payload :=
  mkPayload None None (Some JNull) None None None None None None None.


Lemma update_names_witness :
  User.first_name demo_admin_patched = default (User.first_name demo_admin) (sent (js " Anna ")) ∧
  User.last_name demo_admin_patched = default (User.last_name demo_admin) (sent None) ∧
  User.patronymic demo_admin_patched = default (User.patronymic demo_admin) (sent None).
Proof.
  apply (update_names true demo_admin demo_patch demo_db (partial_update true demo_admin demo_patch demo_db).1).
  vm_compute; reflexivity.
Defined.

Lemma update_profile_witness :
  profiles (partial_update true demo_admin demo_patch demo_db).1 !! 0 =
    Some (ProfileSerializer.update_instance (Profile.mk 0 None None None None)
            (field_values (ProfileSerializer.fields demo_profile_patch))).
Proof.
  apply (update_profile true demo_admin demo_patch demo_db _ demo_admin_patched demo_profile_patch);
    [apply demo_db_wf | reflexivity | vm_compute; reflexivity].
Defined.

Lemma update_failure_writes_nothing_witness :
  (partial_update true demo_admin demo_patch_bad demo_db).1 = demo_db ∧
  ∃ errs, Invalid [("first_name", [Null])] = Invalid errs.
Proof. apply (update_failure_writes_nothing true demo_admin demo_patch_bad). vm_compute; reflexivity. Defined.


Lemma update_equiv_setattr_loop_witness :
  match to_internal_value true demo_patch with
  | Ok vd => update demo_admin vd demo_db = update_manual demo_admin vd demo_db
  | Err _ => False
  end.
Proof.
  destruct (to_internal_value true demo_patch) as [vd|e] eqn:E; [|vm_compute in E; discriminate].
  exact (update_equiv_setattr_loop true demo_admin demo_patch vd demo_db E).
Defined.
End Witnesses.

End UserUpdateWitnesses.
