(* ===== verification/ChangePassword.v ===== *)
(** * [ChangePasswordSerializer] (src/users/serializers.py, lines 144-165)

    The three declared fields, [validate_old_password] against the
    request's user, [validate] (the two new passwords agree) and [save]
    ([user.set_password(password)] then [user.save()]), composed as the
    view runs them: [is_valid(raise_exception=True)] then [save()].  The
    request's user is the object the authentication loaded; [save] writes
    that whole object back. *)

From S2P Require Import Prelude Framework Models.

Module ChangePasswordSerializer.

(** The request body. *)
Record Payload : Type := mkPayload {
  p_old_password : option jvalue;
  p_new_password : option jvalue;
  p_new_password2 : option jvalue
}.

(** [CharField(required=True, write_only=True)], trimming by default. *)
Definition password_opts : CharOpts :=
  {| required := true; allow_null := false; allow_blank := false; trim_whitespace := true |}.

(** [data[key]] on the validated data: a [KeyError] when absent, the
    stored value otherwise. *)
Definition getkey (data : gmap string (option string)) (k : string) : drf (option string) :=
  match data !! k with
  | Some v => Ok v
  | None => Err (ServerError ("KeyError: " +:+ k))
  end.

Section Serializer.
Context `{PasswordHasher} `{PasswordPolicy}.

(** [validate_old_password]: [request.user.check_password(value)]. *)
Definition validate_old_password (user : User.t) (value : string) : result (list ErrorCode) string :=
  if check_password value (User.password user) then Ok value else Err [OldPasswordWrong].

(** The fields in declaration order; [new_password] carries
    [validators=[validate_password]]. *)
Definition fields (user : User.t) (d : Payload) : list (string * FieldResult) :=
  [("old_password", then_validate (char_run_validation false password_opts (λ _, []) (p_old_password d))
                                  (validate_old_password user));
   ("new_password", char_run_validation false password_opts password_validators (p_new_password d));
   ("new_password2", char_run_validation false password_opts (λ _, []) (p_new_password2 d))]%string.

(** [validate(data)] (lines 155-158). *)
Definition validate (data : gmap string (option string)) : drf (gmap string (option string)) :=
  p ← getkey data "new_password";
  p2 ← getkey data "new_password2";
  if bool_decide (p ≠ p2) then Err (Invalid [("new_password2", [NewPasswordsDiffer])])
  else Ok data.

(** [user.set_password(raw)]. *)
Definition set_password (u : User.t) (raw : string) : User.t :=
  User.mk (User.id u) (User.email u) (make_password raw) (User.first_name u) (User.last_name u)
          (User.patronymic u) (User.role u) (User.is_active u) (User.is_role_confirmed u)
          (User.date_joined u).

(** [save()] (lines 160-165). *)
Definition save (user : User.t) (validated_data : gmap string (option string)) : st Db Failure User.t :=
  password ← lift (getkey validated_data "new_password");
  match password with
  | Some password =>
      let user := set_password user password in
      update (λ db, (user_save db user, user))
  | None => throw (ServerError "TypeError: set_password(None)")
  end.

(** [serializer.is_valid(raise_exception=True); serializer.save()]. *)
Definition change_password (user : User.t) (d : Payload) : st Db Failure User.t :=
  data ← lift (to_internal_value (fields user d));
  data ← lift (validate data);
  save user data.

(** ** Facts *)

(** What the three fields accept: strings whose stripped forms are not
    blank, the old one checking against the user's hash, the new one
    passing the password policy. *)
Record accepted (user : User.t) (d : Payload) (so sn sn2 : string) : Prop := {
  acc_old : p_old_password d = Some (JStr so);
  acc_new : p_new_password d = Some (JStr sn);
  acc_new2 : p_new_password2 d = Some (JStr sn2);
  acc_old_nonblank : strip so ≠ ""%string;
  acc_old_checks : check_password (strip so) (User.password user) = true;
  acc_new_nonblank : strip sn ≠ ""%string;
  acc_new_policy : validate_password (strip sn) = [];
  acc_new2_nonblank : strip sn2 ≠ ""%string
}.

Lemma password_fields_NoDup user d : NoDup (fields user d).*1.
Proof. apply (bool_decide_unpack _). by vm_compute. Qed.

Lemma password_validators_nil v : password_validators v = [] ↔ validate_password v = [].
Proof. unfold password_validators. split; [apply fmap_nil_inv | by intros ->]. Qed.

Lemma fields_run user d so sn sn2 :
  accepted user d so sn sn2 →
  fields user d =
    [("old_password", Ok (Some (Some (strip so))));
     ("new_password", Ok (Some (Some (strip sn))));
     ("new_password2", Ok (Some (Some (strip sn2))))]%string.
Proof.
  intros []. unfold fields. rewrite acc_old0, acc_new0, acc_new3.
  rewrite !char_run_validation_accept by (done || by apply password_validators_nil).
  simpl. unfold validate_old_password. by rewrite acc_old_checks0.
Qed.

Lemma fields_Ok_inv user d ret :
  to_internal_value (fields user d) = Ok ret →
  ∃ so sn sn2, accepted user d so sn sn2 ∧
    ret !! "new_password" = Some (Some (strip sn)) ∧
    ret !! "new_password2" = Some (Some (strip sn2)).
Proof.
  intros Hok.
  assert (∀ n r, (n, r) ∈ fields user d → r = Ok (ret !! n)) as Hf
    by (intros; eapply to_internal_value_lookup; eauto using password_fields_NoDup).
  pose proof (Hf "old_password" _ ltac:(left)) as Ho.
  pose proof (Hf "new_password" _ ltac:(right; left)) as Hn.
  pose proof (Hf "new_password2" _ ltac:(right; right; left)) as Hn2.
  apply required_nonblank_value in Hn as (sn & Hsn & Hrn & Hnb & Hpol); [|done..].
  apply required_nonblank_value in Hn2 as (sn2 & Hsn2 & Hrn2 & Hnb2 & _); [|done..].
  apply then_validate_Ok in Ho as [(v & v' & Hc & Hm & _)|[Hc Hnot]].
  - apply required_nonblank_value in Hc as (so & Hso & [= ->] & Hob & _); [|done..].
    unfold validate_old_password in Hm. destruct (check_password _ _) eqn:Hck; [|done].
    exists so, sn, sn2. split; [|by rewrite Hrn, Hrn2].
    split; try done. by apply password_validators_nil.
  - apply required_nonblank_value in Hc as (so & _ & Hr & _); [|done..].
    by destruct (Hnot (strip so)).
Qed.

(** The run once the fields validated: [validate] compares the two new
    passwords, [save] hashes the first and writes the user back. *)
Lemma change_password_after_fields user d db ret p p2 :
  to_internal_value (fields user d) = Ok ret →
  ret !! "new_password" = Some (Some p) → ret !! "new_password2" = Some (Some p2) →
  change_password user d db =
    if bool_decide (p = p2)
    then (user_save db (set_password user p), Ok (set_password user p))
    else (db, Err (Invalid [("new_password2", [NewPasswordsDiffer])])).
Proof.
  intros Hok Hp Hp2. unfold change_password, lift, mbind, st_bind. rewrite Hok. simpl.
  unfold validate, getkey. rewrite Hp, Hp2. simpl.
  destruct (decide (p = p2)) as [<-|Hne].
  - rewrite bool_decide_eq_false_2 by apply not_ne_refl. rewrite bool_decide_eq_true_2 by done. simpl.
    unfold save, getkey, lift, mbind, st_bind, update. simpl. by rewrite Hp.
  - rewrite (bool_decide_eq_true_2 (Some p ≠ Some p2)) by congruence.
    by rewrite (bool_decide_eq_false_2 (p = p2)).
Qed.

Lemma change_password_Err_fields user d db e :
  to_internal_value (fields user d) = Err e → change_password user d db = (db, Err e).
Proof. intros He. unfold change_password, lift, mbind, st_bind. by rewrite He. Qed.

Lemma change_password_cases user d db :
  (∃ e, to_internal_value (fields user d) = Err e ∧ change_password user d db = (db, Err e)) ∨
  (∃ so sn sn2, accepted user d so sn sn2 ∧
     change_password user d db =
       if bool_decide (strip sn = strip sn2)
       then (user_save db (set_password user (strip sn)), Ok (set_password user (strip sn)))
       else (db, Err (Invalid [("new_password2", [NewPasswordsDiffer])]))).
Proof.
  destruct (to_internal_value (fields user d)) as [ret|e] eqn:Hok.
  - right. destruct (fields_Ok_inv _ _ _ Hok) as (so & sn & sn2 & Hacc & Hp & Hp2).
    exists so, sn, sn2. split; [done|]. by eapply change_password_after_fields.
  - left. exists e. split; [done|]. by apply change_password_Err_fields.
Qed.

Lemma accepted_fields_Ok user d so sn sn2 :
  accepted user d so sn sn2 → ∃ ret, to_internal_value (fields user d) = Ok ret.
Proof. intros Hacc. rewrite (fields_run _ _ _ _ _ Hacc). by eexists. Qed.

Lemma accepted_unique user d so sn sn2 so' sn' sn2' :
  accepted user d so sn sn2 → accepted user d so' sn' sn2' →
  so' = so ∧ sn' = sn ∧ sn2' = sn2.
Proof. intros [Ho Hn Hn2] [Ho' Hn' Hn2']. split_and!; congruence. Qed.
End Serializer.

End ChangePasswordSerializer.

(** ** Theorems of [ChangePasswordSerializer] *)
Module ChangePasswordTheorems.
Import ChangePasswordSerializer.

Section Theorems.
Context `{PasswordHasher} `{PasswordPolicy}.

(** C19: a password change succeeds exactly when the three fields are
    accepted (the old password checks against the user's hash, the new
    one passes the policy) and the stripped new passwords agree; the
    user is then written back with the hash of the stripped new password
    and nothing else changes. *)
Theorem change_password_correct user d db db' u' :
  change_password user d db = (db', Ok u') ↔
  ∃ so sn sn2, accepted user d so sn sn2 ∧ strip sn = strip sn2 ∧
    u' = set_password user (strip sn) ∧ db' = user_save db u'.
Proof.
  split.
  - destruct (change_password_cases user d db) as [(e & _ & ->)|(so & sn & sn2 & Hacc & ->)];
      [congruence|].
    case_bool_decide; intros [= <- <-]. eauto 10.
  - intros (so & sn & sn2 & Hacc & Heq & -> & ->).
    destruct (change_password_cases user d db) as [(e & Hf & _)|(so' & sn' & sn2' & Hacc' & ->)].
    + destruct (accepted_fields_Ok _ _ _ _ _ Hacc). congruence.
    + destruct (accepted_unique _ _ _ _ _ _ _ _ Hacc Hacc') as (-> & -> & ->).
      by rewrite bool_decide_eq_true_2.
Qed.

(** C20: an old password that does not check against the user's hash is
    refused under [old_password] and nothing is written. *)
Theorem change_password_wrong_old user d db so :
  p_old_password d = Some (JStr so) → strip so ≠ ""%string →
  check_password (strip so) (User.password user) = false →
  ∃ errs, change_password user d db = (db, Err (Invalid errs)) ∧
          ("old_password", [OldPasswordWrong])%string ∈ errs.
Proof.
  intros Hd Hne Hck.
  destruct (to_internal_value_field_Err (fields user d) "old_password" [OldPasswordWrong])
    as (errs & Htiv & Hin).
  { unfold fields. rewrite Hd, char_run_validation_accept by done. simpl.
    unfold validate_old_password. rewrite Hck. left. }
  exists errs. split; [by apply change_password_Err_fields | done].
Qed.

(** C21: accepted fields whose new passwords differ after stripping are
    refused under [new_password2] and nothing is written. *)
Theorem change_password_mismatch user d db so sn sn2 :
  accepted user d so sn sn2 → strip sn ≠ strip sn2 →
  change_password user d db = (db, Err (Invalid [("new_password2", [NewPasswordsDiffer])]))%string.
Proof.
  intros Hacc Hne.
  destruct (change_password_cases user d db) as [(e & Hf & _)|(so' & sn' & sn2' & Hacc' & ->)].
  - destruct (accepted_fields_Ok _ _ _ _ _ Hacc). congruence.
  - destruct (accepted_unique _ _ _ _ _ _ _ _ Hacc Hacc') as (-> & -> & ->).
    by rewrite bool_decide_eq_false_2.
Qed.


(** A refused password change leaves the database as it was. *)
Theorem change_password_failure_writes_nothing user d db db' e :
  change_password user d db = (db', Err e) → db' = db.
Proof.
  destruct (change_password_cases user d db) as [(e' & _ & ->)|(so & sn & sn2 & _ & ->)];
    [congruence|].
  case_bool_decide; congruence.
Qed.


(** C24: the handler never fails with a server error: the keys [save] and
    [validate] read are always in the validated data. *)
Theorem change_password_no_server_error user d db db' what :
  change_password user d db ≠ (db', Err (ServerError what)).
Proof.
  destruct (change_password_cases user d db) as [(e & Hf & ->)|(so & sn & sn2 & _ & ->)].
  - apply to_internal_value_Err in Hf as [-> _]. congruence.
  - case_bool_decide; congruence.
Qed.
End Theorems.
End ChangePasswordTheorems.

(** ** Concrete runs: the administrator of [Models.demo_db] changes the
    password ["secret123"]. *)
Module ChangePasswordWitnesses.
Import ChangePasswordSerializer ChangePasswordTheorems.
Local Open Scope string_scope.

Definition js (s : string) : option jvalue := Some (JStr s).

Definition demo_user : User.t :=
  User.mk 0 "admin@example.org" (make_password "secret123") "Ann" "Lee" "" "admin" true true 1.

Definition demo_good : Payload := mkPayload (js "secret123") (js " newpass99") (js "newpass99 ").
Definition demo_wrong : Payload := mkPayload (js "wrongpass") (js "newpass99") (js "newpass99").
Definition demo_mismatch : Payload := mkPayload (js "secret123") (js "newpass99") (js "newpass98").


Lemma change_password_correct_witness :
  match change_password demo_user demo_good demo_db with
  | (db', Ok u') => ∃ so sn sn2, accepted demo_user demo_good so sn sn2 ∧ strip sn = strip sn2 ∧
                      u' = set_password demo_user (strip sn) ∧ db' = user_save demo_db u'
  | _ => False
  end.
Proof.
  destruct (change_password demo_user demo_good demo_db) as [db' [u'|e]] eqn:E.
  - exact (proj1 (change_password_correct _ _ _ _ _) E).
  - vm_compute in E. discriminate.
Defined.

Lemma change_password_wrong_old_witness :
  ∃ errs, change_password demo_user demo_wrong demo_db = (demo_db, Err (Invalid errs)) ∧
          ("old_password", [OldPasswordWrong]) ∈ errs.
Proof.
  apply (change_password_wrong_old _ _ _ "wrongpass");
    [reflexivity | vm_compute; intros [=] | reflexivity].
Defined.

Lemma change_password_mismatch_witness :
  change_password demo_user demo_mismatch demo_db =
    (demo_db, Err (Invalid [("new_password2", [NewPasswordsDiffer])])).
Proof.
  apply (change_password_mismatch _ _ _ "secret123" "newpass99" "newpass98").
  - split; vm_compute; (reflexivity || intros [=]).
  - vm_compute. intros [=].
Defined.



Lemma change_password_no_server_error_witness :
  change_password demo_user demo_good demo_db ≠ (demo_db, Err (ServerError "KeyError: new_password")).
Proof. apply change_password_no_server_error. Defined.
End ChangePasswordWitnesses.
