(* ===== verification/InvitationIssue.v ===== *)
(** * [InvitationCodeSerializer] (src/users/serializers.py, lines 167-182)

    Issuing an invitation code.  Of the declared fields only [role] and
    [expires_at] are writable: [id], [code], [created_by], [used_by],
    [created_at], [is_valid] and the two e-mail fields are read-only, so
    [to_internal_value] drops whatever the client sends for them.  [create]
    sets [created_by] to the request's user, draws [uuid.uuid4()] because
    [code] is never in the validated data, and calls
    [InvitationCode.objects.create]. *)

From S2P Require Import Prelude Framework Models.

Module InvitationCodeSerializer.

(** The request body, one entry per declared field. *)
Record Payload : Type := mkPayload {
  p_id : option jvalue;
  p_code : option jvalue;
  p_role : option jvalue;
  p_created_by : option jvalue;
  p_created_by_email : option jvalue;
  p_used_by : option jvalue;
  p_used_by_email : option jvalue;
  p_created_at : option jvalue;
  p_expires_at : option jvalue;
  p_is_valid : option jvalue
}.

(** The validated data: the writable fields ([None] when skipped, [Some
    None] for an accepted null), and [code], which a read-only field never
    puts there. *)
Record Validated : Type := mkValidated {
  v_code : option string;
  v_role : option (option string);
  v_expires_at : option (option Z)
}.

(** [role]: the model's [choices] make it a required [ChoiceField]. *)
Definition role_opts : CharOpts :=
  {| required := true; allow_null := false; allow_blank := false; trim_whitespace := false |}.

(** [expires_at]: a [DateTimeField] of a [null=True, blank=True] column. *)
Definition expires_opts : CharOpts :=
  {| required := false; allow_null := true; allow_blank := true; trim_whitespace := false |}.

(** The errors of one field under its name. *)
Definition errors_of {A} (n : string) (r : result (list ErrorCode) A) : ValidationError :=
  match r with Err es => [(n, es)] | Ok _ => [] end.

Section Serializer.
Context `{RoleChoices} `{DateTimeParser} `{UuidSource}.

(** [DateTimeField.run_validation]. *)
Definition datetime_run_validation (o : CharOpts) (d : option jvalue)
    : result (list ErrorCode) (option (option Z)) :=
  match validate_empty_values false o d with
  | Some (Ok None) => Ok None
  | Some (Ok (Some _)) => Ok (Some None)
  | Some (Err es) => Err es
  | None =>
      match d with
      | Some (JStr s) =>
          match parse_datetime s with Some t => Ok (Some (Some t)) | None => Err [InvalidDateTime] end
      | _ => Err [InvalidDateTime]
      end
  end.

(** [to_internal_value]: the two writable fields in declaration order. *)
Definition to_internal_value (d : Payload) : drf Validated :=
  let r := choice_run_validation false role_opts role_values (p_role d) in
  let e := datetime_run_validation expires_opts (p_expires_at d) in
  match r, e with
  | Ok r, Ok e => Ok (mkValidated None r e)
  | _, _ => Err (Invalid (errors_of "role" r ++ errors_of "expires_at" e))
  end.

(** [create(validated_data)] (lines 176-182). *)
Definition create (now : Z) (user : User.t) (vd : Validated) : st Db Failure InvitationCode.t :=
  c ← match v_code vd with Some c => mret c | None => update draw_uuid end;
  match v_role vd with
  | Some (Some r) =>
      update (λ db, invitation_create db now c r (User.id user) (mjoin (v_expires_at vd)))
  | _ => throw (ServerError "IntegrityError: role")
  end.

(** [serializer.is_valid(raise_exception=True); serializer.save()]. *)
Definition issue (now : Z) (user : User.t) (d : Payload) : st Db Failure InvitationCode.t :=
  vd ← lift (to_internal_value d);
  create now user vd.

(** ** Facts *)

Lemma to_internal_value_spec d vd :
  to_internal_value d = Ok vd ↔
  ∃ r e, p_role d = Some (JStr r) ∧ r ∈ role_values ∧
    datetime_run_validation expires_opts (p_expires_at d) = Ok e ∧
    vd = mkValidated None (Some (Some r)) e.
Proof.
  unfold to_internal_value. cbv zeta. split.
  - destruct (choice_run_validation _ _ _ _) as [r|] eqn:Hr;
      destruct (datetime_run_validation _ _) as [ev|]; intros Hok; try discriminate.
    injection Hok as <-. pose proof Hr as Hr'.
    apply choice_run_validation_required in Hr as [s ->]; [|done..].
    apply choice_run_validation_value in Hr' as [Hd Hs]; [|done]. eauto 10.
  - intros (r & e & Hd & Hs & He & ->). rewrite Hd, He, choice_run_validation_accept; done.
Qed.

Lemma issue_Err_fields now user d db e :
  to_internal_value d = Err e → issue now user d db = (db, Err e).
Proof. intros He. unfold issue, lift, mbind, st_bind. by rewrite He. Qed.

(** The run once the fields validated: a [uuid4] is drawn and the row is
    created with it. *)
Lemma issue_run now user d db r e :
  to_internal_value d = Ok (mkValidated None (Some (Some r)) e) →
  issue now user d db =
    let '(db2, i) := invitation_create (draw_uuid db).1 now (uuid4 (uuid_seq db)) r (User.id user) (mjoin e) in
    (db2, Ok i).
Proof. intros Hok. unfold issue, lift, mbind, st_bind. by rewrite Hok. Qed.

Lemma issue_cases now user d db :
  (∃ e, to_internal_value d = Err e ∧ issue now user d db = (db, Err e)) ∨
  (∃ r e, to_internal_value d = Ok (mkValidated None (Some (Some r)) e) ∧
     issue now user d db =
       let '(db2, i) := invitation_create (draw_uuid db).1 now (uuid4 (uuid_seq db)) r (User.id user) (mjoin e) in
       (db2, Ok i)).
Proof.
  destruct (to_internal_value d) as [vd|e] eqn:Hok.
  - right. pose proof Hok as Hok'. apply to_internal_value_spec in Hok' as (r & e & _ & _ & _ & ->).
    exists r, e. split; [done|]. by apply issue_run.
  - left. exists e. split; [done|]. by apply issue_Err_fields.
Qed.

(** A refused issuance fails in [to_internal_value], with a validation
    error. *)
Lemma to_internal_value_Err_invalid d e :
  to_internal_value d = Err e → ∃ errs, e = Invalid errs.
Proof.
  unfold to_internal_value. cbv zeta.
  destruct (choice_run_validation _ _ _ _), (datetime_run_validation _ _); intros [= <-]; eauto.
Qed.
End Serializer.

End InvitationCodeSerializer.

(** ** Theorems of [InvitationCodeSerializer] *)
Module InvitationIssueTheorems.
Import InvitationCodeSerializer.

Section Theorems.
Context `{RoleChoices} `{DateTimeParser} `{UuidSource}.

(** What a successful issuance did, as a predicate of the request and the
    two databases. *)
Definition issued (now : Z) (user : User.t) (d : Payload) (db db' : Db) (i : InvitationCode.t) : Prop :=
  ∃ r e, p_role d = Some (JStr r) ∧ r ∈ role_values ∧
    datetime_run_validation expires_opts (p_expires_at d) = Ok e ∧
    i = InvitationCode.mk (next_invite_id db) (uuid4 (uuid_seq db)) r (User.id user) None now (mjoin e) ∧
    db' = (invitation_create (draw_uuid db).1 now (uuid4 (uuid_seq db)) r (User.id user) (mjoin e)).1.

Lemma issue_Ok_inv now user d db db' i :
  issue now user d db = (db', Ok i) → issued now user d db db' i.
Proof.
  destruct (issue_cases now user d db) as [(e & _ & ->)|(r & e & Hok & ->)]; [congruence|].
  simpl. intros [= <- <-].
  apply to_internal_value_spec in Hok as (r' & e' & Hd & Hs & He & [= <- <-]).
  exists r, e. eauto 10.
Qed.

Lemma issue_Ok_wf now user d db db' i :
  db_wf db → is_Some (users db !! User.id user) →
  issue now user d db = (db', Ok i) →
  db_wf db' ∧ ∀ k j, invitations db !! k = Some j → InvitationCode.code j ≠ InvitationCode.code i.
Proof.
  intros Hwf Hu (r & e & _ & _ & _ & -> & ->)%issue_Ok_inv.
  destruct (wf_draw_uuid db Hwf) as [Hwf1 Hfresh]. split; [|done].
  apply wf_invitation_create; [done | done | done |]. exists (uuid_seq db). simpl. split; [lia | done].
Qed.

(** C25: an issuance succeeds exactly when [role] is one of the choices
    and [expires_at] is absent, null or a datetime; the new row has the
    next primary key, the next [uuid4] as its code, the request's user as
    its creator, no user, and [created_at] now, and it is the only change
    besides the two counters. *)
Theorem issue_correct now user d db db' i :
  issue now user d db = (db', Ok i) ↔ issued now user d db db' i.
Proof.
  split; [apply issue_Ok_inv|].
  intros (r & e & Hd & Hs & He & -> & ->).
  rewrite (issue_run _ _ _ _ r e) by (apply to_internal_value_spec; eauto 10). reflexivity.
Qed.

(** C26: the read-only fields are ignored: two requests that agree on
    [role] and [expires_at] have the same outcome, whatever [id], [code],
    [created_by], [used_by], [created_at] or [is_valid] they send. *)
Theorem issue_ignores_read_only now user d d' db :
  p_role d = p_role d' → p_expires_at d = p_expires_at d' →
  issue now user d db = issue now user d' db.
Proof. intros Hr He. unfold issue, to_internal_value. by rewrite Hr, He. Qed.

(** C27: on a well-formed database whose rows include the request's user,
    the issued code is unused, created by that user, different from every
    existing code, and [InvitationCode.objects.get(code=...)] finds exactly
    the new row. *)
Theorem issue_fresh_code now user d db db' i :
  db_wf db → is_Some (users db !! User.id user) →
  issue now user d db = (db', Ok i) →
  InvitationCode.used_by i = None ∧ InvitationCode.created_by i = User.id user ∧
  (∀ k j, invitations db !! k = Some j → InvitationCode.code j ≠ InvitationCode.code i) ∧
  invitation_get db' (InvitationCode.code i) = Ok i.
Proof.
  intros Hwf Hu Hok.
  destruct (issue_Ok_wf _ _ _ _ _ _ Hwf Hu Hok) as [Hwf' Hfresh].
  apply issue_Ok_inv in Hok as (r & e & _ & _ & _ & -> & ->).
  split_and!; [done | done | done |].
  eapply invitation_get_unique; [done|]. simpl. apply lookup_insert_eq.
Qed.

(** C28: issuing keeps a well-formed database well-formed when the
    request's user is one of its rows. *)
Theorem issue_preserves_wf now user d db db' r :
  db_wf db → is_Some (users db !! User.id user) →
  issue now user d db = (db', r) → db_wf db'.
Proof.
  intros Hwf Hu Hrun. destruct r as [i|e].
  - by destruct (issue_Ok_wf _ _ _ _ _ _ Hwf Hu Hrun).
  - destruct (issue_cases now user d db) as [(e' & _ & Heq)|(r & e' & _ & Heq)];
      rewrite Heq in Hrun; [congruence|]. simpl in Hrun. congruence.
Qed.

(** C29: nothing compares [expires_at] with the current time: a request
    with an expiry in the past is accepted, and the code it creates is
    never valid. *)
Theorem issue_accepts_past_expiry now user d db r s e :
  p_role d = Some (JStr r) → r ∈ role_values →
  p_expires_at d = Some (JStr s) → parse_datetime s = Some e → (e <= now)%Z →
  ∃ db' i, issue now user d db = (db', Ok i) ∧
    ∀ t, (now <= t)%Z → InvitationCode.is_valid t i = false.
Proof.
  intros Hd Hs Hx Hp Hle.
  rewrite (issue_run _ _ _ _ r (Some (Some e))).
  - eexists _, _. split; [reflexivity|]. intros t Ht. simpl. apply Z.ltb_ge. lia.
  - apply to_internal_value_spec. exists r, (Some (Some e)). split_and!; try done.
    unfold datetime_run_validation. rewrite Hx. simpl. by rewrite Hp.
Qed.

(** C30: a refused issuance is a validation error and writes nothing, not
    even the [uuid4] draw. *)
Theorem issue_failure_writes_nothing now user d db db' e :
  issue now user d db = (db', Err e) → db' = db ∧ ∃ errs, e = Invalid errs.
Proof.
  destruct (issue_cases now user d db) as [(e' & Hf & ->)|(r & e' & _ & ->)].
  - intros [= -> ->]. split; [done|]. by eapply to_internal_value_Err_invalid.
  - simpl. congruence.
Qed.
End Theorems.
End InvitationIssueTheorems.

(** ** Concrete runs: the administrator of [Models.demo_db] issues codes
    at time 10. *)
Module InvitationIssueWitnesses.
Import InvitationCodeSerializer InvitationIssueTheorems.
Local Open Scope string_scope.

Definition js (s : string) : option jvalue := Some (JStr s).

Definition demo_user : User.t :=
  User.mk 0 "admin@example.org" (make_password "secret123") "Ann" "Lee" "" "admin" true true 1.

(** A request that also sends a code, an id and a creator of its own. *)
Definition demo_request : Payload :=
  mkPayload (js "7") (js "mine") (js "engineer") (js "5") None None None None (js "50") None.
Definition demo_plain : Payload :=
  mkPayload None None (js "engineer") None None None None None (js "50") None.
Definition demo_past : Payload :=
  mkPayload None None (js "engineer") None None None None None (js "5") None.
Definition demo_bad : Payload :=
  mkPayload None None (js "boss") None None None None None (js "soon") None.

Lemma issue_correct_witness :
  match issue 10 demo_user demo_request demo_db with
  | (db', Ok i) => issued 10 demo_user demo_request demo_db db' i
  | _ => False
  end.
Proof.
  destruct (issue 10 demo_user demo_request demo_db) as [db' [i|e]] eqn:E.
  - exact (proj1 (issue_correct _ _ _ _ _ _) E).
  - vm_compute in E. discriminate.
Defined.

Lemma issue_ignores_read_only_witness :
  issue 10 demo_user demo_request demo_db = issue 10 demo_user demo_plain demo_db.
Proof. apply issue_ignores_read_only; reflexivity. Defined.

Lemma issue_fresh_code_witness :
  match issue 10 demo_user demo_request demo_db with
  | (db', Ok i) =>
      InvitationCode.used_by i = None ∧ InvitationCode.created_by i = User.id demo_user ∧
      (∀ k j, invitations demo_db !! k = Some j → InvitationCode.code j ≠ InvitationCode.code i) ∧
      invitation_get db' (InvitationCode.code i) = Ok i
  | _ => False
  end.
Proof.
  destruct (issue 10 demo_user demo_request demo_db) as [db' [i|e]] eqn:E.
  - refine (issue_fresh_code _ _ _ _ _ _ demo_db_wf _ E). by eexists.
  - vm_compute in E. discriminate.
Defined.

Lemma issue_preserves_wf_witness :
  db_wf (issue 10 demo_user demo_request demo_db).1.
Proof.
  destruct (issue 10 demo_user demo_request demo_db) as [db' r] eqn:E. simpl.
  refine (issue_preserves_wf _ _ _ _ _ _ demo_db_wf _ E). by eexists.
Defined.

Lemma issue_accepts_past_expiry_witness :
  ∃ db' i, issue 10 demo_user demo_past demo_db = (db', Ok i) ∧
    ∀ t, (10 <= t)%Z → InvitationCode.is_valid t i = false.
Proof.
  apply (issue_accepts_past_expiry _ _ _ _ "engineer" "5" 5%Z);
    [reflexivity | apply (bool_decide_unpack _); reflexivity | reflexivity | reflexivity | lia].
Defined.

Lemma issue_failure_writes_nothing_witness :
  match issue 10 demo_user demo_bad demo_db with
  | (db', Err e) => db' = demo_db ∧ ∃ errs, e = Invalid errs
  | _ => False
  end.
Proof.
  destruct (issue 10 demo_user demo_bad demo_db) as [db' [i|e]] eqn:E.
  - vm_compute in E. discriminate.
  - exact (issue_failure_writes_nothing _ _ _ _ _ _ E).
Defined.
End InvitationIssueWitnesses.
