(* ===== verification/Threads.v ===== *)
(** * Requests served concurrently, for any handler

    Django serves requests in parallel, and each handler of
    [src/users/serializers.py] runs in two phases on the shared database:
    [serializer.is_valid()], which reads it, and [serializer.save()], which
    writes it.  Nothing locks the rows in between.  This file models that
    for any handler given as a [handler] record of its two phases:

    - a state of threads, one per request;
    - the Inductive [step] relation, whose runs are all the interleavings
      of the phases;
    - the serial runs [serial_step], where each request runs whole;
    - an executable scheduler, [run_schedule].

    It proves, once for every handler, that serial runs are runs, that
    every run terminates, that every request can be answered, and a
    counting principle for quantities that a commit raises by at most
    one. *)

From S2P Require Import Prelude Framework Models.

(** What a handler offers the scheduler: its read phase and its write
    phase. *)
Record handler (Req V Resp : Type) : Type := Handler {
  check : Req → st Db Failure V;
  commit : V → st Db Failure Resp
}.
Arguments Handler {_ _ _} _ _.
Arguments check {_ _ _} _ _.
Arguments commit {_ _ _} _ _.

(** The whole handler, as one request runs it alone. *)
Definition serve {Req V Resp} (h : handler Req V Resp) (d : Req) : st Db Failure Resp :=
  vd ← check h d; commit h vd.

(** Where a request is: not started, validated with its data, answered. *)
Inductive phase (Req V Resp : Type) : Type :=
| Pending (d : Req)
| Checked (vd : V)
| Finished (r : drf Resp).
Arguments Pending {_ _ _} _.
Arguments Checked {_ _ _} _.
Arguments Finished {_ _ _} _.

Record Sys (Req V Resp : Type) : Type := mkSys {
  sys_db : Db;
  threads : list (phase Req V Resp)
}.
Arguments mkSys {_ _ _} _ _.
Arguments sys_db {_ _ _} _.
Arguments threads {_ _ _} _.

Section Threads.
Context {Req V Resp : Type} (h : handler Req V Resp).
Local Abbreviation phase := (phase Req V Resp).
Local Abbreviation Sys := (Sys Req V Resp).

Definition phase_of (r : drf V) : phase :=
  match r with Ok vd => Checked vd | Err e => Finished (Err e) end.

(** One request runs its next phase; the others wait. *)
Inductive step : Sys → Sys → Prop :=
| step_check t d s db' r :
    threads s !! t = Some (Pending d) → check h d (sys_db s) = (db', r) →
    step s (mkSys db' (<[t := phase_of r]> (threads s)))
| step_commit t vd s db' r :
    threads s !! t = Some (Checked vd) → commit h vd (sys_db s) = (db', r) →
    step s (mkSys db' (<[t := Finished r]> (threads s))).

(** The runs where each request is handled whole before the next. *)
Inductive serial_step : Sys → Sys → Prop :=
| serial_serve t d s db' r :
    threads s !! t = Some (Pending d) → serve h d (sys_db s) = (db', r) →
    serial_step s (mkSys db' (<[t := Finished r]> (threads s))).

(** The executable scheduler: run the next phase of thread [t]. *)
Definition next_phase (s : Sys) (t : nat) : option Sys :=
  match threads s !! t with
  | Some (Pending d) =>
      let '(db', r) := check h d (sys_db s) in Some (mkSys db' (<[t := phase_of r]> (threads s)))
  | Some (Checked vd) =>
      let '(db', r) := commit h vd (sys_db s) in Some (mkSys db' (<[t := Finished r]> (threads s)))
  | _ => None
  end.

Fixpoint run_schedule (s : Sys) (ts : list nat) : option Sys :=
  match ts with
  | [] => Some s
  | t :: ts => s' ← next_phase s t; run_schedule s' ts
  end.

(** The work left: two phases for a request not started, one for a
    validated one. *)
Definition weight (p : phase) : nat :=
  match p with Pending _ => 2 | Checked _ => 1 | Finished _ => 0 end.

Definition work (s : Sys) : nat := sum_list_with weight (threads s).

Definition unanswered (p : phase) : bool :=
  match p with Finished _ => false | _ => true end.

Definition answered (s : Sys) : Prop :=
  ∀ t p, threads s !! t = Some p → ∃ r, p = Finished r.

(** The requests not answered yet. *)
Definition open_requests (s : Sys) : nat :=
  sum_list_with (λ p, if unanswered p then 1 else 0) (threads s).

(** ** The scheduler implements the step relation *)

Lemma next_phase_step s t s' : next_phase s t = Some s' → step s s'.
Proof.
  unfold next_phase. destruct (threads s !! t) as [[d|vd|r]|] eqn:Ht; [..|done|done].
  - destruct (check h d (sys_db s)) eqn:Hv. intros [= <-]. by eapply step_check.
  - destruct (commit h vd (sys_db s)) eqn:Hc. intros [= <-]. by eapply step_commit.
Qed.

Lemma run_schedule_steps s ts s' : run_schedule s ts = Some s' → rtc step s s'.
Proof.
  revert s. induction ts as [|t ts IH]; simpl; intros s.
  - intros [= <-]. apply rtc_refl.
  - destruct (next_phase s t) as [s1|] eqn:E; simpl; [|done].
    intros Hrun. apply rtc_l with s1; [by apply (next_phase_step _ t) | by apply IH].
Qed.

(** A serial run is one of the interleaved runs. *)
Lemma serial_step_steps s s' : serial_step s s' → rtc step s s'.
Proof.
  intros [t d s0 db' r Ht Hrun]. unfold serve, mbind, st_bind in Hrun.
  destruct (check h d (sys_db s0)) as [db1 [vd|e]] eqn:Hv.
  - eapply rtc_l; [by eapply step_check|]. eapply rtc_l; [|apply rtc_refl].
    simpl. replace (<[t:=Finished r]> (threads s0))
      with (<[t:=Finished r]> (<[t:=Checked vd]> (threads s0))) by by rewrite list_insert_insert_eq.
    apply step_commit with vd; [|done]. apply list_lookup_insert_eq. by eapply lookup_lt_Some.
  - injection Hrun as -> <-. eapply rtc_l; [by eapply step_check | apply rtc_refl].
Qed.

(** A request served whole with success, when its read phase writes
    nothing: its two phases, one after the other. *)
Lemma serve_Ok_inv d db db' x :
  read_only (check h d) → serve h d db = (db', Ok x) →
  ∃ vd, check h d db = (db, Ok vd) ∧ commit h vd db = (db', Ok x).
Proof.
  intros Hro. unfold serve, mbind, st_bind.
  destruct (check h d db) as [db1 [vd|e]] eqn:Hv; [|done].
  rewrite (read_only_run _ _ _ _ Hro Hv) in Hv |- *. eauto.
Qed.

(** A property of states that every request served whole preserves holds
    along every serial run. *)
Lemma serial_invariant (I : Sys → Prop) s s' :
  (∀ s t d db' r, I s → threads s !! t = Some (Pending d) → serve h d (sys_db s) = (db', r) →
     I (mkSys db' (<[t := Finished r]> (threads s)))) →
  rtc serial_step s s' → I s → I s'.
Proof.
  intros Hpres. induction 1 as [|s s1 s' [t d s0 db' r Ht Hrun] _ IH]; [done|].
  intros HI. apply IH. by eapply Hpres.
Qed.

(** ** Termination and progress *)

(** Every step does one phase of one request. *)
Lemma step_work s s' : step s s' → work s' < work s.
Proof.
  unfold work. intros [t d s0 db' r Ht _|t vd s0 db' r Ht _]; simpl.
  - pose proof (sum_list_with_insert weight _ t (phase_of r) _ Ht). destruct r; simpl in *; lia.
  - pose proof (sum_list_with_insert weight _ t (Finished r) _ Ht). simpl in *. lia.
Qed.

Lemma step_sn s : sn step s.
Proof.
  revert s. apply (wf_projected (<) work); [|apply lt_wf].
  intros x y Hxy. by apply step_work.
Qed.

(** A request not answered yet can always take its next phase. *)
Lemma next_phase_progress s t p :
  threads s !! t = Some p → unanswered p = true → ∃ s', next_phase s t = Some s'.
Proof.
  intros Ht Hp. unfold next_phase. rewrite Ht.
  destruct p as [d|vd|r]; [..|done].
  - destruct (check h d (sys_db s)). by eexists.
  - destruct (commit h vd (sys_db s)). by eexists.
Qed.

Lemma unanswered_or_answered s :
  (∃ t p, threads s !! t = Some p ∧ unanswered p = true) ∨ answered s.
Proof.
  destruct (list_find (λ p, unanswered p = true) (threads s)) as [[t p]|] eqn:E.
  - left. apply list_find_Some in E as (? & ? & _). eauto.
  - right. apply list_find_None in E. intros t p Hp.
    apply (Forall_lookup_1 _ _ _ _ E) in Hp. destruct p as [| |r]; [..|by exists r]; by destruct Hp.
Qed.

Lemma all_answered s : (∃ s', rtc step s s' ∧ answered s') ∧ (nf step s → answered s).
Proof.
  split.
  - induction (step_sn s) as [s _ IH].
    destruct (unanswered_or_answered s) as [(t & p & Ht & Hp)|Hans]; [|by exists s].
    destruct (next_phase_progress s t p Ht Hp) as [s1 Hs1].
    destruct (IH s1) as (s' & Hrun & Hans); [by apply (next_phase_step _ t)|].
    exists s'. split; [eapply rtc_l; [by apply (next_phase_step _ t) | done] | done].
  - intros Hnf. destruct (unanswered_or_answered s) as [(t & p & Ht & Hp)|]; [|done].
    destruct (next_phase_progress s t p Ht Hp) as [s1 Hs1].
    destruct Hnf. exists s1. by apply (next_phase_step _ t).
Qed.

(** ** Two requests interleaved *)

Ltac threads_lookup :=
  simpl; repeat first
    [ rewrite list_lookup_insert_ne by done
    | rewrite list_lookup_insert_eq by (rewrite ?length_insert; eapply lookup_lt_Some; eauto) ].

(** Two requests whose read phases pass against the same database without
    writing it: validating both, then committing the first and the second,
    is a run, and it leaves what the second commit leaves. *)
Lemma interleave_run s t1 t2 d1 d2 vd1 vd2 db1 r1 db2 r2 :
  t1 ≠ t2 → threads s !! t1 = Some (Pending d1) → threads s !! t2 = Some (Pending d2) →
  check h d1 (sys_db s) = (sys_db s, Ok vd1) → check h d2 (sys_db s) = (sys_db s, Ok vd2) →
  commit h vd1 (sys_db s) = (db1, r1) → commit h vd2 db1 = (db2, r2) →
  ∃ s', rtc step s s' ∧ sys_db s' = db2 ∧
        threads s' !! t1 = Some (Finished r1) ∧ threads s' !! t2 = Some (Finished r2).
Proof.
  intros Hne Ht1 Ht2 Hv1 Hv2 Hc1 Hc2.
  destruct (interleave_lookups (threads s) t1 t2 (Checked vd1) (Checked vd2) (Finished r1) (Finished r2))
    as [Hl1 Hl2]; [done | by eapply lookup_lt_Some | by eapply lookup_lt_Some |].
  exists (mkSys db2 (<[t2:=Finished r2]> (<[t1:=Finished r1]>
    (<[t2:=Checked vd2]> (<[t1:=Checked vd1]> (threads s)))))).
  split_and!; [| done | exact Hl1 | exact Hl2].
  eapply rtc_l; [by apply (step_check t1 d1 s (sys_db s) (Ok vd1))|].
  eapply rtc_l; [apply (step_check t2 d2 _ (sys_db s) (Ok vd2)); [threads_lookup; done | done]|].
  eapply rtc_l; [apply (step_commit t1 vd1); [threads_lookup; done | exact Hc1]|].
  eapply rtc_l; [apply (step_commit t2 vd2); [threads_lookup; done | exact Hc2]|].
  apply rtc_refl.
Qed.

(** ** Counting what the commits create *)

(** When the read phase writes nothing and a commit raises a count [f] of
    the database by at most one, the count grows along a run by at most
    the requests answered. *)
Lemma run_count_bound (f : Db → nat) s s' :
  (∀ d, read_only (check h d)) →
  (∀ vd db db' r, commit h vd db = (db', r) → f db' ≤ S (f db)) →
  rtc step s s' → f (sys_db s') + open_requests s' ≤ f (sys_db s) + open_requests s.
Proof.
  intros Hro Hc. unfold open_requests. induction 1 as [s|s s1 s' Hstep _ IH]; [done|].
  enough (f (sys_db s1) + sum_list_with (λ p, if unanswered p then 1 else 0) (threads s1)
          ≤ f (sys_db s) + sum_list_with (λ p, if unanswered p then 1 else 0) (threads s))
    by lia.
  destruct Hstep as [t d s0 db' r Ht Hv|t vd s0 db' r Ht Hv]; simpl.
  - rewrite (read_only_run _ _ _ _ (Hro d) Hv).
    pose proof (sum_list_with_insert (λ p, if unanswered p then 1 else 0) _ t (phase_of r) _ Ht).
    destruct r; simpl in *; lia.
  - apply Hc in Hv.
    pose proof (sum_list_with_insert (λ p, if unanswered p then 1 else 0) _ t (Finished r) _ Ht).
    simpl in *. lia.
Qed.
End Threads.
