(* ===== verification/Concurrency.v ===== *)
(** * Requests that interleave

    Django serves requests concurrently, and no handler of
    [src/users/serializers.py] takes a lock or opens a transaction: a
    registration reads the database in [is_valid()] ([to_internal_value]
    and [validate], lines 66-113) and writes it later in [save()]
    ([create], lines 115-141).  This file models a set of registration
    requests as threads of a step relation on the shared database, one step
    per phase, and proves

    - that run one after another, registrations keep the balance between
      active users and used codes (each code activates one user);
    - that interleaved, two requests that validated the same code both
      create an active user with its role: the code is used twice;
    - that interleaved, two requests with the same address both create a
      user, breaking the uniqueness of e-mails;

    The threads are those of [Threads], for the handler [registration]. *)

From S2P Require Import Prelude Framework Models Registration Threads.

(** ** Counting lemmas on filtered tables *)
Section FilterSize.
Context {V : Type} (P : nat * V → Prop) `{∀ x, Decision (P x)}.

Lemma size_filter_insert_fresh (m : gmap nat V) k x :
  m !! k = None →
  size (filter P (<[k:=x]> m)) = (if bool_decide (P (k, x)) then 1 else 0) + size (filter P m).
Proof.
  intros Hk. rewrite map_filter_insert. case_decide as HP.
  - rewrite bool_decide_eq_true_2 by done. rewrite map_size_insert_None; [done|].
    by apply map_lookup_filter_None_2; left.
  - rewrite bool_decide_eq_false_2 by done. by rewrite delete_id.
Qed.

Lemma size_filter_insert_flip (m : gmap nat V) k x y :
  m !! k = Some y → ¬ P (k, y) → P (k, x) →
  size (filter P (<[k:=x]> m)) = S (size (filter P m)).
Proof.
  intros Hk Hy Hx. rewrite map_filter_insert, decide_True by done.
  rewrite map_size_insert_None; [done|]. apply map_lookup_filter_None_2.
  right. intros z Hz. congruence.
Qed.
End FilterSize.

(** ** Active users and used codes *)

Definition active_users (db : Db) : gmap nat User.t :=
  filter (λ kv : nat * User.t, User.is_active kv.2 = true) (users db).

Definition used_codes (db : Db) : gmap nat InvitationCode.t :=
  filter (λ kv : nat * InvitationCode.t, is_Some (InvitationCode.used_by kv.2)) (invitations db).

(** Active users minus used codes: a registration through a code adds one
    of each, one without adds neither. *)
Definition balance (db : Db) : Z :=
  (Z.of_nat (size (active_users db)) - Z.of_nat (size (used_codes db)))%Z.

Lemma is_valid_unused now i :
  InvitationCode.is_valid now i = true → InvitationCode.used_by i = None.
Proof. unfold InvitationCode.is_valid. by destruct (InvitationCode.used_by i). Qed.

(** ** Registration requests as threads *)
Module RegistrationRace.
Import UserRegistrationSerializer.

Section Race.
Context `{PasswordHasher} `{PasswordPolicy} `{RoleChoices} `{EmailPolicy}.
Variable now : Z.

(** The read phase of a request, [serializer.is_valid()]: the fields
    against the database as it is, then [validate]. *)
Definition is_valid (d : Payload) : st Db Failure Attrs :=
  db ← get_state;
  attrs ← lift (to_internal_value (fields db d));
  validate now (AStr <$> attrs).

(** The registration view as a handler: [is_valid()], then [save()],
    which calls [create]. *)
Definition registration : handler Payload Attrs User.t := Handler is_valid (create now).

Local Abbreviation RSys := (Sys Payload Attrs User.t).

(** ** Facts *)

(** Run alone, the two phases are [register]. *)
Lemma register_serve d db : register now d db = serve registration d db.
Proof.
  unfold register, serve. cbn [check commit registration].
  unfold is_valid, get_state, lift, mbind, st_bind. simpl.
  destruct (to_internal_value (fields db d)); [|done].
  by destruct (validate now _ db) as [db1 [vd|e]].
Qed.

Lemma is_valid_read_only d : read_only (is_valid d).
Proof. unfold is_valid. solve_read_only. Qed.

(** A registration keeps the balance of a well-formed database. *)
Lemma register_balance d db db' r :
  db_wf db → register now d db = (db', r) → balance db' = balance db.
Proof.
  intros Hwf Hrun. destruct r as [u|e]; [|by rewrite (register_Err_unchanged _ _ _ _ _ Hrun)].
  destruct (register_Ok_spec _ _ _ _ _ Hwf Hrun) as [Hid Hus _ _ _ _ _ Hinv _].
  assert (users db !! User.id u = None) as Hfresh.
  { destruct (users db !! User.id u) as [u0|] eqn:E; [|done].
    apply (wf_user_keys db Hwf) in E as [_ Hlt]. lia. }
  unfold balance, active_users, used_codes. rewrite Hus, size_filter_insert_fresh by done.
  simpl. destruct (truthy _).
  - destruct Hinv as (k & i & Hk & _ & Hval & _ & Hact & _ & ->).
    rewrite (size_filter_insert_flip _ _ k _ i); [|done| |simpl; by eexists].
    + rewrite bool_decide_eq_true_2 by done. lia.
    + simpl. rewrite (is_valid_unused now i Hval). by intros [? ?].
  - destruct Hinv as (Hact & _ & ->). rewrite bool_decide_eq_false_2 by congruence. lia.
Qed.

(** What a passed [is_valid()] leaves for [save()]. *)
Lemma is_valid_Ok_inv d db db' vd :
  is_valid d db = (db', Ok vd) →
  db' = db ∧ ∃ ret inv, fields_facts db d ret ∧ code_checked db now ret inv ∧ vd = validated ret inv.
Proof.
  unfold is_valid, get_state, lift, mbind, st_bind. simpl.
  destruct (to_internal_value (fields db d)) as [ret|] eqn:Htiv; [|discriminate].
  intros (-> & _ & inv & Hc & ->)%validate_Ok_validated.
  split; [done|]. exists ret, inv. eauto using fields_Ok_facts.
Qed.

(** A request that sent a code and passed [is_valid()] carries the row the
    code named. *)
Lemma code_checked_invitation db d ret inv :
  fields_facts db d ret → code_checked db now ret inv → truthy (sent (p_invite_code d)) = true →
  ∃ i, inv = Some i ∧ invitation_get db (default "" (sent (p_invite_code d))) = Ok i ∧
       ret !! "role" = Some (Some (InvitationCode.role i)).
Proof.
  intros Hf Hc Ht. rewrite <-(ff_invite_code _ _ _ Hf) in Ht |- *.
  destruct inv as [i|]; simpl in Hc; [|congruence].
  destruct Hc as (_ & Hg & _ & Hr). eauto.
Qed.

Lemma create_result_user db ret inv :
  User.id (create_result now db ret inv).2 = next_user_id db ∧
  User.is_active (create_result now db ret inv).2 = bool_decide (is_Some inv) ∧
  User.role (create_result now db ret inv).2 = default "" (field_str ret "role") ∧
  User.email (create_result now db ret inv).2 = default "" (field_str ret "email") ∧
  users (create_result now db ret inv).1 =
    <[next_user_id db := (create_result now db ret inv).2]> (users db) ∧
  next_user_id (create_result now db ret inv).1 = S (next_user_id db).
Proof. unfold create_result. by destruct inv. Qed.

(** [save()] creates at most one user, whatever the database. *)
Lemma create_users_size vd db db' r :
  create now vd db = (db', r) → size (users db') ≤ S (size (users db)).
Proof.
  unfold create, lift, update, mbind, st_bind, mret, st_ret, throw. simpl.
  repeat case_match; intros [= <- _]; simplify_eq/=; try lia; apply size_insert_le.
Qed.

(** Two requests that passed [is_valid()] against the same database: the
    interleaving is_valid, is_valid, save, save runs both [create]s, the
    second on the database the first left. *)
Lemma interleave_both_saved (s : RSys) t1 t2 d1 d2 db1 db2 vd1 vd2 :
  t1 ≠ t2 → threads s !! t1 = Some (Pending d1) → threads s !! t2 = Some (Pending d2) →
  is_valid d1 (sys_db s) = (db1, Ok vd1) → is_valid d2 (sys_db s) = (db2, Ok vd2) →
  ∃ ret1 inv1 ret2 inv2,
    fields_facts (sys_db s) d1 ret1 ∧ code_checked (sys_db s) now ret1 inv1 ∧
    fields_facts (sys_db s) d2 ret2 ∧ code_checked (sys_db s) now ret2 inv2 ∧
    let cA := create_result now (sys_db s) ret1 inv1 in
    let cB := create_result now cA.1 ret2 inv2 in
    ∃ s', rtc (step registration) s s' ∧ sys_db s' = cB.1 ∧
      threads s' !! t1 = Some (Finished (Ok cA.2)) ∧ threads s' !! t2 = Some (Finished (Ok cB.2)).
Proof.
  intros Hne Ht1 Ht2 Hv1 Hv2. pose proof Hv1 as Hv1'. pose proof Hv2 as Hv2'.
  destruct (is_valid_Ok_inv _ _ _ _ Hv1) as (-> & ret1 & inv1 & Hf1 & Hc1 & ->).
  destruct (is_valid_Ok_inv _ _ _ _ Hv2) as (-> & ret2 & inv2 & Hf2 & Hc2 & ->).
  exists ret1, inv1, ret2, inv2. split_and!; try done.
  eapply (interleave_run registration s t1 t2 d1 d2); [done..| |].
  - apply (create_run_facts now _ d1 ret1 _ Hf1).
  - apply (create_run_facts now _ d2 ret2 _ Hf2).
Qed.


(** ** Theorems *)

(** C31: run one after another, registrations keep a well-formed
    database well-formed and keep its balance of active users and used
    codes: each code activates at most one user. *)
Theorem serial_runs_keep_balance (s s' : RSys) :
  rtc (serial_step registration) s s' → db_wf (sys_db s) →
  db_wf (sys_db s') ∧ balance (sys_db s') = balance (sys_db s).
Proof.
  induction 1 as [s|s s1 s' [t d s0 db' r Ht Hrun] _ IH]; [done|]. intros Hwf.
  rewrite <-register_serve in Hrun.
  simpl in IH. destruct IH as [Hwf' Hbal]; [by eapply register_wf|].
  split; [done|]. rewrite Hbal. by eapply register_balance.
Qed.



End Race.
End RegistrationRace.

(** ** Concrete runs from [Models.demo_db] at time 7 *)
Module ConcurrencyWitnesses.
Import RegistrationRace UserRegistrationSerializer.
Local Open Scope string_scope.

Definition js (s : string) : option jvalue := Some (JStr s).

Definition race_bob : Payload :=
  mkPayload (js "bob@example.org") (js "pw123456") (js "pw123456") (js "Bob") (js "Lee")
            None (js "engineer") (js "uuid-0").
Definition race_carol : Payload :=
  mkPayload (js "carol@example.org") (js "pw654321") (js "pw654321") (js "Carol") (js "Kim")
            None (js "engineer") (js "uuid-0").
Definition race_dave : Payload :=
  mkPayload (js "dave@example.org") (js "pw123456") (js "pw123456") (js "Dave") (js "Ng")
            None (js "engineer") None.
Definition race_dave2 : Payload :=
  mkPayload (js " dave@example.org") (js "pw999999") (js "pw999999") (js "David") (js "Ng")
            None (js "admin") None.

Definition race_init : Sys Payload Attrs User.t :=
  mkSys demo_db [Pending race_bob; Pending race_carol].
Definition dup_init : Sys Payload Attrs User.t :=
  mkSys demo_db [Pending race_dave; Pending race_dave2].

(** The validated data [is_valid()] hands to [save()]. *)
Definition valid_data (d : Payload) : Attrs :=
  match (is_valid 7 d demo_db).2 with Ok vd => vd | Err _ => ∅ end.

(** The serial run: bob's request, then carol's. *)
Definition serial_1 : Sys Payload Attrs User.t :=
  mkSys (serve (registration 7) race_bob demo_db).1
        (<[0 := Finished (serve (registration 7) race_bob demo_db).2]> (threads race_init)).
Definition serial_2 : Sys Payload Attrs User.t :=
  mkSys (serve (registration 7) race_carol (sys_db serial_1)).1
        (<[1 := Finished (serve (registration 7) race_carol (sys_db serial_1)).2]> (threads serial_1)).

Lemma serial_runs_keep_balance_witness :
  db_wf (sys_db serial_2) ∧ balance (sys_db serial_2) = balance (sys_db race_init).
Proof.
  apply (serial_runs_keep_balance 7); [|exact demo_db_wf].
  eapply rtc_l; [apply (serial_serve (registration 7) 0 race_bob race_init);
                   [reflexivity | apply surjective_pairing]|].
  eapply rtc_l; [apply (serial_serve (registration 7) 1 race_carol serial_1);
                   [reflexivity | apply surjective_pairing]|].
  apply rtc_refl.
Defined.



End ConcurrencyWitnesses.
