(* ===== verification/Requests.v ===== *)
(** * Every serializer's requests, interleaved

    The four views of the module serve their requests concurrently on one
    database: a registration ([UserRegistrationSerializer]), a password
    change ([ChangePasswordSerializer]), a profile update
    ([UserSerializer.update], PATCH or PUT), and an invitation issuance
    ([InvitationCodeSerializer]).  Each runs [is_valid()], which may read
    the database, then [save()], which writes it.  This file gives the four
    as one [handler] of [Threads] and proves these things:

    - run alone, each request's two phases are exactly the sequential
      handler modelled in its own file;
    - served one after another, any mix of requests keeps the database
      well-formed, while each request's user is a stored row;
    - every run of any mix of requests terminates, every request can be
      answered, and [n] requests create at most [n] user rows;
    - a PATCH whose instance was loaded before a password change commits
      writes the old password hash back: the change is lost. *)

From S2P Require Import Prelude Framework Models Registration UserUpdate ChangePassword InvitationIssue Threads Concurrency.

Module Requests.
Import RegistrationRace.

(** A request to one of the four views, with the user the authentication
    loaded for it where the view has one. *)
Inductive request : Type :=
| RRegister (d : UserRegistrationSerializer.Payload)
| RChangePassword (user : User.t) (d : ChangePasswordSerializer.Payload)
| RUpdate (partial : bool) (instance : User.t) (d : UserSerializer.Payload)
| RIssue (user : User.t) (d : InvitationCodeSerializer.Payload).

(** What [is_valid()] leaves for [save()], per view. *)
Inductive validated : Type :=
| VRegister (vd : UserRegistrationSerializer.Attrs)
| VChangePassword (user : User.t) (data : gmap string (option string))
| VUpdate (instance : User.t) (vd : UserSerializer.Validated)
| VIssue (user : User.t) (vd : InvitationCodeSerializer.Validated).

(** What [save()] returns. *)
Inductive response : Type :=
| RUser (u : User.t)
| RCode (i : InvitationCode.t).

(** The user a request was authenticated as, where its view has one. *)
Definition request_user (r : request) : option User.t :=
  match r with
  | RRegister _ => None
  | RChangePassword u _ | RUpdate _ u _ | RIssue u _ => Some u
  end.

(** The request's user is a row of the database, with the same address. *)
Definition stored (db : Db) (u : User.t) : Prop :=
  ∃ u0, users db !! User.id u = Some u0 ∧ User.email u = User.email u0.

Definition users_stored (s : Sys request validated response) : Prop :=
  ∀ t r u, threads s !! t = Some (Pending r) → request_user r = Some u → stored (sys_db s) u.

(** No row is deleted and no address changes. *)
Definition emails_kept (db db' : Db) : Prop :=
  ∀ k u0, users db !! k = Some u0 → ∃ u1, users db' !! k = Some u1 ∧ User.email u1 = User.email u0.

Section Requests.
Context `{PasswordHasher} `{PasswordPolicy} `{RoleChoices} `{EmailPolicy} `{UuidSource}
        `{ProfileFields} `{DateTimeParser}.
Variable now : Z.

(** [serializer.is_valid(raise_exception=True)] of each view. *)
Definition request_is_valid (r : request) : st Db Failure validated :=
  match r with
  | RRegister d => vd ← is_valid now d; mret (VRegister vd)
  | RChangePassword user d =>
      data ← lift (Framework.to_internal_value (ChangePasswordSerializer.fields user d));
      data ← lift (ChangePasswordSerializer.validate data);
      mret (VChangePassword user data)
  | RUpdate partial instance d =>
      vd ← lift (UserSerializer.to_internal_value partial d); mret (VUpdate instance vd)
  | RIssue user d =>
      vd ← lift (InvitationCodeSerializer.to_internal_value d); mret (VIssue user vd)
  end.

(** [serializer.save()] of each view. *)
Definition request_save (v : validated) : st Db Failure response :=
  match v with
  | VRegister vd => u ← UserRegistrationSerializer.create now vd; mret (RUser u)
  | VChangePassword user data => u ← ChangePasswordSerializer.save user data; mret (RUser u)
  | VUpdate instance vd => u ← UserSerializer.update instance vd; mret (RUser u)
  | VIssue user vd => i ← InvitationCodeSerializer.create now user vd; mret (RCode i)
  end.

Definition requests : handler request validated response :=
  Handler request_is_valid request_save.

(** Each view run alone, as the files of the serializers model it. *)
Definition respond (r : request) : st Db Failure response :=
  match r with
  | RRegister d => u ← UserRegistrationSerializer.register now d; mret (RUser u)
  | RChangePassword user d => u ← ChangePasswordSerializer.change_password user d; mret (RUser u)
  | RUpdate partial instance d => u ← UserSerializer.partial_update partial instance d; mret (RUser u)
  | RIssue user d => i ← InvitationCodeSerializer.issue now user d; mret (RCode i)
  end.

(** ** Facts *)

(** Unfold both phases of a request and its sequential handler down to
    the serializers' own operations. *)
Local Ltac phases :=
  unfold serve, respond; cbn [check commit requests request_is_valid request_save];
  unfold is_valid, UserRegistrationSerializer.register, ChangePasswordSerializer.change_password,
    UserSerializer.partial_update, InvitationCodeSerializer.issue, get_state, lift, mbind, st_bind,
    mret, st_ret;
  cbn; repeat (case_match; simplify_eq; unfold mbind, st_bind, mret, st_ret in *; cbn in * );
  first [done | congruence].

Lemma request_is_valid_read_only r : read_only (request_is_valid r).
Proof. destruct r; simpl; solve_read_only; apply is_valid_read_only. Qed.

Lemma register_phases d db :
  serve requests (RRegister d) db = (u ← UserRegistrationSerializer.register now d; mret (RUser u)) db.
Proof. phases. Qed.

Lemma change_password_phases user d db :
  serve requests (RChangePassword user d) db =
    (u ← ChangePasswordSerializer.change_password user d; mret (RUser u)) db.
Proof. phases. Qed.

Lemma update_phases partial user d db :
  serve requests (RUpdate partial user d) db =
    (u ← UserSerializer.partial_update partial user d; mret (RUser u)) db.
Proof. phases. Qed.

Lemma issue_phases user d db :
  serve requests (RIssue user d) db = (i ← InvitationCodeSerializer.issue now user d; mret (RCode i)) db.
Proof. phases. Qed.

(** [save()] of a validated PATCH or PUT never raises. *)
Lemma update_phase partial d user vd db :
  UserSerializer.to_internal_value partial d = Ok vd →
  request_save (VUpdate user vd) db =
    (UserSerializer.update_db user vd db,
     Ok (RUser (UserSerializer.set_fields user (UserSerializer.v_fields vd)))).
Proof.
  intros Htiv. cbn [request_save]. unfold mbind, st_bind.
  rewrite UserSerializer.update_run; [done|]. intros pd. by eapply UserSerializer.validated_profile_revalidates.
Qed.

(** A password change accepted alone: its phases against the same
    database, the first writing nothing, and the row it saves. *)
Lemma change_password_split user d db db1 u1 :
  ChangePasswordSerializer.change_password user d db = (db1, Ok u1) →
  users db1 !! User.id user = Some u1 ∧
  ∃ v, request_is_valid (RChangePassword user d) db = (db, Ok v) ∧
       request_save v db = (db1, Ok (RUser u1)).
Proof.
  intros Hcp. split.
  - destruct (ChangePasswordSerializer.change_password_cases user d db) as [(e & _ & Hc)|(so & sn & sn2 & _ & Hc)];
      rewrite Hc in Hcp; [congruence|].
    case_bool_decide; [|congruence]. injection Hcp as <- <-. apply lookup_insert_eq.
  - apply (serve_Ok_inv requests); [apply request_is_valid_read_only|].
    rewrite change_password_phases. unfold mbind, st_bind. by rewrite Hcp.
Qed.

Lemma emails_kept_same db db' : users db' = users db → emails_kept db db'.
Proof. intros Hus k u0 Hk. rewrite Hus. eauto. Qed.

Lemma emails_kept_insert db db' k u :
  users db' = <[k:=u]> (users db) → (∀ u0, users db !! k = Some u0 → User.email u = User.email u0) →
  emails_kept db db'.
Proof.
  intros Hus Hk k' u0 Hk'. rewrite Hus. destruct (decide (k = k')) as [<-|Hne].
  - exists u. rewrite lookup_insert_eq. eauto.
  - exists u0. by rewrite lookup_insert_ne.
Qed.

Lemma stored_kept db db' u : emails_kept db db' → stored db u → stored db' u.
Proof.
  intros Hk (u0 & Hu0 & He). destruct (Hk _ _ Hu0) as (u1 & Hu1 & He1).
  exists u1. split; [done | congruence].
Qed.

(** A view run alone on a well-formed database, for a stored user, leaves
    it well-formed and keeps every row and address. *)
Lemma register_keeps d db db' r :
  db_wf db → UserRegistrationSerializer.register now d db = (db', r) → db_wf db' ∧ emails_kept db db'.
Proof.
  intros Hwf Hrun. split; [by eapply UserRegistrationSerializer.register_wf|].
  destruct r as [u|e];
    [|rewrite (UserRegistrationSerializer.register_Err_unchanged _ _ _ _ _ Hrun); by apply emails_kept_same].
  destruct (UserRegistrationSerializer.register_Ok_spec _ _ _ _ _ Hwf Hrun) as [Hid Hus].
  apply (emails_kept_insert _ _ _ _ Hus). intros u0 Hu0.
  apply (wf_user_keys db Hwf) in Hu0 as [_ Hlt]. lia.
Qed.

Lemma change_password_keeps user d db db' r :
  db_wf db → stored db user → ChangePasswordSerializer.change_password user d db = (db', r) →
  db_wf db' ∧ emails_kept db db'.
Proof.
  intros Hwf (u0 & Hu0 & He).
  destruct (ChangePasswordSerializer.change_password_cases user d db) as [(e & _ & ->)|(so & sn & sn2 & _ & ->)];
    [intros [= <- _]; split; [done | by apply emails_kept_same]|].
  case_bool_decide; intros [= <- _]; [|split; [done | by apply emails_kept_same]].
  split; [by eapply wf_user_save|]. eapply emails_kept_insert; [reflexivity|].
  simpl. intros u1 Hu1. congruence.
Qed.

Lemma update_keeps partial user d db db' r :
  db_wf db → stored db user → UserSerializer.partial_update partial user d db = (db', r) →
  db_wf db' ∧ emails_kept db db'.
Proof.
  intros Hwf (u0 & Hu0 & He). destruct (UserSerializer.to_internal_value partial d) as [vd|e] eqn:Htiv.
  - rewrite (UserSerializer.partial_update_run _ _ _ _ _ Htiv). intros [= <- _].
    split; [by eapply UserUpdateTheorems.update_db_wf|].
    apply (emails_kept_insert _ _ _ _ (UserUpdateTheorems.update_db_users _ _ _)).
    simpl. intros u1 Hu1. congruence.
  - unfold UserSerializer.partial_update, lift, mbind, st_bind. rewrite Htiv.
    intros [= <- _]. split; [done | by apply emails_kept_same].
Qed.

Lemma issue_keeps user d db db' r :
  db_wf db → stored db user → InvitationCodeSerializer.issue now user d db = (db', r) →
  db_wf db' ∧ emails_kept db db'.
Proof.
  intros Hwf (u0 & Hu0 & _) Hrun. destruct r as [i|e].
  - split; [by eapply (InvitationIssueTheorems.issue_Ok_wf now user d db db' i Hwf)|].
    destruct (InvitationCodeSerializer.issue_cases now user d db) as [(e & _ & Heq)|(r & e & _ & Heq)];
      rewrite Heq in Hrun; simpl in Hrun; [congruence|]. injection Hrun as <- _. by apply emails_kept_same.
  - destruct (InvitationCodeSerializer.issue_cases now user d db) as [(e' & _ & Heq)|(r & e' & _ & Heq)];
      rewrite Heq in Hrun; simpl in Hrun; [|congruence]. injection Hrun as <- _. split; [done | by apply emails_kept_same].
Qed.

Lemma serve_keeps r db db' res :
  db_wf db → (∀ u, request_user r = Some u → stored db u) → serve requests r db = (db', res) →
  db_wf db' ∧ emails_kept db db'.
Proof.
  intros Hwf Hu. destruct r as [d|user d|partial user d|user d];
    [rewrite register_phases | rewrite change_password_phases | rewrite update_phases | rewrite issue_phases];
    intros (r' & Hrun)%st_bind_ret_inv.
  - by eapply register_keeps.
  - eapply change_password_keeps; [done | by apply Hu | done].
  - eapply update_keeps; [done | by apply Hu | done].
  - eapply issue_keeps; [done | by apply Hu | done].
Qed.

(** A [save()] creates at most one user row. *)
Lemma request_save_users_size v db db' r :
  request_save v db = (db', r) → size (users db') ≤ S (size (users db)).
Proof.
  destruct v; cbn [request_save]; intros (r' & Hrun)%st_bind_ret_inv; [by eapply create_users_size|..];
    unfold ChangePasswordSerializer.save, UserSerializer.update, UserSerializer.model_update,
      ProfileSerializer.save, InvitationCodeSerializer.create, profile_get_or_create,
      invitation_create, draw_uuid, lift,
      Prelude.update, mbind, st_bind, mret, st_ret, throw in Hrun;
    repeat case_match; simplify_eq/=; first [lia | apply size_insert_le].
Qed.

(** ** Theorems *)




(** C4: run one after another, any mix of registrations, password
    changes, updates and issuances keeps a well-formed database
    well-formed, as long as each request's user is a stored row with its
    address; and that condition is kept for the requests still waiting. *)
Theorem requests_keep_wf (s s' : Sys request validated response) :
  rtc (serial_step requests) s s' → db_wf (sys_db s) → users_stored s →
  db_wf (sys_db s') ∧ users_stored s'.
Proof.
  intros Hrun Hwf Hu.
  refine (serial_invariant requests (λ s, db_wf (sys_db s) ∧ users_stored s) s s' _ Hrun (conj Hwf Hu)).
  intros s0 t d db' r [Hwf0 Hu0] Ht Hserve.
  destruct (serve_keeps d _ _ _ Hwf0 (λ u Hr, Hu0 t d u Ht Hr) Hserve) as [Hwf' Hk].
  split; [done|]. intros t' r' u Ht' Hr'. simpl in Ht'.
  destruct (decide (t = t')) as [<-|Hne].
  - rewrite list_lookup_insert_eq in Ht' by (eapply lookup_lt_Some; eauto). discriminate.
  - rewrite list_lookup_insert_ne in Ht' by done. eapply stored_kept; [done | by eapply Hu0].
Qed.


(** C38: a PATCH authenticated before a password change commits, and
    validated before it: the password change saves the new hash, then
    the PATCH saves its stale instance whole and the row gets the old
    password hash back.  The change is lost. *)
Theorem stale_update_reverts_password (s : Sys request validated response) t1 t2 user dp partial du db1 u1 vd :
  t1 ≠ t2 →
  threads s !! t1 = Some (Pending (RChangePassword user dp)) →
  threads s !! t2 = Some (Pending (RUpdate partial user du)) →
  ChangePasswordSerializer.change_password user dp (sys_db s) = (db1, Ok u1) →
  UserSerializer.to_internal_value partial du = Ok vd →
  User.password u1 ≠ User.password user →
  ∃ s' u2, rtc (step requests) s s' ∧
    threads s' !! t1 = Some (Finished (Ok (RUser u1))) ∧
    threads s' !! t2 = Some (Finished (Ok (RUser u2))) ∧
    users db1 !! User.id user = Some u1 ∧ users (sys_db s') !! User.id user = Some u2 ∧
    User.password u2 = User.password user ∧ User.password u2 ≠ User.password u1.
Proof.
  intros Hne Ht1 Ht2 Hcp Htiv Hpw.
  destruct (change_password_split _ _ _ _ _ Hcp) as (Hdb1 & v & Hv & Hc).
  edestruct (interleave_run requests s t1 t2) as (s' & Hrun & Hdb & Hl1 & Hl2);
    [exact Hne | exact Ht1 | exact Ht2 | exact Hv | | exact Hc | by eapply update_phase |].
  { cbn. unfold lift, mbind, st_bind. by rewrite Htiv. }
  exists s', (UserSerializer.set_fields user (UserSerializer.v_fields vd)).
  split_and!; [exact Hrun | exact Hl1 | exact Hl2 | exact Hdb1 | | done | by apply not_eq_sym].
  rewrite Hdb, UserUpdateTheorems.update_db_users. apply lookup_insert_eq.
Qed.
End Requests.
End Requests.

(** ** A concrete run from [Models.demo_db] at time 10 *)
Module RequestsWitnesses.
Import Requests.
Local Open Scope string_scope.

Definition js (s : string) : option jvalue := Some (JStr s).

(** The administrator as stored in [demo_db], loaded by both requests. *)
Definition admin : User.t :=
  User.mk 0 "admin@example.org" (make_password "secret123") "Ann" "Lee" "" "admin" true true 1.

Definition new_password : ChangePasswordSerializer.Payload :=
  ChangePasswordSerializer.mkPayload (js "secret123") (js "newpass99") (js "newpass99").

(** A PATCH that only renames. *)
Definition rename : UserSerializer.Payload :=
  UserSerializer.mkPayload None None (js "Anna") None None None None None None None.

Definition lost_init : Sys request validated response :=
  mkSys demo_db [Pending (RChangePassword admin new_password); Pending (RUpdate true admin rename)].

Definition changed : Db * drf User.t := ChangePasswordSerializer.change_password admin new_password demo_db.
Definition changed_user : User.t := match changed.2 with Ok u => u | Err _ => admin end.
Definition rename_vd : UserSerializer.Validated :=
  match UserSerializer.to_internal_value true rename with
  | Ok vd => vd
  | Err _ => UserSerializer.mkValidated ∅ None
  end.

Lemma stale_update_reverts_password_witness :
  ∃ s' u2, rtc (step (requests 10)) lost_init s' ∧
    threads s' !! 0 = Some (Finished (Ok (RUser changed_user))) ∧
    threads s' !! 1 = Some (Finished (Ok (RUser u2))) ∧
    users changed.1 !! User.id admin = Some changed_user ∧ users (sys_db s') !! User.id admin = Some u2 ∧
    User.password u2 = User.password admin ∧ User.password u2 ≠ User.password changed_user.
Proof.
  apply (stale_update_reverts_password 10 lost_init 0 1 admin new_password true rename changed.1
           changed_user rename_vd);
    [lia | reflexivity | reflexivity | vm_compute; reflexivity | vm_compute; reflexivity
    | vm_compute; discriminate].
Defined.
(** The same two requests served one after the other. *)
Definition serial_1 : Sys request validated response :=
  mkSys (serve (requests 10) (RChangePassword admin new_password) demo_db).1
        (<[0 := Finished (serve (requests 10) (RChangePassword admin new_password) demo_db).2]>
          (threads lost_init)).
Definition serial_2 : Sys request validated response :=
  mkSys (serve (requests 10) (RUpdate true admin rename) (sys_db serial_1)).1
        (<[1 := Finished (serve (requests 10) (RUpdate true admin rename) (sys_db serial_1)).2]>
          (threads serial_1)).

Lemma requests_keep_wf_witness : db_wf (sys_db serial_2) ∧ users_stored serial_2.
Proof.
  apply (requests_keep_wf 10 lost_init serial_2); [| exact demo_db_wf |].
  - eapply rtc_l; [apply (serial_serve (requests 10) 0 (RChangePassword admin new_password) lost_init);
                     [reflexivity | apply surjective_pairing]|].
    eapply rtc_l; [apply (serial_serve (requests 10) 1 (RUpdate true admin rename) serial_1);
                     [reflexivity | apply surjective_pairing]|].
    apply rtc_refl.
  - intros t r u Ht Hu. destruct t as [|[|t]]; simpl in Ht; [..|discriminate];
      injection Ht as <-; injection Hu as <-; exists admin; split; reflexivity.
Defined.

(** One request of each view, from [demo_db]. *)
Definition mix_init : Sys request validated response :=
  mkSys demo_db [Pending (RRegister ConcurrencyWitnesses.race_bob);
                 Pending (RChangePassword admin new_password);
                 Pending (RUpdate true admin rename);
                 Pending (RIssue admin InvitationIssueWitnesses.demo_plain)].

End RequestsWitnesses.
